(** * BratwurstPower: the PCA9557 register driver and the MQTT command
      dispatcher, embedded from [pca9557.py] and [bratwurst.py].

    Python integers are [Z]; [str] values are [string]s holding the UTF-8
    encoding of the text; [bytes] are [list byte]; dictionaries are
    association lists in insertion order.  Module-level globals, the I2C
    bus and the logging system form one [World] that every statement
    threads through; a raised exception is a [Raise] result, and the
    world it leaves is kept.

    What lies outside the two files is taken as follows.  A bus transfer
    succeeds and is recorded, and so does a call on the MQTT client.  A
    logging call is recorded whatever the configured level.  [json.loads] is not re-implemented: the handler
    is given, with each message, what that call does on its payload.
    The sensors answer with finite numbers, modelled by rationals.  The
    handler runs from start to end without the loop of [main] in
    between. *)

From Stdlib Require Import ZArith List Bool QArith Qround Lia Lqa.
From Stdlib.Strings Require Import String Ascii Byte.
From Stdlib Require Import DecimalString.
Import ListNotations.

Set Warnings "-register-all".

Local Open Scope list_scope.
Local Open Scope string_scope.
Local Open Scope Z_scope.

(* ================================================================== *)
(** ** Python values *)

Module Py.

(** The exception classes that the modelled statements can raise. *)
Inductive exception : Type :=
| JSONDecodeError
| UnicodeDecodeError
| AttributeError
| KeyError
| TypeError
| ValueError
| NameError
| OSError.

Inductive result (A : Type) : Type :=
| Ok (a : A)
| Raise (e : exception).
Arguments Ok {A} a.
Arguments Raise {A} e.

(** What [json.loads] can hand to the handler.  A float parsed from a
    command is only ever passed to [str()]; it is carried as the text that
    [str()] gives for it. *)
Inductive pyobj : Type :=
| PyNone
| PyBool (b : bool)
| PyInt (n : Z)
| PyFloat (text : string)
| PyStr (s : string)
| PyList (items : list pyobj)
| PyDict (items : list (string * pyobj)).

(** Truth value of an [int] or [bool] argument ([True] is 1). *)
Definition truthy (v : Z) : bool := negb (v =? 0).

(** *** Dictionaries *)

Definition dict (V : Type) : Type := list (string * V).

Fixpoint dict_get {V} (k : string) (d : dict V) : option V :=
  match d with
  | [] => None
  | (k', v) :: d' => if String.eqb k k' then Some v else dict_get k d'
  end.

(** [d[k] = v]: an existing key keeps its place, a new one goes last. *)
Fixpoint dict_set {V} (k : string) (v : V) (d : dict V) : dict V :=
  match d with
  | [] => [(k, v)]
  | (k', v') :: d' =>
      if String.eqb k k' then (k', v) :: d' else (k', v') :: dict_set k v d'
  end.

Definition keys {V} (d : dict V) : list string := map fst d.

(** [k in d.keys()] *)
Definition dict_mem {V} (k : string) (d : dict V) : bool :=
  existsb (String.eqb k) (keys d).

(** [s in [a, b, c]] for strings *)
Definition str_in (s : string) (l : list string) : bool :=
  existsb (String.eqb s) l.

(** *** Text *)

(** [str.lower()].  Exact on ASCII text; bytes of other characters are
    kept. *)
Definition lower_ascii (c : ascii) : ascii :=
  let n := N_of_ascii c in
  if ((65 <=? n) && (n <=? 90))%N then ascii_of_N (n + 32) else c.

Fixpoint lower (s : string) : string :=
  match s with
  | EmptyString => EmptyString
  | String c s' => String (lower_ascii c) (lower s')
  end.

Fixpoint contains (c : ascii) (s : string) : bool :=
  match s with
  | EmptyString => false
  | String c' s' => Ascii.eqb c c' || contains c s'
  end.

Definition hex_digit (upper : bool) (n : N) : ascii :=
  if (n <? 10)%N then ascii_of_N (48 + n)
  else ascii_of_N ((if upper then 55 else 87) + n).

(** Two hexadecimal digits of a value below 256. *)
Definition hex2 (upper : bool) (n : N) : string :=
  String (hex_digit upper (n / 16)) (String (hex_digit upper (n mod 16)) "").

Fixpoint pos_hex (upper : bool) (fuel : nat) (n : N) (acc : string) : string :=
  match fuel with
  | O => acc
  | S fuel' =>
      let acc' := String (hex_digit upper (n mod 16)) acc in
      if (n / 16 =? 0)%N then acc' else pos_hex upper fuel' (n / 16) acc'
  end.

Fixpoint pos_bin (p : positive) (acc : string) : string :=
  match p with
  | xH => String "1" acc
  | xO q => pos_bin q (String "0" acc)
  | xI q => pos_bin q (String "1" acc)
  end.

Fixpoint zeros (n : nat) : string :=
  match n with
  | O => ""
  | S n' => String "0" (zeros n')
  end.

(** Sign-aware zero padding to [width] characters, as the format flag
    [0] does. *)
Definition zero_pad (width : nat) (neg : bool) (digits : string) : string :=
  let sign := if neg then "-" else "" in
  sign ++ zeros (width - String.length sign - String.length digits)%nat ++ digits.

(** [f"{z:08b}"] *)
Definition fmt_08b (z : Z) : string :=
  let digits := match z with
                | Z0 => "0"
                | Zpos p | Zneg p => pos_bin p ""
                end in
  zero_pad 8 (z <? 0) digits.

(** [f"{z:02X}"] *)
Definition fmt_02X (z : Z) : string :=
  let n := Z.to_N (Z.abs z) in
  zero_pad 2 (z <? 0) (pos_hex true (S (N.to_nat (N.log2 n))) n "").

(** [str(z)] for an [int] *)
Definition str_int (z : Z) : string :=
  NilZero.string_of_int (Z.to_int z).

(** The quote that [repr] picks: a double quote only when the text holds
    a single quote and no double quote. *)
Definition squote : ascii := ascii_of_N 39.
Definition dquote : ascii := ascii_of_N 34.
Definition bslash : ascii := ascii_of_N 92.

Definition repr_quote (s : string) : ascii :=
  if contains squote s && negb (contains dquote s) then dquote else squote.

Definition repr_char (quote : ascii) (non_ascii_escaped : bool) (c : ascii)
  : string :=
  let n := N_of_ascii c in
  if Ascii.eqb c quote || Ascii.eqb c bslash then String bslash (String c "")
  else if (n =? 9)%N then String bslash "t"
  else if (n =? 10)%N then String bslash "n"
  else if (n =? 13)%N then String bslash "r"
  else if (n <? 32)%N || (n =? 127)%N || (non_ascii_escaped && (128 <=? n)%N)
       then String bslash ("x" ++ hex2 false n)
  else String c "".

Fixpoint repr_body (quote : ascii) (esc : bool) (s : string) : string :=
  match s with
  | EmptyString => EmptyString
  | String c s' => repr_char quote esc c ++ repr_body quote esc s'
  end.

(** [repr(s)] for a [str].  Exact on ASCII text; the bytes of other
    characters are kept, as Python keeps printable characters. *)
Definition repr_str (s : string) : string :=
  let q := repr_quote s in
  String q (repr_body q false s) ++ String q "".

(** [repr(b)] for [bytes], which is also what an f-string inserts. *)
Definition repr_bytes (b : list byte) : string :=
  let s := string_of_list_byte b in
  let q := repr_quote s in
  "b" ++ String q (repr_body q true s) ++ String q "".

Fixpoint join (sep : string) (l : list string) : string :=
  match l with
  | [] => ""
  | [x] => x
  | x :: l' => x ++ sep ++ join sep l'
  end.

(** [repr(o)], and [str(o)], which differs from it on a [str] only. *)
Fixpoint py_repr (o : pyobj) : string :=
  match o with
  | PyNone => "None"
  | PyBool true => "True"
  | PyBool false => "False"
  | PyInt n => str_int n
  | PyFloat text => text
  | PyStr s => repr_str s
  | PyList items => "[" ++ join ", " (map py_repr items) ++ "]"
  | PyDict items =>
      "{" ++ join ", " (map (fun kv => repr_str (fst kv) ++ ": " ++ py_repr (snd kv))
                            items) ++ "}"
  end.

Definition py_str (o : pyobj) : string :=
  match o with
  | PyStr s => s
  | _ => py_repr o
  end.

(** *** [bytes.decode()]: strict UTF-8 *)

Definition is_cont (b : N) : bool := ((128 <=? b) && (b <=? 191))%N.
Definition in_range (lo hi b : N) : bool := ((lo <=? b) && (b <=? hi))%N.

Fixpoint utf8_valid (l : list N) : bool :=
  match l with
  | [] => true
  | b0 :: l1 =>
      if (b0 <? 128)%N then utf8_valid l1
      else match l1 with
      | [] => false
      | b1 :: l2 =>
          if in_range 194 223 b0 then is_cont b1 && utf8_valid l2
          else match l2 with
          | [] => false
          | b2 :: l3 =>
              if in_range 224 239 b0 then
                (if (b0 =? 224)%N then in_range 160 191 b1
                 else if (b0 =? 237)%N then in_range 128 159 b1
                 else is_cont b1)
                && is_cont b2 && utf8_valid l3
              else match l3 with
              | [] => false
              | b3 :: l4 =>
                  if in_range 240 244 b0 then
                    (if (b0 =? 240)%N then in_range 144 191 b1
                     else if (b0 =? 244)%N then in_range 128 143 b1
                     else is_cont b1)
                    && is_cont b2 && is_cont b3 && utf8_valid l4
                  else false
              end
          end
      end
  end.

Definition bytes_decode (b : list byte) : result string :=
  if utf8_valid (map Byte.to_N b) then Ok (string_of_list_byte b)
  else Raise UnicodeDecodeError.

End Py.

Import Py.

(* ================================================================== *)
(** ** The process state and its statement monad *)

Inductive Level : Type := DEBUG | INFO | ERROR.

(** One call into the logging system: which logger, at what level, with
    what text. *)
Record LogRecord : Type := mkLog {
  log_name : string;
  log_level : Level;
  log_msg : string
}.

(** One [write_byte_data(address, register, value)] transfer. *)
Record Transfer : Type := mkTransfer {
  tr_address : Z;
  tr_register : Z;
  tr_value : Z
}.

(** The [smbus3.SMBus] handle: the transfers written so far, oldest
    first, and the level that a read of the expander's input port
    returns.  Only the transfers that the bus answered are recorded. *)
Record SMBus : Type := mkBus {
  written : list Transfer;
  input_port : Z
}.

(** A [pca9557.PCA9557] object: its logger's name and the shadow
    registers. *)
Record PCA9557 : Type := mkPCA {
  logger : string;
  address : Z;
  conf : Z;
  out : Z;
  inv : Z
}.

(** The globals of [bratwurst.py] that the handler touches.  [pca] is
    [None] until the module-level code has bound the name. *)
Record World : Type := mkWorld {
  pcapins : dict (dict pyobj);
  pca : option PCA9557;
  i2c : SMBus;
  logging : list LogRecord
}.

Definition M (A : Type) : Type := World -> result A * World.

Definition ret {A} (a : A) : M A := fun w => (Ok a, w).

Definition raise {A} (e : exception) : M A := fun w => (Raise e, w).

Definition bind {A B} (m : M A) (k : A -> M B) : M B :=
  fun w =>
    match m w with
    | (Ok a, w') => k a w'
    | (Raise e, w') => (Raise e, w')
    end.

Declare Scope py_scope.
Delimit Scope py_scope with py.
Notation "x <- m ;; k" := (bind m (fun x => k))
  (at level 100, m at next level, right associativity) : py_scope.
Notation "m ;; k" := (bind m (fun _ => k))
  (at level 100, right associativity) : py_scope.
Local Open Scope py_scope.

Definition lift {A} (r : result A) : M A := fun w => (r, w).

(** The world a statement leaves behind, and what it evaluated to. *)
Definition exec {A} (m : M A) (w : World) : World := snd (m w).
Definition eval {A} (m : M A) (w : World) : result A := fst (m w).

(** [for x in l: body(x)] *)
Fixpoint for_each {A} (l : list A) (body : A -> M unit) : M unit :=
  match l with
  | [] => ret tt
  | x :: l' => body x ;; for_each l' body
  end.

Definition emit (name : string) (lvl : Level) (msg : string) : M unit :=
  fun w => (Ok tt, mkWorld (pcapins w) (pca w) (i2c w)
                           (logging w ++ [mkLog name lvl msg])%list).

(** [bus.write_byte_data(address, register, value)] on a bus that
    answers: the call is recorded, with the value as it was passed, and
    returns.  What travels is one byte, the low eight bits of the value
    (see [chip_register]).  The driver and the handler below are
    written on this bus, so the runs they describe are those in which
    every transfer is answered; [refused] and [OnBus] describe the
    others. *)
Definition write_byte_data (addr reg val : Z) : M unit :=
  fun w => (Ok tt, mkWorld (pcapins w) (pca w)
                           (mkBus (written (i2c w) ++ [mkTransfer addr reg val])%list
                                  (input_port (i2c w)))
                           (logging w)).

(** The same call when the device does not answer: the transfer fails,
    the [OSError] of the system call comes up through [smbus3], and no
    byte reaches the chip. *)
Definition refused (addr reg val : Z) : M unit := raise OSError.

(** [bus.read_byte_data(address, register)], on a bus that answers. *)
Definition read_byte_data (addr reg : Z) : M Z :=
  fun w => (Ok (input_port (i2c w)), w).

(* ================================================================== *)
(** ** pca9557.py *)

Module Pca9557.

Definition write_bit (inbyte bit value : Z) : result Z :=
  if bit <? 0 then Raise ValueError
  else if truthy value then Ok (Z.lor inbyte (Z.shiftl 1 bit))
  else Ok (Z.land inbyte (Z.lnot (Z.shiftl 1 bit))).

Definition REG_INP : Z := 0.
Definition REG_OUT : Z := 1.
Definition REG_INV : Z := 2.
Definition REG_DIR : Z := 3.
Definition DIR_IN : Z := 1.
Definition DIR_OUT : Z := 0.

(** The one [PCA9557] object of the process, which the global [pca]
    names; using it before it is constructed is a [NameError]. *)
Definition self : M PCA9557 :=
  fun w => match pca w with
           | Some p => (Ok p, w)
           | None => (Raise NameError, w)
           end.

Definition assign (p : PCA9557) : M unit :=
  fun w => (Ok tt, mkWorld (pcapins w) (Some p) (i2c w) (logging w)).

Definition set_conf (v : Z) : M unit :=
  p <- self ;; assign (mkPCA (logger p) (address p) v (out p) (inv p)).
Definition set_out (v : Z) : M unit :=
  p <- self ;; assign (mkPCA (logger p) (address p) (conf p) v (inv p)).
Definition set_inv (v : Z) : M unit :=
  p <- self ;; assign (mkPCA (logger p) (address p) (conf p) (out p) v).

Definition debug (msg : string) : M unit :=
  p <- self ;; emit (logger p) DEBUG msg.

Definition write_inv (arg : option Z) : M unit :=
  p <- self ;;
  let v := match arg with Some v => v | None => inv p end in
  debug ("Setting Polarity inversion register to 0b" ++ fmt_08b v) ;;
  write_byte_data (address p) REG_INV v ;;
  set_inv v.

Definition write_direction (arg : option Z) : M unit :=
  p <- self ;;
  let v := match arg with Some v => v | None => conf p end in
  debug ("Setting Configuration Register to 0b" ++ fmt_08b v) ;;
  write_byte_data (address p) REG_DIR v ;;
  set_conf v.

Definition write_output (arg : option Z) : M unit :=
  p <- self ;;
  let v := match arg with Some v => v | None => out p end in
  debug ("Setting Output port Register to 0b" ++ fmt_08b v) ;;
  write_byte_data (address p) REG_OUT v ;;
  set_out v.

Definition read : M Z :=
  p <- self ;;
  inputs <- read_byte_data (address p) REG_INP ;;
  debug ("Read Input port Register: " ++ fmt_08b inputs) ;;
  ret inputs.

Definition read_pin (pin : Z) : M Z :=
  inputs <- read ;;
  if pin <? 0 then raise ValueError
  else ret ((Z.shiftr inputs pin) mod 2).

Definition value (pin : Z) (arg : option Z) : M Z :=
  match arg with
  | Some v =>
      debug ("Setting Pin " ++ str_int pin ++ " to "
             ++ (if truthy v then "high" else "low")) ;;
      p <- self ;;
      o <- lift (write_bit (out p) pin v) ;;
      set_out o ;;
      write_output None ;;
      ret v
  | None =>
      debug ("Reading value from Pin " ++ str_int pin) ;;
      read_pin pin
  end.

Definition direction (pin direction : Z) : M Z :=
  debug ("Setting Pin " ++ str_int pin ++ " to "
         ++ (if truthy direction then "input" else "output")) ;;
  p <- self ;;
  c <- lift (write_bit (conf p) pin direction) ;;
  set_conf c ;;
  write_direction None ;;
  ret direction.

(** [PCA9557.__init__(bus, address)], which creates the object. *)
Definition init (address : Z) : M unit :=
  let name := "pca9557" ++ "(0x" ++ fmt_02X address ++ ")" in
  emit name DEBUG "Initializing PCA9557" ;;
  assign (mkPCA name address 255 0 240) ;;
  write_inv (Some 0) ;;
  write_direction (Some 255).

Definition invert (pin inverted : Z) : M Z :=
  debug ("Setting Pin " ++ str_int pin ++ " to "
         ++ (if truthy inverted then "inverted" else "non-inverted")) ;;
  p <- self ;;
  i <- lift (write_bit (inv p) pin inverted) ;;
  set_inv i ;;
  write_inv None ;;
  ret inverted.

End Pca9557.

(* ================================================================== *)
(** ** bratwurst.py *)

Module Bratwurst.

(** A received message: [msg.topic] and [msg.payload]. *)
Record MQTTMessage : Type := mkMsg {
  topic : string;
  payload : list byte
}.

(** The table as the literal at the top of the module writes it. *)
Definition pcapins_literal : dict (dict pyobj) :=
  [ ("LED",  [("pin", PyInt 0)]);
    ("IO1",  [("pin", PyInt 1)]);
    ("IO2",  [("pin", PyInt 2)]);
    ("IO3",  [("pin", PyInt 3)]);
    ("IO4",  [("pin", PyInt 4)]);
    ("USB2", [("pin", PyInt 5)]);
    ("USB1", [("pin", PyInt 6)]);
    ("EXT",  [("pin", PyInt 7)]) ].

Definition PCA9557_ADDRESS : Z := 31.

Definition info (msg : string) : M unit := emit "root" INFO msg.
Definition error (msg : string) : M unit := emit "root" ERROR msg.
Definition debug (msg : string) : M unit := emit "root" DEBUG msg.

(** [pcapins[key][field]] *)
Definition item (key field : string) : M pyobj :=
  fun w => match dict_get key (pcapins w) with
           | Some entry =>
               match dict_get field entry with
               | Some v => (Ok v, w)
               | None => (Raise KeyError, w)
               end
           | None => (Raise KeyError, w)
           end.

(** [pcapins[key].get(field)] *)
Definition get (key field : string) : M pyobj :=
  fun w => match dict_get key (pcapins w) with
           | Some entry =>
               match dict_get field entry with
               | Some v => (Ok v, w)
               | None => (Ok PyNone, w)
               end
           | None => (Raise KeyError, w)
           end.

(** [pcapins[key][field] = v]: the entry is updated in place. *)
Definition setitem (key field : string) (v : pyobj) : M unit :=
  fun w => match dict_get key (pcapins w) with
           | Some entry =>
               (Ok tt, mkWorld (dict_set key (dict_set field v entry) (pcapins w))
                               (pca w) (i2c w) (logging w))
           | None => (Raise KeyError, w)
           end.

(** The driver's methods take [pin: int]; [True] and [False] are ints.
    A pin of another type is a [TypeError]; Python raises it one step
    later, in the shift of [write_bit].  The table never holds such a
    pin. *)
Definition as_int (o : pyobj) : M Z :=
  match o with
  | PyInt n => ret n
  | PyBool b => ret (Z.b2z b)
  | _ => raise TypeError
  end.

(** Lines 105-109: every pin starts with no value, no direction and the
    state ["default"]. *)
Definition set_defaults : M unit :=
  fun w =>
    for_each (keys (pcapins w))
      (fun pin =>
         setitem pin "value" PyNone ;;
         setitem pin "direction" PyNone ;;
         setitem pin "state" (PyStr "default")) w.

(** The module-level code up to the construction of the driver. *)
Definition startup : M unit :=
  set_defaults ;;
  debug "Initialize I2C Bus" ;;
  Pca9557.init PCA9557_ADDRESS.

(** The process before any module-level statement has run; the level on
    the expander's input pins is the environment's. *)
Definition blank (inputs : Z) : World :=
  mkWorld pcapins_literal None (mkBus [] inputs) [].

Definition boot (inputs : Z) : World := exec startup (blank inputs).

(** [command.items()] *)
Definition items (command : pyobj) : M (list (string * pyobj)) :=
  match command with
  | PyDict kvs => ret kvs
  | _ => raise AttributeError
  end.

(** Lines 176-202: the body of the loop over the command's entries. *)
Definition on_entry (kv : string * pyobj) : M unit :=
  let key := fst kv in
  fun w =>
    (if dict_mem key (pcapins w) then
       let value := py_str (snd kv) in
       pinobj <- item key "pin" ;;
       v <- get key "value" ;;
       d <- get key "direction" ;;
       s <- get key "state" ;;
       vds <-
         (if str_in (lower value) ["0"; "off"; "false"] then
            info ("Forcing " ++ key ++ " to off") ;;
            pinname <- as_int pinobj ;;
            v <- Pca9557.value pinname (Some 0) ;;
            d <- Pca9557.direction pinname Pca9557.DIR_OUT ;;
            ret (PyInt v, PyInt d, PyStr "off")
          else if str_in (lower value) ["1"; "on"; "true"] then
            info ("Forcing " ++ key ++ " to on") ;;
            pinname <- as_int pinobj ;;
            v <- Pca9557.value pinname (Some 1) ;;
            d <- Pca9557.direction pinname Pca9557.DIR_OUT ;;
            ret (PyInt v, PyInt d, PyStr "on")
          else if str_in (lower value) ["-1"; "release"; "default"] then
            info ("Releasing " ++ key ++ " to default state") ;;
            pinname <- as_int pinobj ;;
            d <- Pca9557.direction pinname Pca9557.DIR_IN ;;
            ret (v, PyInt d, PyStr "default")
          else
            error ("Invalid command received for " ++ key ++ ": " ++ value) ;;
            ret (v, d, s)) ;;
       setitem key "value" (fst (fst vds)) ;;
       setitem key "direction" (snd (fst vds)) ;;
       setitem key "state" (snd vds)
     else
       error ("Invalid name received: " ++ key)) w.

(** Lines 175-202: what runs once [json.loads] has returned [command]. *)
Definition dispatch (command : pyobj) : M unit :=
  kvs <- items command ;;
  for_each kvs on_entry.

(** [mqtt_on_message(_client, _userdata, msg)].  [json.loads] belongs to
    the standard library; [loads] is what the call
    [json.loads(msg.payload)] does on this message: the object it returns
    or the exception it raises. *)
Definition mqtt_on_message (msg : MQTTMessage) (loads : result pyobj) : M unit :=
  text <- lift (bytes_decode (payload msg)) ;;
  info ("MQTT message received on " ++ topic msg ++ ": " ++ text) ;;
  match loads with
  | Raise JSONDecodeError =>
      error ("Command does not contain valid JSON: " ++ repr_bytes (payload msg))
  | Raise e => raise e
  | Ok command => dispatch command
  end.

(** *** Sensors and the polling loop *)

(** A sensor quantity is a finite float; it is modelled by the rational
    number it denotes, and arithmetic on it is exact. *)
Inductive number : Type :=
| NInt (n : Z)
| NFloat (x : Q).

(** Nearest integer, ties to the even one. *)
Definition round_half_even (x : Q) : Z :=
  let f := Qfloor x in
  match Qcompare (x - inject_Z f) (1 # 2) with
  | Lt => f
  | Gt => f + 1
  | Eq => if Z.even f then f else f + 1
  end.

(** [round(x, ndigits)] for [ndigits >= 0] *)
Definition round (x : Q) (ndigits : nat) : Q :=
  let scale := inject_Z (10 ^ Z.of_nat ndigits) in
  (inject_Z (round_half_even (x * scale)) / scale)%Q.

(** [a > b] on floats *)
Definition gt (a b : Q) : bool := negb (Qle_bool a b).

(** What one [ina219.INA219] device answers during one call of
    [read_inas], in the order the calls are made: [voltage()] is called
    at line 142 and, when the test passes, again at line 145. *)
Record INA219 : Type := mkINA {
  voltage_test : Q;
  voltage : Q;
  current : Q;
  power : Q;
  shunt_voltage : Q
}.

(** The body of the loop of [read_inas]: the value of [results[name]]. *)
Definition reading (inaobj : INA219) : dict number :=
  let voltage_ := round (voltage_test inaobj) 2 in
  if gt voltage_ 1 then
    [ ("voltage", NFloat (round (voltage inaobj) 2));
      ("current", NFloat (round (current inaobj) 1));
      ("power", NFloat (round (power inaobj) 0 / 1000)%Q);
      ("shunt_voltage", NFloat (round (shunt_voltage inaobj) 3)) ]
  else
    [ ("voltage", NFloat 0);
      ("current", NInt 0);
      ("power", NInt 0);
      ("shunt_voltage", NFloat 0) ].

Definition read_inas (inas : dict INA219) : dict (dict number) :=
  fold_left (fun results item => dict_set (fst item) (reading (snd item)) results)
            inas [].

(** The settings read from the ini file that the loop uses. *)
Record Config : Type := mkConfig {
  mqtt_topic : string;
  inainterval : Q;
  runtime_dir : string
}.

(** What the environment answers during one iteration of the loop of
    [main]: the two readings of the clock, [mqttc.is_connected()],
    [os.path.isdir(runtime_dir)] and the sensors. *)
Record Tick : Type := mkTick {
  time_test : Q;
  time_taken : Q;
  is_connected : bool;
  isdir : bool;
  inas : dict INA219
}.

(** The object handed to [json.dumps]; the message carries its JSON
    text. *)
Inductive Document : Type :=
| Powerstats (stats : dict (dict number))
| Pinstates (table : dict (dict pyobj)).

Inductive Effect : Type :=
| Publish (topic : string) (body : Document)
| FileWrite (path : string) (body : Document).

Fixpoint ends_with_slash (s : string) : bool :=
  match s with
  | EmptyString => false
  | String c EmptyString => Ascii.eqb c "/"
  | String _ s' => ends_with_slash s'
  end.

(** [os.path.join(a, b)] for a relative [b] *)
Definition path_join (a b : string) : string :=
  match a with
  | EmptyString => b
  | _ => if ends_with_slash a then a ++ b else a ++ "/" ++ b
  end.

(** Lines 336-344: one iteration of the loop of [main], from the value of
    [lastchecktime] to its new value and what was sent out. *)
Definition poll (cfg : Config) (lastchecktime : Q) (env : Tick) (w : World)
  : Q * list Effect :=
  if gt (time_test env) (lastchecktime + inainterval cfg) then
    let powerstats := read_inas (inas env) in
    (time_taken env,
     ((if is_connected env then
         [ Publish (mqtt_topic cfg ++ "powerstats") (Powerstats powerstats);
           Publish (mqtt_topic cfg ++ "pinstates") (Pinstates (pcapins w)) ]
       else [])
      ++ (if isdir env then
            [ FileWrite (path_join (runtime_dir cfg) "powerstats.json")
                        (Powerstats powerstats) ]
          else []))%list)
  else (lastchecktime, []).

(** *** The configuration of the sensors *)

(** Lines 45-76. *)
Definition inaconfig : dict (dict number) :=
  [ ("Raspi", [ ("address", NInt 64); ("shunt", NFloat (1 # 100));
                ("maxamp", NFloat 3); ("maxvolt", NFloat 6) ]);
    ("USB1",  [ ("address", NInt 65); ("shunt", NFloat (1 # 100));
                ("maxamp", NFloat 3); ("maxvolt", NFloat 6) ]);
    ("USB2",  [ ("address", NInt 66); ("shunt", NFloat (1 # 100));
                ("maxamp", NFloat 3); ("maxvolt", NFloat 6) ]);
    ("EXT",   [ ("address", NInt 67); ("shunt", NFloat (1 # 100));
                ("maxamp", NFloat 3); ("maxvolt", NFloat 6) ]);
    ("Input", [ ("address", NInt 68); ("shunt", NFloat (1 # 100));
                ("maxamp", NFloat 5); ("maxvolt", NFloat 17) ]) ].

(** *** Discovery and connection *)

Definition hardware_version : string := "2.1.0".
Definition software_version : string := "0.1.0".

(** The two settings of discovery besides [mqtt_topic]: the name of the
    host and the prefix read from the ini file. *)
Record Host : Type := mkHost {
  hostname : string;
  hass_discovery_prefix : string
}.

(** What a message carries: a text, or the JSON text of an object
    handed to [json.dumps]. *)
Inductive Body : Type :=
| Text (s : string)
| Json (o : pyobj).

(** A call on the MQTT client. *)
Inductive ClientCall : Type :=
| Subscribe (topic : string)
| PublishTo (topic : string) (body : Body) (retain : bool).

Definition deviceconfig (h : Host) : pyobj :=
  PyDict
    [ ("ids", PyList [PyStr ("bratwurst_power_" ++ hostname h)]);
      ("name", PyStr ("Bratwurst Power " ++ hostname h));
      ("mf", PyStr "Qetesh");
      ("mdl", PyStr "Bratwurst Power");
      ("mdl_id", PyStr ("Bratwurst Power" ++ hostname h));
      ("hw", PyStr hardware_version);
      ("sw", PyStr software_version) ].

Definition deviceconfig_short (h : Host) : pyobj :=
  PyDict [ ("ids", PyList [PyStr ("bratwurst_power_" ++ hostname h)]) ].

Definition originconfig (h : Host) : pyobj :=
  PyDict
    [ ("name", PyStr ("Bratwurst Power " ++ hostname h));
      ("url", PyStr "https://qete.sh/gh/BratwurstPower.py") ].

(** Lines 228-240; [first] is the flag of the loop. *)
Definition pinjson (cfg : Config) (h : Host) (first : bool) (pinname : string)
  : pyobj :=
  PyDict
    [ ("name", PyStr pinname);
      ("stat_t", PyStr (mqtt_topic cfg ++ "pinstates"));
      ("cmd_t", PyStr (mqtt_topic cfg ++ "command"));
      ("val_tpl", PyStr ("{{ value_json." ++ pinname ++ ".state }}"));
      ("cmd_tpl",
       PyStr ("{" ++ String dquote
                (pinname ++ String dquote
                   (": " ++ String dquote
                      ("{{ value }}" ++ String dquote " }")))));
      ("uniq_id", PyStr ("bwpow_" ++ hostname h ++ "_" ++ pinname));
      ("ops", PyList [PyStr "on"; PyStr "off"; PyStr "default"]);
      ("ic", PyStr "mdi:electric-switch");
      ("avty_t", PyStr (mqtt_topic cfg ++ "status"));
      ("dev", if first then deviceconfig h else deviceconfig_short h);
      ("o", originconfig h) ].

(** Lines 249-259. *)
Definition voltagejson (cfg : Config) (h : Host) (name : string) : pyobj :=
  PyDict
    [ ("name", PyStr (name ++ " Voltage"));
      ("stat_t", PyStr (mqtt_topic cfg ++ "powerstats"));
      ("val_tpl", PyStr ("{{ value_json." ++ name ++ ".voltage | float}}"));
      ("uniq_id", PyStr ("bwpow_" ++ hostname h ++ "_" ++ name ++ "_voltage"));
      ("dev_cla", PyStr "voltage");
      ("unit_of_meas", PyStr "V");
      ("avty_t", PyStr (mqtt_topic cfg ++ "status"));
      ("dev", deviceconfig_short h);
      ("o", originconfig h) ].

(** Lines 260-270. *)
Definition currentjson (cfg : Config) (h : Host) (name : string) : pyobj :=
  PyDict
    [ ("name", PyStr (name ++ " Current"));
      ("stat_t", PyStr (mqtt_topic cfg ++ "powerstats"));
      ("val_tpl", PyStr ("{{ value_json." ++ name ++ ".current | float}}"));
      ("uniq_id", PyStr ("bwpow_" ++ hostname h ++ "_" ++ name ++ "_current"));
      ("dev_cla", PyStr "current");
      ("unit_of_meas", PyStr "mA");
      ("avty_t", PyStr (mqtt_topic cfg ++ "status"));
      ("dev", deviceconfig_short h);
      ("o", originconfig h) ].

(** Lines 271-281. *)
Definition powerjson (cfg : Config) (h : Host) (name : string) : pyobj :=
  PyDict
    [ ("name", PyStr (name ++ " Power"));
      ("stat_t", PyStr (mqtt_topic cfg ++ "powerstats"));
      ("val_tpl", PyStr ("{{ value_json." ++ name ++ ".power | float}}"));
      ("uniq_id", PyStr ("bwpow_" ++ hostname h ++ "_" ++ name ++ "_power"));
      ("dev_cla", PyStr "power");
      ("unit_of_meas", PyStr "W");
      ("avty_t", PyStr (mqtt_topic cfg ++ "status"));
      ("dev", deviceconfig_short h);
      ("o", originconfig h) ].

(** Lines 282-293. *)
Definition shuntjson (cfg : Config) (h : Host) (name : string) : pyobj :=
  PyDict
    [ ("name", PyStr (name ++ " Shunt Voltage"));
      ("stat_t", PyStr (mqtt_topic cfg ++ "powerstats"));
      ("val_tpl", PyStr ("{{ value_json." ++ name ++ ".shunt_voltage | float}}"));
      ("uniq_id", PyStr ("bwpow_" ++ hostname h ++ "_" ++ name ++ "_shunt_voltage"));
      ("dev_cla", PyStr "voltage");
      ("unit_of_meas", PyStr "mV");
      ("icon", PyStr "mdi:resistor");
      ("avty_t", PyStr (mqtt_topic cfg ++ "status"));
      ("dev", deviceconfig_short h);
      ("o", originconfig h) ].

(** The topic of the configuration of a pin (line 243). *)
Definition select_topic (h : Host) (pinname : string) : string :=
  hass_discovery_prefix h ++ "select/bratwurst_power_" ++ hostname h ++ "/"
  ++ pinname ++ "/config".

(** The topic of a configuration of a sensor (lines 296, 302, 308 and
    314), [suffix] being "_voltage", "_current", "_power" or
    "_shunt_voltage". *)
Definition sensor_topic (h : Host) (name suffix : string) : string :=
  hass_discovery_prefix h ++ "sensor/bratwurst_power_" ++ hostname h ++ "/"
  ++ name ++ suffix ++ "/config".

(** Lines 226-247: the loop over the pins; the result lists the calls
    made on the client, in order. *)
Fixpoint discover_pins (cfg : Config) (h : Host) (first : bool)
         (pins : list string) : M (list ClientCall) :=
  match pins with
  | [] => ret []
  | pinname :: rest =>
      debug ("Sending HASS Discovery for Pin " ++ pinname) ;;
      calls <- discover_pins cfg h false rest ;;
      ret (PublishTo (select_topic h pinname)
                     (Json (pinjson cfg h first pinname)) true :: calls)
  end.

(** Lines 248-317: the loop over the sensors. *)
Fixpoint discover_sensors (cfg : Config) (h : Host) (names : list string)
  : M (list ClientCall) :=
  match names with
  | [] => ret []
  | name :: rest =>
      debug ("Sending HASS Discovery for " ++ name ++ " Voltage") ;;
      debug ("Sending HASS Discovery for " ++ name ++ " Current") ;;
      debug ("Sending HASS Discovery for " ++ name ++ " Power") ;;
      debug ("Sending HASS Discovery for " ++ name ++ " Shunt Voltage") ;;
      calls <- discover_sensors cfg h rest ;;
      ret (PublishTo (sensor_topic h name "_voltage")
                     (Json (voltagejson cfg h name)) true
           :: PublishTo (sensor_topic h name "_current")
                        (Json (currentjson cfg h name)) true
           :: PublishTo (sensor_topic h name "_power")
                        (Json (powerjson cfg h name)) true
           :: PublishTo (sensor_topic h name "_shunt_voltage")
                        (Json (shuntjson cfg h name)) true
           :: calls)
  end.

(** [hass_discovery(client)]; [names] are the keys of [inas]. *)
Definition hass_discovery (cfg : Config) (h : Host) (names : list string)
  : M (list ClientCall) :=
  info "Sending HASS Discovery Messages" ;;
  fun w =>
    (pins <- discover_pins cfg h true (keys (pcapins w)) ;;
     sensors <- discover_sensors cfg h names ;;
     ret (pins ++ sensors)%list) w.

(** [mqtt_on_connect(client, ...)] *)
Definition mqtt_on_connect (cfg : Config) (h : Host) (names : list string)
  : M (list ClientCall) :=
  info "Connected to MQTT" ;;
  calls <- hass_discovery cfg h names ;;
  ret (Subscribe (mqtt_topic cfg ++ "command")
       :: PublishTo (mqtt_topic cfg ++ "status") (Text "online") true
       :: calls).

(** *** The states the process goes through *)

(** The worlds between two calls of the handler, the bus having answered
    every transfer so far: the one the module-level code leaves, and
    those that handling a message leads to, whatever the message and
    whatever [json.loads] does on it. *)
Inductive reachable : World -> Prop :=
| reach_boot (inputs : Z) : reachable (boot inputs)
| reach_message (w : World) (msg : MQTTMessage) (loads : result pyobj) :
    reachable w -> reachable (exec (mqtt_on_message msg loads) w).

End Bratwurst.

(* ================================================================== *)
(** ** The same code on a bus that may not answer *)

(** The methods of the driver that write to the chip, and the handler
    that calls them, with what [bus.write_byte_data] does as a
    parameter [transfer]: [write_byte_data] gives back the definitions
    above, [refused] gives the run in which the device does not
    answer. *)
Module OnBus.

Section Bus.

Variable transfer : Z -> Z -> Z -> M unit.

(** pca9557.py, lines 60-65 *)
Definition write_inv (arg : option Z) : M unit :=
  p <- Pca9557.self ;;
  let v := match arg with Some v => v | None => inv p end in
  Pca9557.debug ("Setting Polarity inversion register to 0b" ++ fmt_08b v) ;;
  transfer (address p) Pca9557.REG_INV v ;;
  Pca9557.set_inv v.

(** lines 67-72 *)
Definition write_direction (arg : option Z) : M unit :=
  p <- Pca9557.self ;;
  let v := match arg with Some v => v | None => conf p end in
  Pca9557.debug ("Setting Configuration Register to 0b" ++ fmt_08b v) ;;
  transfer (address p) Pca9557.REG_DIR v ;;
  Pca9557.set_conf v.

(** lines 74-79 *)
Definition write_output (arg : option Z) : M unit :=
  p <- Pca9557.self ;;
  let v := match arg with Some v => v | None => out p end in
  Pca9557.debug ("Setting Output port Register to 0b" ++ fmt_08b v) ;;
  transfer (address p) Pca9557.REG_OUT v ;;
  Pca9557.set_out v.

(** lines 34-42; the read of the other branch is answered. *)
Definition value (pin : Z) (arg : option Z) : M Z :=
  match arg with
  | Some v =>
      Pca9557.debug ("Setting Pin " ++ str_int pin ++ " to "
                     ++ (if truthy v then "high" else "low")) ;;
      p <- Pca9557.self ;;
      o <- lift (Pca9557.write_bit (out p) pin v) ;;
      Pca9557.set_out o ;;
      write_output None ;;
      ret v
  | None =>
      Pca9557.debug ("Reading value from Pin " ++ str_int pin) ;;
      Pca9557.read_pin pin
  end.

(** lines 44-48 *)
Definition direction (pin direction : Z) : M Z :=
  Pca9557.debug ("Setting Pin " ++ str_int pin ++ " to "
                 ++ (if truthy direction then "input" else "output")) ;;
  p <- Pca9557.self ;;
  c <- lift (Pca9557.write_bit (conf p) pin direction) ;;
  Pca9557.set_conf c ;;
  write_direction None ;;
  ret direction.

(** lines 50-54 *)
Definition invert (pin inverted : Z) : M Z :=
  Pca9557.debug ("Setting Pin " ++ str_int pin ++ " to "
                 ++ (if truthy inverted then "inverted" else "non-inverted")) ;;
  p <- Pca9557.self ;;
  i <- lift (Pca9557.write_bit (inv p) pin inverted) ;;
  Pca9557.set_inv i ;;
  write_inv None ;;
  ret inverted.

(** bratwurst.py, lines 176-202 *)
Definition on_entry (kv : string * pyobj) : M unit :=
  let key := fst kv in
  fun w =>
    (if dict_mem key (pcapins w) then
       let value_ := py_str (snd kv) in
       pinobj <- Bratwurst.item key "pin" ;;
       v <- Bratwurst.get key "value" ;;
       d <- Bratwurst.get key "direction" ;;
       s <- Bratwurst.get key "state" ;;
       vds <-
         (if str_in (lower value_) ["0"; "off"; "false"] then
            Bratwurst.info ("Forcing " ++ key ++ " to off") ;;
            pinname <- Bratwurst.as_int pinobj ;;
            v <- value pinname (Some 0) ;;
            d <- direction pinname Pca9557.DIR_OUT ;;
            ret (PyInt v, PyInt d, PyStr "off")
          else if str_in (lower value_) ["1"; "on"; "true"] then
            Bratwurst.info ("Forcing " ++ key ++ " to on") ;;
            pinname <- Bratwurst.as_int pinobj ;;
            v <- value pinname (Some 1) ;;
            d <- direction pinname Pca9557.DIR_OUT ;;
            ret (PyInt v, PyInt d, PyStr "on")
          else if str_in (lower value_) ["-1"; "release"; "default"] then
            Bratwurst.info ("Releasing " ++ key ++ " to default state") ;;
            pinname <- Bratwurst.as_int pinobj ;;
            d <- direction pinname Pca9557.DIR_IN ;;
            ret (v, PyInt d, PyStr "default")
          else
            Bratwurst.error ("Invalid command received for " ++ key ++ ": " ++ value_) ;;
            ret (v, d, s)) ;;
       Bratwurst.setitem key "value" (fst (fst vds)) ;;
       Bratwurst.setitem key "direction" (snd (fst vds)) ;;
       Bratwurst.setitem key "state" (snd vds)
     else
       Bratwurst.error ("Invalid name received: " ++ key)) w.

(** lines 175-202 *)
Definition dispatch (command : pyobj) : M unit :=
  kvs <- Bratwurst.items command ;;
  for_each kvs on_entry.

(** lines 167-202 *)
Definition mqtt_on_message (msg : Bratwurst.MQTTMessage) (loads : result pyobj)
  : M unit :=
  text <- lift (bytes_decode (Bratwurst.payload msg)) ;;
  Bratwurst.info ("MQTT message received on " ++ Bratwurst.topic msg ++ ": " ++ text) ;;
  match loads with
  | Raise JSONDecodeError =>
      Bratwurst.error ("Command does not contain valid JSON: "
                       ++ repr_bytes (Bratwurst.payload msg))
  | Raise e => raise e
  | Ok command => dispatch command
  end.

End Bus.

End OnBus.

Import Pca9557 Bratwurst.

(* ================================================================== *)
(** ** Vocabulary of the properties *)

(** The three sets of words of the handler, as its tests list them. *)
Definition off_words : list string := ["0"; "off"; "false"].
Definition on_words : list string := ["1"; "on"; "true"].
Definition default_words : list string := ["-1"; "release"; "default"].

(** An entry of the table once the defaults have been set. *)
Definition entry (pin : Z) (v d s : pyobj) : dict pyobj :=
  [("pin", PyInt pin); ("value", v); ("direction", d); ("state", s)].

Definition level_eqb (a b : Level) : bool :=
  match a, b with
  | DEBUG, DEBUG | INFO, INFO | ERROR, ERROR => true
  | _, _ => false
  end.

Definition log_eqb (a b : LogRecord) : bool :=
  String.eqb (log_name a) (log_name b)
  && level_eqb (log_level a) (log_level b)
  && String.eqb (log_msg a) (log_msg b).

(** How many times a record was logged. *)
Definition occurrences (r : LogRecord) (l : list LogRecord) : nat :=
  List.length (filter (log_eqb r) l).

(** The two reports of the handler about a command it does not apply. *)
Definition unknown_name (key : string) : LogRecord :=
  mkLog "root" ERROR ("Invalid name received: " ++ key).
Definition invalid_value (key value : string) : LogRecord :=
  mkLog "root" ERROR ("Invalid command received for " ++ key ++ ": " ++ value).

(** What applying a forcing entry for the pin [pin] of [name] leaves in
    [w'], the state before the command being [w]: the entry of the
    table, the two bits of the shadows, and among the bytes sent since
    [w] the output register followed by the direction register, each
    with the bit of the pin as ordered. *)
Definition driven (w w' : World) (name : string) (pin level : Z) (word : string)
  : Prop :=
  dict_get name (pcapins w') =
    Some (entry pin (PyInt level) (PyInt DIR_OUT) (PyStr word))
  /\ (exists p', pca w' = Some p'
        /\ Z.testbit (conf p') pin = false
        /\ Z.testbit (out p') pin = truthy level)
  /\ exists pre o c post,
       written (i2c w') =
         (written (i2c w) ++ pre
          ++ [ mkTransfer PCA9557_ADDRESS REG_OUT o;
               mkTransfer PCA9557_ADDRESS REG_DIR c ] ++ post)%list
       /\ Z.testbit o pin = truthy level /\ Z.testbit c pin = false.

(** The same for a releasing entry; [v] is the value the pin had. *)
Definition released (w w' : World) (name : string) (pin : Z) (v : pyobj) : Prop :=
  dict_get name (pcapins w') =
    Some (entry pin v (PyInt DIR_IN) (PyStr "default"))
  /\ (exists p', pca w' = Some p' /\ Z.testbit (conf p') pin = true)
  /\ exists pre c post,
       written (i2c w') =
         (written (i2c w) ++ pre
          ++ [ mkTransfer PCA9557_ADDRESS REG_DIR c ] ++ post)%list
       /\ Z.testbit c pin = true.

(** The entry [(name, value)] of a command has been applied in [w'] to
    the pin whose entry in [w], before the command, was
    [entry pin v d s]. *)
Definition command_applied (w w' : World) (name : string) (value : pyobj)
           (pin : Z) (v d s : pyobj) : Prop :=
  let word := lower (py_str value) in
  if str_in word off_words then driven w w' name pin 0 "off"
  else if str_in word on_words then driven w w' name pin 1 "on"
  else if str_in word default_words then released w w' name pin v
  else dict_get name (pcapins w') = Some (entry pin v d s).

(** The relation between mode, direction and level of one entry, as the
    data model words it. *)
Definition mode_matches_claimed (e : dict pyobj) : Prop :=
  (dict_get "state" e = Some (PyStr "default") ->
     dict_get "direction" e = Some (PyInt DIR_IN))
  /\ (dict_get "state" e = Some (PyStr "on") ->
        dict_get "direction" e = Some (PyInt DIR_OUT)
        /\ dict_get "value" e = Some (PyInt 1))
  /\ (dict_get "state" e = Some (PyStr "off") ->
        dict_get "direction" e = Some (PyInt DIR_OUT)
        /\ dict_get "value" e = Some (PyInt 0)).

(** The same relation with the direction that a pin has before any
    command: none. *)
Definition mode_matches (e : dict pyobj) : Prop :=
  (dict_get "state" e = Some (PyStr "default") ->
     dict_get "direction" e = Some (PyInt DIR_IN)
     \/ dict_get "direction" e = Some PyNone)
  /\ (dict_get "state" e = Some (PyStr "on") ->
        dict_get "direction" e = Some (PyInt DIR_OUT)
        /\ dict_get "value" e = Some (PyInt 1))
  /\ (dict_get "state" e = Some (PyStr "off") ->
        dict_get "direction" e = Some (PyInt DIR_OUT)
        /\ dict_get "value" e = Some (PyInt 0)).

(** The shape that the module-level code gives the process and that the
    handler keeps: the eight names, four fields per entry with a pin
    index of 0..7 and a mode that matches, and a driver whose shadows are
    bytes. *)
Definition entry_ok (e : dict pyobj) : Prop :=
  exists pin v d s, e = entry pin v d s /\ 0 <= pin < 8 /\ mode_matches e.

Definition well_formed (w : World) : Prop :=
  keys (pcapins w) = keys pcapins_literal
  /\ Forall (fun kv => entry_ok (snd kv)) (pcapins w)
  /\ exists p, pca w = Some p
       /\ 0 <= conf p < 256 /\ 0 <= out p < 256 /\ 0 <= inv p < 256.

(** The world with [l] logged before everything it has logged. *)
Definition relog (l : list LogRecord) (w : World) : World :=
  mkWorld (pcapins w) (pca w) (i2c w) (l ++ logging w)%list.

(** A statement that only ever appends to the log: what was logged
    before it changes neither what it returns nor what it does. *)
Definition log_blind {A} (m : M A) : Prop :=
  forall (w : World) (l : list LogRecord),
    m (relog l w) = (fst (m w), relog l (snd (m w))).

(** An object whose fields are exactly [fields]. *)
Definition has_exactly_fields (fields : list string) (e : dict pyobj) : Prop :=
  NoDup (keys e) /\ forall f, In f (keys e) <-> In f fields.

(** A document for the pinstates topic: one object per configured pin,
    each with exactly the fields [fields]. *)
Definition pinstates_document (fields : list string) (doc : Document) : Prop :=
  exists table, doc = Pinstates table
    /\ keys table = keys pcapins_literal
    /\ Forall (fun kv => has_exactly_fields fields (snd kv)) table.

(** The reading of a device that is taken to be absent. *)
Definition zero_reading : dict number :=
  [ ("voltage", NFloat 0); ("current", NInt 0);
    ("power", NInt 0); ("shunt_voltage", NFloat 0) ].

(** *** The chip behind the bus *)

(** The value of the last call in [trace] that wrote the register [reg]
    of the device at [a], as the caller passed it, if there was one. *)
Definition last_written (a reg : Z) (trace : list Transfer) : option Z :=
  fold_left
    (fun held t =>
       if (tr_address t =? a) && (tr_register t =? reg)
       then Some (tr_value t) else held)
    trace None.

(** One call of a method of the driver, with its arguments. *)
Inductive Call : Type :=
| CallValue (pin : Z) (arg : option Z)
| CallDirection (pin direction : Z)
| CallInvert (pin inverted : Z)
| CallReadPin (pin : Z)
| CallWriteInv (arg : option Z)
| CallWriteDirection (arg : option Z)
| CallWriteOutput (arg : option Z)
| CallRead.

Definition call (c : Call) : M unit :=
  match c with
  | CallValue pin arg => _ <- Pca9557.value pin arg ;; ret tt
  | CallDirection pin d => _ <- Pca9557.direction pin d ;; ret tt
  | CallInvert pin i => _ <- Pca9557.invert pin i ;; ret tt
  | CallReadPin pin => _ <- Pca9557.read_pin pin ;; ret tt
  | CallWriteInv arg => Pca9557.write_inv arg
  | CallWriteDirection arg => Pca9557.write_direction arg
  | CallWriteOutput arg => Pca9557.write_output arg
  | CallRead => _ <- Pca9557.read ;; ret tt
  end.

(** What the register holds then, every transfer of [trace] having been
    answered: a register is eight bits wide and the bus sends one
    byte, the low eight bits of the value passed. *)
Definition chip_register (a reg : Z) (trace : list Transfer) : option Z :=
  option_map (fun v => v mod 256) (last_written a reg trace).

(** Each shadow of the driver is the value last passed to the bus for
    its register. *)
Definition tracks (a : Z) (w : World) : Prop :=
  exists p, pca w = Some p /\ address p = a
    /\ last_written a REG_DIR (written (i2c w)) = Some (conf p)
    /\ last_written a REG_INV (written (i2c w)) = Some (inv p)
    /\ match last_written a REG_OUT (written (i2c w)) with
       | Some v => v = out p
       | None => out p = 0
       end.

(** The low eight bits of each shadow are what the chip at [a] holds;
    the output register of a chip that was never written holds 0, its
    value after reset. *)
Definition mirrors (a : Z) (w : World) : Prop :=
  exists p, pca w = Some p /\ address p = a
    /\ chip_register a REG_DIR (written (i2c w)) = Some (conf p mod 256)
    /\ chip_register a REG_INV (written (i2c w)) = Some (inv p mod 256)
    /\ match chip_register a REG_OUT (written (i2c w)) with
       | Some v => v = out p mod 256
       | None => out p = 0
       end.

(** Each shadow is the very byte the chip at [a] holds. *)
Definition mirrors_exactly (a : Z) (w : World) : Prop :=
  exists p, pca w = Some p /\ address p = a
    /\ chip_register a REG_DIR (written (i2c w)) = Some (conf p)
    /\ chip_register a REG_INV (written (i2c w)) = Some (inv p)
    /\ match chip_register a REG_OUT (written (i2c w)) with
       | Some v => v = out p
       | None => out p = 0
       end.

(** The shadows are bytes. *)
Definition byte_shadows (w : World) : Prop :=
  exists p, pca w = Some p
    /\ 0 <= conf p < 256 /\ 0 <= out p < 256 /\ 0 <= inv p < 256.

(** A call within the range of the chip: a pin of 0..7 where a bit is
    written, a byte where a register is written whole. *)
Definition proper_call (c : Call) : Prop :=
  match c with
  | CallValue pin (Some _) => 0 <= pin < 8
  | CallDirection pin _ => 0 <= pin < 8
  | CallInvert pin _ => 0 <= pin < 8
  | CallWriteInv (Some v) => 0 <= v < 256
  | CallWriteDirection (Some v) => 0 <= v < 256
  | CallWriteOutput (Some v) => 0 <= v < 256
  | _ => True
  end.

(** *** The table and the shadows *)

(** The names of the table with the pin index of each. *)
Definition configured_pins (t : dict (dict pyobj)) : dict (option pyobj) :=
  map (fun kv => (fst kv, dict_get "pin" (snd kv))) t.

(** The bit of the direction register that a direction field stands
    for: a pin without direction is an input, as after reset. *)
Definition direction_bit (d : pyobj) : option bool :=
  match d with
  | PyNone => Some true
  | PyInt n => Some (truthy n)
  | _ => None
  end.

(** The bit of the output register that a value field stands for: a pin
    without value has a low output, as after reset. *)
Definition level_bit (v : pyobj) : option bool :=
  match v with
  | PyNone => Some false
  | PyInt n => Some (truthy n)
  | _ => None
  end.

(** An entry that says what the shadows [p] hold for its pin, with one
    of the three modes. *)
Definition entry_in_step (p : PCA9557) (e : dict pyobj) : Prop :=
  exists pin v d s, e = entry pin v d s
    /\ In s [PyStr "on"; PyStr "off"; PyStr "default"]
    /\ direction_bit d = Some (Z.testbit (conf p) pin)
    /\ level_bit v = Some (Z.testbit (out p) pin).

(** The table and the driver, in step. *)
Definition in_step (w : World) : Prop :=
  configured_pins (pcapins w) = configured_pins pcapins_literal
  /\ exists p, pca w = Some p
       /\ address p = PCA9557_ADDRESS /\ inv p = 0
       /\ forall name e, dict_get name (pcapins w) = Some e -> entry_in_step p e.

(** A byte sent by the handler: to the expander, to its output or its
    direction register. *)
Definition handler_transfer (t : Transfer) : Prop :=
  tr_address t = PCA9557_ADDRESS
  /\ (tr_register t = REG_OUT \/ tr_register t = REG_DIR)
  /\ 0 <= tr_value t < 256.

(** *** Reading the calls on the client *)

(** The field [f] of the object that a call publishes. *)
Definition call_field (f : string) (c : ClientCall) : option pyobj :=
  match c with
  | PublishTo _ (Json (PyDict kvs)) _ => dict_get f kvs
  | _ => None
  end.

Definition call_topic (c : ClientCall) : string :=
  match c with
  | Subscribe t => t
  | PublishTo t _ _ => t
  end.

(** A call that is not a publication without the retain flag. *)
Definition retained (c : ClientCall) : Prop :=
  match c with
  | Subscribe _ => True
  | PublishTo _ _ r => r = true
  end.

(** The publication of the configuration of a pin, and the four of a
    sensor, as the loops of discovery make them. *)
Definition pin_call (cfg : Config) (h : Host) (first : bool) (pinname : string)
  : ClientCall :=
  PublishTo (select_topic h pinname) (Json (pinjson cfg h first pinname)) true.

Definition sensor_calls (cfg : Config) (h : Host) (name : string)
  : list ClientCall :=
  [ PublishTo (sensor_topic h name "_voltage") (Json (voltagejson cfg h name)) true;
    PublishTo (sensor_topic h name "_current") (Json (currentjson cfg h name)) true;
    PublishTo (sensor_topic h name "_power") (Json (powerjson cfg h name)) true;
    PublishTo (sensor_topic h name "_shunt_voltage")
              (Json (shuntjson cfg h name)) true ].

(** The calls of discovery for the pins [pins] and the sensors
    [names]. *)
Definition discovery_calls (cfg : Config) (h : Host) (pins names : list string)
  : list ClientCall :=
  (match pins with
   | [] => []
   | p :: rest => pin_call cfg h true p :: map (pin_call cfg h false) rest
   end ++ flat_map (sensor_calls cfg h) names)%list.

(* ================================================================== *)
(** * Properties *)

(** ** The text helpers on concrete inputs *)

Example fmt_08b_values :
  fmt_08b 255 = "11111111" /\ fmt_08b 5 = "00000101" /\ fmt_08b 300 = "100101100".
Proof. repeat split. Qed.

Example fmt_02X_values : fmt_02X 31 = "1F" /\ fmt_02X 0 = "00".
Proof. repeat split. Qed.

Example py_str_values :
  py_str (PyBool true) = "True" /\ py_str (PyInt (-1)) = "-1"
  /\ py_str PyNone = "None" /\ py_str (PyStr "On") = "On"
  /\ py_str (PyList [PyInt 1; PyStr "a"]) = "[1, 'a']".
Proof. repeat split. Qed.

Example lower_values : lower "TRUE" = "true" /\ lower "Release" = "release".
Proof. repeat split. Qed.

Example bytes_decode_values :
  bytes_decode [x6f; x6e] = Ok "on"
  /\ bytes_decode [xc3; xa9] = Ok (String (ascii_of_N 195) (String (ascii_of_N 169) ""))
  /\ bytes_decode [xc0; x80] = Raise UnicodeDecodeError
  /\ bytes_decode [xed; xa0; x80] = Raise UnicodeDecodeError.
Proof. repeat split. Qed.

(** After startup and the command that switches IO1 on: the shadows, and
    the bytes that went to the chip. *)
Example io1_on_after_startup :
  let w := exec (dispatch (PyDict [("IO1", PyStr "on")])) (boot 0) in
  pca w = Some (mkPCA "pca9557(0x1F)" 31 253 2 0)
  /\ written (i2c w) =
     [ mkTransfer 31 REG_INV 0; mkTransfer 31 REG_DIR 255;
       mkTransfer 31 REG_OUT 2; mkTransfer 31 REG_DIR 253 ].
Proof. split; reflexivity. Qed.

(** ** Bits of a byte *)

Lemma high_bits_of_byte (b j : Z) :
  0 <= b < 256 -> 8 <= j -> Z.testbit b j = false.
Proof.
  intros Hb Hj.
  rewrite <- (Z.mod_small b (2 ^ 8)) by (change (2 ^ 8) with 256; lia).
  apply Z.mod_pow2_bits_high; lia.
Qed.

Lemma byte_of_high_bits (r : Z) :
  0 <= r -> (forall j, 8 <= j -> Z.testbit r j = false) -> 0 <= r < 256.
Proof.
  intros Hr Hhigh.
  assert (E : r mod 2 ^ 8 = r).
  { apply Z.bits_inj'; intros j Hj.
    destruct (Z_lt_le_dec j 8) as [Hlt | Hge].
    - apply Z.mod_pow2_bits_low; lia.
    - rewrite Z.mod_pow2_bits_high by lia. symmetry; apply Hhigh; lia. }
  rewrite <- E. change 256 with (2 ^ 8). apply Z.mod_pos_bound. reflexivity.
Qed.

Lemma testbit_one_shifted (k j : Z) :
  0 <= k -> 0 <= j -> Z.testbit (Z.shiftl 1 k) j = (j =? k).
Proof.
  intros Hk Hj.
  rewrite Z.shiftl_1_l, Z.pow2_bits_eqb by assumption.
  apply Z.eqb_sym.
Qed.

(** What [write_bit] returns on a bit index that is not negative. *)
Lemma write_bit_ok (b k v : Z) :
  0 <= k ->
  write_bit b k v =
  Ok (if truthy v then Z.lor b (Z.shiftl 1 k)
      else Z.land b (Z.lnot (Z.shiftl 1 k))).
Proof.
  intros Hk. unfold write_bit.
  destruct (Z.ltb_spec k 0); [lia |]. destruct (truthy v); reflexivity.
Qed.

Lemma write_bit_testbit (b k v r j : Z) :
  0 <= k -> 0 <= j -> write_bit b k v = Ok r ->
  Z.testbit r j = if j =? k then truthy v else Z.testbit b j.
Proof.
  intros Hk Hj E. rewrite write_bit_ok in E by assumption.
  injection E as <-.
  destruct (truthy v).
  - rewrite Z.lor_spec, testbit_one_shifted by assumption.
    destruct (j =? k); [apply orb_true_r | apply orb_false_r].
  - rewrite Z.land_spec, Z.lnot_spec, testbit_one_shifted by assumption.
    destruct (j =? k); [apply andb_false_r | apply andb_true_r].
Qed.

Lemma write_bit_byte (b k v r : Z) :
  0 <= b < 256 -> 0 <= k < 8 -> write_bit b k v = Ok r -> 0 <= r < 256.
Proof.
  intros Hb Hk E.
  apply byte_of_high_bits.
  - rewrite write_bit_ok in E by lia. injection E as <-.
    destruct (truthy v).
    + apply Z.lor_nonneg. split; [lia | apply Z.shiftl_nonneg; lia].
    + apply Z.land_nonneg. left; lia.
  - intros j Hj.
    rewrite (write_bit_testbit b k v r j) by (assumption || lia).
    destruct (Z.eqb_spec j k); [lia |].
    apply high_bits_of_byte; assumption.
Qed.

(** C1: on a byte [b] and a bit index [k] of 0..7, [write_bit] returns a
    byte whose bit [k] is the truth value of [v] and whose other bits are
    those of [b]; setting then clearing bit [k] gives [b & ~(1 << k)]. *)
Theorem write_bit_one_bit (b k v : Z) :
  0 <= b < 256 -> 0 <= k < 8 ->
  exists r, write_bit b k v = Ok r
    /\ 0 <= r < 256
    /\ Z.testbit r k = truthy v
    /\ (forall j, j <> k -> Z.testbit r j = Z.testbit b j)
    /\ (exists s, write_bit b k 1 = Ok s
          /\ write_bit s k 0 = Ok (Z.land b (Z.lnot (Z.shiftl 1 k)))).
Proof.
  intros Hb Hk.
  destruct (write_bit b k v) as [r | e] eqn:E;
    [| rewrite write_bit_ok in E by lia; discriminate].
  exists r. split; [reflexivity |].
  split; [eapply write_bit_byte; eassumption |].
  split.
  - rewrite (write_bit_testbit b k v r k) by (assumption || lia).
    rewrite Z.eqb_refl. reflexivity.
  - split.
    + intros j Hne. destruct (Z_lt_le_dec j 0).
      * rewrite !Z.testbit_neg_r by assumption. reflexivity.
      * rewrite (write_bit_testbit b k v r j) by (assumption || lia).
        destruct (Z.eqb_spec j k); [contradiction | reflexivity].
    + exists (Z.lor b (Z.shiftl 1 k)).
      split; [rewrite write_bit_ok by lia; reflexivity |].
      rewrite write_bit_ok by lia. cbn [truthy Z.eqb negb]. f_equal.
      apply Z.bits_inj'; intros j Hj.
      rewrite !Z.land_spec, Z.lor_spec, Z.lnot_spec, testbit_one_shifted by lia.
      destruct (j =? k), (Z.testbit b j); reflexivity.
Qed.

Lemma write_bit_one_bit_witness :
  exists r, write_bit 165 2 1 = Ok r
    /\ 0 <= r < 256
    /\ Z.testbit r 2 = truthy 1
    /\ (forall j, j <> 2 -> Z.testbit r j = Z.testbit 165 j)
    /\ (exists s, write_bit 165 2 1 = Ok s
          /\ write_bit s 2 0 = Ok (Z.land 165 (Z.lnot (Z.shiftl 1 2)))).
Proof. apply (write_bit_one_bit 165 2 1); lia. Defined.

(** ** The driver's statements, as equations on worlds *)

Lemma value_sets_output (w : World) (p : PCA9557) (pin v o : Z) :
  pca w = Some p ->
  write_bit (out p) pin v = Ok o ->
  Pca9557.value pin (Some v) w =
  (Ok v,
   mkWorld (pcapins w)
     (Some (mkPCA (logger p) (address p) (conf p) o (inv p)))
     (mkBus (written (i2c w) ++ [mkTransfer (address p) REG_OUT o])%list
            (input_port (i2c w)))
     (logging w ++
        [ mkLog (logger p) DEBUG
            ("Setting Pin " ++ str_int pin ++ " to "
             ++ (if truthy v then "high" else "low"));
          mkLog (logger p) DEBUG
            ("Setting Output port Register to 0b" ++ fmt_08b o) ])%list).
Proof.
  intros Hp Ho. destruct w as [tbl q bus log]. cbn in Hp. subst q.
  unfold Pca9557.value, Pca9557.debug, Pca9557.self, Pca9557.set_out,
    Pca9557.write_output, Pca9557.assign, emit, write_byte_data, lift, bind, ret.
  cbn. rewrite Ho. cbn. rewrite <- app_assoc. reflexivity.
Qed.

Lemma direction_sets_conf (w : World) (p : PCA9557) (pin d c : Z) :
  pca w = Some p ->
  write_bit (conf p) pin d = Ok c ->
  Pca9557.direction pin d w =
  (Ok d,
   mkWorld (pcapins w)
     (Some (mkPCA (logger p) (address p) c (out p) (inv p)))
     (mkBus (written (i2c w) ++ [mkTransfer (address p) REG_DIR c])%list
            (input_port (i2c w)))
     (logging w ++
        [ mkLog (logger p) DEBUG
            ("Setting Pin " ++ str_int pin ++ " to "
             ++ (if truthy d then "input" else "output"));
          mkLog (logger p) DEBUG
            ("Setting Configuration Register to 0b" ++ fmt_08b c) ])%list).
Proof.
  intros Hp Hc. destruct w as [tbl q bus log]. cbn in Hp. subst q.
  unfold Pca9557.direction, Pca9557.debug, Pca9557.self, Pca9557.set_conf,
    Pca9557.write_direction, Pca9557.assign, emit, write_byte_data, lift, bind, ret.
  cbn. rewrite Hc. cbn. rewrite <- app_assoc. reflexivity.
Qed.

(** C9: whatever the process was before, constructing the driver returns
    normally and leaves the direction shadow at 0xFF, the polarity shadow
    at 0x00 and the output shadow at 0, having written exactly the byte
    0x00 to the polarity register and then 0xFF to the direction
    register of the chip. *)
Theorem init_all_inputs (w : World) (a : Z) :
  eval (Pca9557.init a) w = Ok tt
  /\ (exists p, pca (exec (Pca9557.init a) w) = Some p
        /\ address p = a /\ conf p = 255 /\ inv p = 0 /\ out p = 0)
  /\ written (i2c (exec (Pca9557.init a) w)) =
     (written (i2c w) ++ [mkTransfer a REG_INV 0; mkTransfer a REG_DIR 255])%list
  /\ pcapins (exec (Pca9557.init a) w) = pcapins w.
Proof.
  destruct w as [tbl q bus log].
  unfold exec, eval, Pca9557.init, Pca9557.write_inv, Pca9557.write_direction,
    Pca9557.debug, Pca9557.self, Pca9557.set_inv, Pca9557.set_conf,
    Pca9557.assign, emit, write_byte_data, bind, ret.
  cbn. split; [reflexivity |]. split.
  - eexists. split; [reflexivity |]. cbn. repeat split.
  - split; [| reflexivity]. rewrite <- app_assoc. reflexivity.
Qed.

(** ** Dictionaries *)

Lemma dict_get_set_same {V} (k : string) (v : V) (d : dict V) :
  dict_get k (dict_set k v d) = Some v.
Proof.
  induction d as [| [k' v'] d IH]; cbn.
  - rewrite String.eqb_refl. reflexivity.
  - destruct (String.eqb k k') eqn:E; cbn; rewrite E; [reflexivity | exact IH].
Qed.

Lemma dict_get_set_other {V} (k k' : string) (v : V) (d : dict V) :
  k' <> k -> dict_get k' (dict_set k v d) = dict_get k' d.
Proof.
  intros Hne. induction d as [| [k0 v0] d IH]; cbn.
  - destruct (String.eqb_spec k' k); [contradiction | reflexivity].
  - destruct (String.eqb_spec k k0) as [-> | Hk]; cbn.
    + destruct (String.eqb_spec k' k0); [contradiction | reflexivity].
    + rewrite IH. reflexivity.
Qed.

Lemma dict_set_set {V} (k : string) (v1 v2 : V) (d : dict V) :
  dict_set k v2 (dict_set k v1 d) = dict_set k v2 d.
Proof.
  induction d as [| [k' v'] d IH]; cbn.
  - rewrite String.eqb_refl. reflexivity.
  - destruct (String.eqb k k') eqn:E; cbn; rewrite E; [reflexivity |].
    rewrite IH. reflexivity.
Qed.

Lemma dict_set_same_value {V} (k : string) (v : V) (d : dict V) :
  dict_get k d = Some v -> dict_set k v d = d.
Proof.
  induction d as [| [k' v'] d IH]; cbn; [discriminate |].
  destruct (String.eqb k k') eqn:E.
  - intros [= ->]. reflexivity.
  - intros H. rewrite IH by assumption. reflexivity.
Qed.

Lemma dict_mem_get {V} (k : string) (d : dict V) :
  dict_mem k d = true <-> exists v, dict_get k d = Some v.
Proof.
  unfold dict_mem, keys. induction d as [| [k' v'] d IH]; cbn.
  - split; [discriminate | intros [v H]; discriminate].
  - destruct (String.eqb k k'); cbn.
    + split; [eauto | reflexivity].
    + exact IH.
Qed.

Lemma dict_mem_false_get {V} (k : string) (d : dict V) :
  dict_mem k d = false <-> dict_get k d = None.
Proof.
  destruct (dict_mem k d) eqn:E.
  - apply dict_mem_get in E as [v E]. rewrite E. split; discriminate.
  - split; [intros _ | reflexivity].
    destruct (dict_get k d) eqn:G; [| reflexivity].
    assert (dict_mem k d = true) by (apply dict_mem_get; eauto). congruence.
Qed.

Lemma keys_dict_set {V} (k : string) (v : V) (d : dict V) :
  dict_mem k d = true -> keys (dict_set k v d) = keys d.
Proof.
  unfold dict_mem, keys. induction d as [| [k' v'] d IH]; cbn; [discriminate |].
  destruct (String.eqb k k'); cbn; [reflexivity |].
  intros H. rewrite IH by assumption. reflexivity.
Qed.

Lemma dict_mem_keys {V W} (k : string) (d : dict V) (d' : dict W) :
  keys d = keys d' -> dict_mem k d = dict_mem k d'.
Proof. unfold dict_mem. intros ->. reflexivity. Qed.

Lemma Forall_dict_set {V} (P : V -> Prop) (k : string) (v : V) (d : dict V) :
  Forall (fun kv => P (snd kv)) d -> P v ->
  Forall (fun kv => P (snd kv)) (dict_set k v d).
Proof.
  intros Hd Hv. induction Hd as [| [k' v'] d Hx Hd IH]; cbn.
  - constructor; [exact Hv | constructor].
  - destruct (String.eqb k k'); constructor; assumption.
Qed.

Lemma Forall_dict_get {V} (P : V -> Prop) (k : string) (v : V) (d : dict V) :
  Forall (fun kv => P (snd kv)) d -> dict_get k d = Some v -> P v.
Proof.
  intros Hd. induction Hd as [| [k' v'] d Hx Hd IH]; cbn; [discriminate |].
  destruct (String.eqb k k'); [intros [= <-]; exact Hx | exact IH].
Qed.

(** ** The handler's statements, as equations on worlds *)

Lemma bind_ok {A B} (m : M A) (k : A -> M B) (w w' : World) (a : A) :
  m w = (Ok a, w') -> bind m k w = k a w'.
Proof. intros E. unfold bind. rewrite E. reflexivity. Qed.

Lemma bind_raise {A B} (m : M A) (k : A -> M B) (w w' : World) (e : exception) :
  m w = (Raise e, w') -> bind m k w = (Raise e, w').
Proof. intros E. unfold bind. rewrite E. reflexivity. Qed.

Lemma item_entry (w : World) (key field : string) (e : dict pyobj) (x : pyobj) :
  dict_get key (pcapins w) = Some e -> dict_get field e = Some x ->
  item key field w = (Ok x, w).
Proof. intros H1 H2. unfold item. rewrite H1, H2. reflexivity. Qed.

Lemma get_entry (w : World) (key field : string) (e : dict pyobj) (x : pyobj) :
  dict_get key (pcapins w) = Some e -> dict_get field e = Some x ->
  get key field w = (Ok x, w).
Proof. intros H1 H2. unfold get. rewrite H1, H2. reflexivity. Qed.

Lemma setitem_entry (w : World) (key field : string) (e : dict pyobj) (x : pyobj) :
  dict_get key (pcapins w) = Some e ->
  setitem key field x w =
  (Ok tt, mkWorld (dict_set key (dict_set field x e) (pcapins w))
                  (pca w) (i2c w) (logging w)).
Proof. intros H. unfold setitem. rewrite H. reflexivity. Qed.

Lemma emit_eq (name : string) (lvl : Level) (msg : string) (w : World) :
  emit name lvl msg w =
  (Ok tt, mkWorld (pcapins w) (pca w) (i2c w)
                  (logging w ++ [mkLog name lvl msg])%list).
Proof. reflexivity. Qed.

Lemma str_in_In (s : string) (l : list string) :
  str_in s l = true <-> In s l.
Proof.
  unfold str_in. rewrite existsb_exists. split.
  - intros [x [Hin E]]. apply String.eqb_eq in E. subst. assumption.
  - intros H. exists s. split; [assumption | apply String.eqb_refl].
Qed.

(** The three sets of words share no word, so the order of the tests of
    the handler does not matter. *)
Lemma on_not_off (s : string) :
  str_in s on_words = true -> str_in s off_words = false.
Proof.
  intros H. apply str_in_In in H. cbn in H.
  destruct H as [<- | [<- | [<- | []]]]; reflexivity.
Qed.

Lemma default_not_forced (s : string) :
  str_in s default_words = true ->
  str_in s off_words = false /\ str_in s on_words = false.
Proof.
  intros H. apply str_in_In in H. cbn in H.
  destruct H as [<- | [<- | [<- | []]]]; split; reflexivity.
Qed.

Ltac read_fields Hget :=
  erewrite bind_ok by (eapply item_entry; [exact Hget | reflexivity]);
  do 3 (erewrite bind_ok by (eapply get_entry; [exact Hget | reflexivity])).

Ltac write_fields :=
  erewrite bind_ok by (eapply setitem_entry; cbn [pcapins]; apply dict_get_set_same || eassumption);
  cbn [pcapins pca i2c logging];
  erewrite bind_ok by (eapply setitem_entry; cbn [pcapins]; apply dict_get_set_same);
  cbn [pcapins pca i2c logging];
  erewrite setitem_entry by (cbn [pcapins]; apply dict_get_set_same);
  cbn [pcapins pca i2c logging];
  rewrite ?dict_set_set.

Lemma known_key {V} (k : string) (d : dict V) (v : V) :
  dict_get k d = Some v -> dict_mem k d = true.
Proof. intros H. apply dict_mem_get. eauto. Qed.

Ltac same_world :=
  cbn [written input_port]; rewrite <- ?app_assoc; reflexivity.

Section Entry.

Variables (w : World) (p : PCA9557) (key : string) (value : pyobj).
Variables (pin : Z) (v d s : pyobj).
Hypothesis Hp : pca w = Some p.
Hypothesis Hget : dict_get key (pcapins w) = Some (entry pin v d s).

Lemma on_entry_forced (bit : Z) (word : string) (o c : Z) :
  (bit = 0 /\ word = "off" /\ str_in (lower (py_str value)) off_words = true)
  \/ (bit = 1 /\ word = "on" /\ str_in (lower (py_str value)) on_words = true) ->
  write_bit (out p) pin bit = Ok o ->
  write_bit (conf p) pin DIR_OUT = Ok c ->
  on_entry (key, value) w =
  (Ok tt,
   mkWorld
     (dict_set key (entry pin (PyInt bit) (PyInt DIR_OUT) (PyStr word)) (pcapins w))
     (Some (mkPCA (logger p) (address p) c o (inv p)))
     (mkBus (written (i2c w) ++ [mkTransfer (address p) REG_OUT o;
                                 mkTransfer (address p) REG_DIR c])%list
            (input_port (i2c w)))
     (logging w ++
        [ mkLog "root" INFO ("Forcing " ++ key ++ " to " ++ word);
          mkLog (logger p) DEBUG
            ("Setting Pin " ++ str_int pin ++ " to "
             ++ (if truthy bit then "high" else "low"));
          mkLog (logger p) DEBUG ("Setting Output port Register to 0b" ++ fmt_08b o);
          mkLog (logger p) DEBUG ("Setting Pin " ++ str_int pin ++ " to output");
          mkLog (logger p) DEBUG ("Setting Configuration Register to 0b" ++ fmt_08b c)
        ])%list).
Proof.
  intros Hword Ho Hc.
  unfold on_entry. cbn [fst snd]. rewrite (known_key _ _ _ Hget).
  read_fields Hget.
  destruct Hword as [(-> & -> & Hw) | (-> & -> & Hw)].
  - fold off_words. rewrite Hw.
    erewrite bind_ok; cycle 1.
    { erewrite bind_ok by apply emit_eq.
      erewrite bind_ok by reflexivity.
      erewrite bind_ok by (eapply value_sets_output; [exact Hp | exact Ho]).
      erewrite bind_ok
        by (eapply direction_sets_conf; [reflexivity | exact Hc]).
      reflexivity. }
    cbn [fst snd pcapins pca i2c logging out conf logger address inv].
    write_fields. same_world.
  - fold off_words on_words. rewrite (on_not_off _ Hw), Hw.
    erewrite bind_ok; cycle 1.
    { erewrite bind_ok by apply emit_eq.
      erewrite bind_ok by reflexivity.
      erewrite bind_ok by (eapply value_sets_output; [exact Hp | exact Ho]).
      erewrite bind_ok
        by (eapply direction_sets_conf; [reflexivity | exact Hc]).
      reflexivity. }
    cbn [fst snd pcapins pca i2c logging out conf logger address inv].
    write_fields. same_world.
Qed.

Lemma on_entry_released (c : Z) :
  str_in (lower (py_str value)) default_words = true ->
  write_bit (conf p) pin DIR_IN = Ok c ->
  on_entry (key, value) w =
  (Ok tt,
   mkWorld
     (dict_set key (entry pin v (PyInt DIR_IN) (PyStr "default")) (pcapins w))
     (Some (mkPCA (logger p) (address p) c (out p) (inv p)))
     (mkBus (written (i2c w) ++ [mkTransfer (address p) REG_DIR c])%list
            (input_port (i2c w)))
     (logging w ++
        [ mkLog "root" INFO ("Releasing " ++ key ++ " to default state");
          mkLog (logger p) DEBUG ("Setting Pin " ++ str_int pin ++ " to input");
          mkLog (logger p) DEBUG ("Setting Configuration Register to 0b" ++ fmt_08b c)
        ])%list).
Proof.
  intros Hw Hc.
  unfold on_entry. cbn [fst snd]. rewrite (known_key _ _ _ Hget).
  read_fields Hget.
  fold off_words on_words default_words.
  destruct (default_not_forced _ Hw) as [-> ->]. rewrite Hw.
  erewrite bind_ok; cycle 1.
  { erewrite bind_ok by apply emit_eq.
    erewrite bind_ok by reflexivity.
    erewrite bind_ok by (eapply direction_sets_conf; [exact Hp | exact Hc]).
    reflexivity. }
  cbn [fst snd pcapins pca i2c logging out conf logger address inv].
  write_fields. same_world.
Qed.

Lemma on_entry_invalid :
  str_in (lower (py_str value)) off_words = false ->
  str_in (lower (py_str value)) on_words = false ->
  str_in (lower (py_str value)) default_words = false ->
  on_entry (key, value) w =
  (Ok tt,
   mkWorld (pcapins w) (pca w) (i2c w)
     (logging w ++ [invalid_value key (py_str value)])%list).
Proof.
  intros H0 H1 H2.
  unfold on_entry. cbn [fst snd]. rewrite (known_key _ _ _ Hget).
  read_fields Hget.
  fold off_words on_words default_words. rewrite H0, H1, H2.
  erewrite bind_ok; cycle 1.
  { erewrite bind_ok by apply emit_eq. reflexivity. }
  cbn [fst snd pcapins pca i2c logging].
  write_fields.
  match goal with
  | |- context [dict_set key ?e (pcapins w)] => change e with (entry pin v d s)
  end.
  rewrite (dict_set_same_value key (entry pin v d s) (pcapins w) Hget).
  reflexivity.
Qed.

End Entry.

Lemma on_entry_unknown (w : World) (key : string) (value : pyobj) :
  dict_mem key (pcapins w) = false ->
  on_entry (key, value) w =
  (Ok tt,
   mkWorld (pcapins w) (pca w) (i2c w) (logging w ++ [unknown_name key])%list).
Proof.
  intros H. unfold on_entry. cbn [fst snd]. rewrite H. reflexivity.
Qed.

(** ** The shape of the process is kept *)

Lemma mode_matches_forced (pin bit : Z) (word : string) :
  (bit = 0 /\ word = "off") \/ (bit = 1 /\ word = "on") ->
  mode_matches (entry pin (PyInt bit) (PyInt DIR_OUT) (PyStr word)).
Proof.
  intros [[-> ->] | [-> ->]]; unfold mode_matches; cbn;
    repeat split; intros; try discriminate; auto.
Qed.

Lemma mode_matches_released (pin : Z) (v : pyobj) :
  mode_matches (entry pin v (PyInt DIR_IN) (PyStr "default")).
Proof.
  unfold mode_matches; cbn; repeat split; intros; try discriminate; auto.
Qed.

Lemma mode_matches_initial (pin : Z) :
  mode_matches (entry pin PyNone PyNone (PyStr "default")).
Proof.
  unfold mode_matches; cbn; repeat split; intros; try discriminate; auto.
Qed.

Lemma on_entry_well_formed (w : World) (kv : string * pyobj) :
  well_formed w ->
  eval (on_entry kv) w = Ok tt /\ well_formed (exec (on_entry kv) w).
Proof.
  intros (Hkeys & Hall & p & Hp & Hconf & Hout & Hinv).
  destruct kv as [key value]. unfold eval, exec.
  destruct (dict_mem key (pcapins w)) eqn:Hmem.
  - destruct (proj1 (dict_mem_get key (pcapins w)) Hmem) as [e Hget].
    destruct (Forall_dict_get entry_ok key e (pcapins w) Hall Hget)
      as (pin & v & d & s & He & Hpin & Hmode).
    subst e.
    assert (Hforced : forall bit word o c,
      (bit = 0 /\ word = "off") \/ (bit = 1 /\ word = "on") ->
      write_bit (out p) pin bit = Ok o ->
      write_bit (conf p) pin DIR_OUT = Ok c ->
      well_formed
        (mkWorld
           (dict_set key (entry pin (PyInt bit) (PyInt DIR_OUT) (PyStr word))
                     (pcapins w))
           (Some (mkPCA (logger p) (address p) c o (inv p)))
           (mkBus (written (i2c w) ++ [mkTransfer (address p) REG_OUT o;
                                       mkTransfer (address p) REG_DIR c])%list
                  (input_port (i2c w)))
           (logging w ++
              [ mkLog "root" INFO ("Forcing " ++ key ++ " to " ++ word);
                mkLog (logger p) DEBUG
                  ("Setting Pin " ++ str_int pin ++ " to "
                   ++ (if truthy bit then "high" else "low"));
                mkLog (logger p) DEBUG
                  ("Setting Output port Register to 0b" ++ fmt_08b o);
                mkLog (logger p) DEBUG
                  ("Setting Pin " ++ str_int pin ++ " to output");
                mkLog (logger p) DEBUG
                  ("Setting Configuration Register to 0b" ++ fmt_08b c)
              ])%list)).
    { intros bit word o c Hword Ho Hc. unfold well_formed. cbn [pcapins pca].
      split; [rewrite keys_dict_set by assumption; exact Hkeys |].
      split.
      - apply (Forall_dict_set entry_ok); [exact Hall |].
        exists pin, (PyInt bit), (PyInt DIR_OUT), (PyStr word).
        split; [reflexivity |]. split; [exact Hpin |].
        apply mode_matches_forced; exact Hword.
      - eexists. split; [reflexivity |]. cbn [conf out inv].
        split; [eapply write_bit_byte; [exact Hconf | exact Hpin | exact Hc] |].
        split; [eapply write_bit_byte; [exact Hout | exact Hpin | exact Ho] |].
        exact Hinv. }
    destruct (str_in (lower (py_str value)) off_words) eqn:H0.
    { erewrite on_entry_forced
        by (try eassumption; try (left; repeat split; eassumption);
            apply write_bit_ok; lia).
      split; [reflexivity |]. cbn [snd].
      apply Hforced; [left; split; reflexivity | |]; apply write_bit_ok; lia. }
    destruct (str_in (lower (py_str value)) on_words) eqn:H1.
    { erewrite on_entry_forced
        by (try eassumption; try (right; repeat split; eassumption);
            apply write_bit_ok; lia).
      split; [reflexivity |]. cbn [snd].
      apply Hforced; [right; split; reflexivity | |]; apply write_bit_ok; lia. }
    destruct (str_in (lower (py_str value)) default_words) eqn:H2.
    { erewrite on_entry_released
        by (try eassumption; apply write_bit_ok; lia).
      split; [reflexivity |]. cbn [snd].
      unfold well_formed. cbn [pcapins pca].
      split; [rewrite keys_dict_set by assumption; exact Hkeys |].
      split.
      - apply (Forall_dict_set entry_ok); [exact Hall |].
        exists pin, v, (PyInt DIR_IN), (PyStr "default").
        split; [reflexivity |]. split; [exact Hpin |].
        apply mode_matches_released.
      - eexists. split; [reflexivity |]. cbn [conf out inv].
        split; [| split; assumption].
        eapply write_bit_byte; [exact Hconf | exact Hpin |].
        apply write_bit_ok; lia. }
    erewrite on_entry_invalid by eassumption.
    split; [reflexivity |]. cbn [snd].
    unfold well_formed. cbn [pcapins pca]. eauto 10.
  - rewrite on_entry_unknown by assumption.
    split; [reflexivity |]. cbn [snd].
    unfold well_formed. cbn [pcapins pca]. eauto 10.
Qed.

Lemma for_each_well_formed (kvs : list (string * pyobj)) (w : World) :
  well_formed w ->
  eval (for_each kvs on_entry) w = Ok tt
  /\ well_formed (exec (for_each kvs on_entry) w).
Proof.
  revert w. induction kvs as [| kv kvs IH]; intros w Hw.
  - split; [reflexivity | exact Hw].
  - destruct (on_entry_well_formed w kv Hw) as [Hev Hwf].
    unfold eval, exec in *. cbn [for_each].
    destruct (on_entry kv w) as [r w1] eqn:E. cbn [fst snd] in Hev, Hwf.
    subst r. erewrite bind_ok by exact E. apply IH. exact Hwf.
Qed.

Lemma mqtt_on_message_well_formed (w : World) (msg : MQTTMessage)
      (loads : result pyobj) :
  well_formed w -> well_formed (exec (mqtt_on_message msg loads) w).
Proof.
  intros Hw. unfold exec, mqtt_on_message.
  destruct (bytes_decode (payload msg)) as [text | e] eqn:Hdec.
  - erewrite bind_ok by reflexivity.
    erewrite bind_ok by apply emit_eq.
    destruct loads as [command | []]; try exact Hw.
    unfold dispatch. destruct command; try exact Hw.
    erewrite bind_ok by reflexivity.
    apply for_each_well_formed. exact Hw.
  - erewrite bind_raise by reflexivity. exact Hw.
Qed.

Lemma boot_well_formed (inputs : Z) : well_formed (boot inputs).
Proof.
  unfold well_formed. cbn. split; [reflexivity |]. split.
  - repeat constructor;
      (cbn [snd]; eexists _, _, _, _; split; [reflexivity |]; split; [lia |];
       apply mode_matches_initial).
  - eexists. split; [reflexivity |]. cbn. lia.
Qed.

Lemma reachable_well_formed (w : World) : reachable w -> well_formed w.
Proof.
  induction 1 as [inputs | w msg loads _ IH].
  - apply boot_well_formed.
  - apply mqtt_on_message_well_formed. exact IH.
Qed.

(** ** The log is only appended to *)

Lemma blind_ret {A} (a : A) : log_blind (ret a).
Proof. intros w l. reflexivity. Qed.

Lemma blind_raise {A} (e : exception) : log_blind (@raise A e).
Proof. intros w l. reflexivity. Qed.

Lemma blind_lift {A} (r : result A) : log_blind (lift r).
Proof. intros w l. reflexivity. Qed.

Lemma blind_bind {A B} (m : M A) (k : A -> M B) :
  log_blind m -> (forall a, log_blind (k a)) -> log_blind (bind m k).
Proof.
  intros Hm Hk w l. unfold bind. rewrite Hm.
  destruct (m w) as [[a | e] w']; cbn [fst snd]; [apply Hk | reflexivity].
Qed.

Lemma blind_emit (name : string) (lvl : Level) (msg : string) :
  log_blind (emit name lvl msg).
Proof.
  intros w l. unfold emit, relog. cbn. rewrite app_assoc. reflexivity.
Qed.

Lemma blind_write_byte_data (a r v : Z) : log_blind (write_byte_data a r v).
Proof. intros w l. reflexivity. Qed.

Lemma blind_read_byte_data (a r : Z) : log_blind (read_byte_data a r).
Proof. intros w l. reflexivity. Qed.

Lemma blind_self : log_blind Pca9557.self.
Proof. intros [t [p |] b lg] l; reflexivity. Qed.

Lemma blind_assign (p : PCA9557) : log_blind (Pca9557.assign p).
Proof. intros w l. reflexivity. Qed.

Lemma blind_item (key field : string) : log_blind (item key field).
Proof.
  intros w l. unfold item, relog. cbn.
  destruct (dict_get key (pcapins w)) as [e |]; [| reflexivity].
  destruct (dict_get field e); reflexivity.
Qed.

Lemma blind_get (key field : string) : log_blind (get key field).
Proof.
  intros w l. unfold get, relog. cbn.
  destruct (dict_get key (pcapins w)) as [e |]; [| reflexivity].
  destruct (dict_get field e); reflexivity.
Qed.

Lemma blind_setitem (key field : string) (v : pyobj) :
  log_blind (setitem key field v).
Proof.
  intros w l. unfold setitem, relog. cbn.
  destruct (dict_get key (pcapins w)); reflexivity.
Qed.

Lemma blind_as_int (o : pyobj) : log_blind (as_int o).
Proof. destruct o; first [apply blind_ret | apply blind_raise]. Qed.

(** A statement that first looks at the table. *)
Lemma blind_on_table {A} (f : dict (dict pyobj) -> M A) :
  (forall t, log_blind (f t)) -> log_blind (fun w => f (pcapins w) w).
Proof. intros H w l. cbn [relog pcapins]. apply H. Qed.

Lemma blind_for_each {A} (l : list A) (body : A -> M unit) :
  (forall a, log_blind (body a)) -> log_blind (for_each l body).
Proof.
  intros H. induction l as [| a l IH]; cbn [for_each].
  - apply blind_ret.
  - apply blind_bind; [apply H | intros _; exact IH].
Qed.

Ltac blind :=
  repeat first
    [ apply blind_ret | apply blind_raise | apply blind_lift
    | apply blind_emit | apply blind_write_byte_data
    | apply blind_read_byte_data | apply blind_self | apply blind_assign
    | apply blind_item | apply blind_get | apply blind_setitem
    | apply blind_as_int
    | apply blind_bind; [| intros ?] ].

Lemma blind_value (pin : Z) (arg : option Z) : log_blind (Pca9557.value pin arg).
Proof.
  unfold Pca9557.value, Pca9557.debug, Pca9557.set_out, Pca9557.write_output,
    Pca9557.read_pin, Pca9557.read, Pca9557.debug.
  destruct arg; blind. destruct (pin <? 0); blind.
Qed.

Lemma blind_direction (pin d : Z) : log_blind (Pca9557.direction pin d).
Proof.
  unfold Pca9557.direction, Pca9557.debug, Pca9557.set_conf,
    Pca9557.write_direction, Pca9557.debug.
  blind.
Qed.

Lemma blind_on_entry (kv : string * pyobj) : log_blind (on_entry kv).
Proof.
  unfold on_entry.
  apply (blind_on_table
           (fun t => if dict_mem (fst kv) t then _ else _)).
  intros t. destruct (dict_mem (fst kv) t); [| apply blind_emit].
  unfold info, error.
  do 4 (apply blind_bind; [blind | intros ?]).
  apply blind_bind; [| intros ?; blind].
  repeat match goal with
         | |- log_blind (if ?c then _ else _) => destruct c
         end;
    repeat first [ apply blind_value | apply blind_direction
                 | apply blind_ret | apply blind_emit | apply blind_as_int
                 | apply blind_bind; [| intros ?] ].
Qed.

(** ** The pin table *)

Lemma reachable_entry (w : World) (name : string) (e : dict pyobj) :
  reachable w -> dict_get name (pcapins w) = Some e -> entry_ok e.
Proof.
  intros Hr Hget.
  destruct (reachable_well_formed w Hr) as (_ & Hall & _).
  exact (Forall_dict_get entry_ok name e (pcapins w) Hall Hget).
Qed.

(** C2, as stated, fails on the table that startup leaves: the entry of
    LED has the mode "default" and no direction at all. *)
Lemma mode_claim_fails_at_startup :
  ~ (forall w name e,
       reachable w -> dict_get name (pcapins w) = Some e ->
       mode_matches_claimed e).
Proof.
  intros H.
  destruct (H (boot 0) "LED" (entry 0 PyNone PyNone (PyStr "default"))
              (reach_boot 0) eq_refl) as [Hdefault _].
  specialize (Hdefault eq_refl). discriminate Hdefault.
Qed.

(** C2, amended: in every reachable state every pin entry has the mode
    "default" only with the direction IN or with no direction yet (the
    value that startup gives), and the mode "on" or "off" only with the
    direction OUT and the level 1 or 0. *)
Theorem mode_matches_reachable (w : World) (name : string) (e : dict pyobj) :
  reachable w -> dict_get name (pcapins w) = Some e -> mode_matches e.
Proof.
  intros Hr Hget.
  destruct (reachable_entry w name e Hr Hget) as (pin & v & d & s & _ & _ & H).
  exact H.
Qed.

Lemma mode_matches_reachable_witness :
  mode_matches (entry 1 (PyInt 1) (PyInt DIR_OUT) (PyStr "on")).
Proof.
  apply (mode_matches_reachable
           (exec (mqtt_on_message (mkMsg "bw/host/command" [x7b; x7d])
                    (Ok (PyDict [("IO1", PyStr "ON")])))
                 (boot 0))
           "IO1").
  - apply reach_message. apply reach_boot.
  - vm_compute. reflexivity.
Defined.

(** ** Commands that force a pin *)

Lemma dispatch_one (w : World) (key : string) (value : pyobj) :
  dispatch (PyDict [(key, value)]) w =
  (fst (on_entry (key, value) w), snd (on_entry (key, value) w)).
Proof.
  unfold dispatch. erewrite bind_ok by reflexivity.
  cbn [for_each]. unfold bind.
  destruct (on_entry (key, value) w) as [[[] | e] w']; reflexivity.
Qed.

(** C3: on a reachable state, the command that pairs a recognized pin
    name with a value whose lowercased text is "1", "on" or "true"
    returns normally; it leaves that pin's entry with the level 1, the
    direction OUT and the mode "on" (and its pin index), writes exactly
    two bytes to the chip, the output register with the pin's bit set and
    then the direction register with the pin's bit cleared, and leaves
    the entry of every other pin as it was. *)
Theorem on_command_forces_pin (w : World) (key : string) (value : pyobj) :
  reachable w ->
  dict_mem key (pcapins w) = true ->
  str_in (lower (py_str value)) on_words = true ->
  let w' := exec (dispatch (PyDict [(key, value)])) w in
  eval (dispatch (PyDict [(key, value)])) w = Ok tt
  /\ (exists pin p p',
        item key "pin" w = (Ok (PyInt pin), w)
        /\ dict_get key (pcapins w') =
           Some (entry pin (PyInt 1) (PyInt DIR_OUT) (PyStr "on"))
        /\ pca w = Some p /\ pca w' = Some p'
        /\ write_bit (out p) pin 1 = Ok (out p')
        /\ write_bit (conf p) pin DIR_OUT = Ok (conf p')
        /\ inv p' = inv p
        /\ written (i2c w') =
           (written (i2c w) ++ [ mkTransfer (address p) REG_OUT (out p');
                                 mkTransfer (address p) REG_DIR (conf p') ])%list)
  /\ (forall other, other <> key ->
        dict_get other (pcapins w') = dict_get other (pcapins w))
  /\ keys (pcapins w') = keys (pcapins w).
Proof.
  intros Hr Hmem Hon w'. subst w'. unfold eval, exec.
  rewrite dispatch_one. cbn [fst snd].
  destruct (reachable_well_formed w Hr) as (_ & Hall & p & Hp & _).
  destruct (proj1 (dict_mem_get key (pcapins w)) Hmem) as [e Hget].
  destruct (Forall_dict_get entry_ok key e (pcapins w) Hall Hget)
    as (pin & v & d & s & -> & Hpin & _).
  erewrite on_entry_forced
    by (try eassumption; try (right; repeat split; eassumption);
        apply write_bit_ok; lia).
  cbn [fst snd pcapins pca i2c written].
  split; [reflexivity |]. split.
  - eexists pin, p, _.
    split; [apply (item_entry w key "pin" _ _ Hget); reflexivity |].
    split; [apply dict_get_set_same |].
    split; [exact Hp |]. split; [reflexivity |]. cbn [out conf inv].
    split; [apply write_bit_ok; lia |].
    split; [apply write_bit_ok; lia |].
    split; reflexivity.
  - split.
    + intros other Hne. apply dict_get_set_other. exact Hne.
    + apply keys_dict_set. exact Hmem.
Qed.

Lemma on_command_forces_pin_witness :
  let w := boot 0 in
  let w' := exec (dispatch (PyDict [("IO1", PyStr "On")])) w in
  eval (dispatch (PyDict [("IO1", PyStr "On")])) w = Ok tt
  /\ (exists pin p p',
        item "IO1" "pin" w = (Ok (PyInt pin), w)
        /\ dict_get "IO1" (pcapins w') =
           Some (entry pin (PyInt 1) (PyInt DIR_OUT) (PyStr "on"))
        /\ pca w = Some p /\ pca w' = Some p'
        /\ write_bit (out p) pin 1 = Ok (out p')
        /\ write_bit (conf p) pin DIR_OUT = Ok (conf p')
        /\ inv p' = inv p
        /\ written (i2c w') =
           (written (i2c w) ++ [ mkTransfer (address p) REG_OUT (out p');
                                 mkTransfer (address p) REG_DIR (conf p') ])%list)
  /\ (forall other, other <> "IO1" ->
        dict_get other (pcapins w') = dict_get other (pcapins w))
  /\ keys (pcapins w') = keys (pcapins w).
Proof.
  apply (on_command_forces_pin (boot 0) "IO1" (PyStr "On")).
  - apply reach_boot.
  - reflexivity.
  - reflexivity.
Defined.

(** ** What the handler reports *)

Lemma occurrences_app (r : LogRecord) (l1 l2 : list LogRecord) :
  occurrences r (l1 ++ l2) = (occurrences r l1 + occurrences r l2)%nat.
Proof. unfold occurrences. rewrite filter_app, length_app. reflexivity. Qed.

Lemma log_eqb_refl (r : LogRecord) : log_eqb r r = true.
Proof.
  unfold log_eqb. rewrite !String.eqb_refl.
  destruct (log_level r); reflexivity.
Qed.

Lemma occurrences_debug (r : LogRecord) (name msg : string) :
  log_level r = ERROR -> log_eqb r (mkLog name DEBUG msg) = false.
Proof.
  intros H. unfold log_eqb. cbn. rewrite H. cbn.
  rewrite andb_false_r. reflexivity.
Qed.

Lemma occurrences_info (r : LogRecord) (name msg : string) :
  log_level r = ERROR -> log_eqb r (mkLog name INFO msg) = false.
Proof.
  intros H. unfold log_eqb. cbn. rewrite H. cbn.
  rewrite andb_false_r. reflexivity.
Qed.

Lemma unknown_is_not_invalid (k key value : string) :
  log_eqb (unknown_name k) (invalid_value key value) = false.
Proof. reflexivity. Qed.

(** What an entry with a recognized name logs is never the report of an
    unknown name. *)
Lemma on_entry_known_log (w : World) (key : string) (value : pyobj) (k : string) :
  well_formed w -> dict_mem key (pcapins w) = true ->
  occurrences (unknown_name k) (logging (exec (on_entry (key, value)) w)) =
  occurrences (unknown_name k) (logging w).
Proof.
  intros (_ & Hall & p & Hp & _) Hmem. unfold exec.
  destruct (proj1 (dict_mem_get key (pcapins w)) Hmem) as [e Hget].
  destruct (Forall_dict_get entry_ok key e (pcapins w) Hall Hget)
    as (pin & v & d & s & -> & Hpin & _).
  assert (Hquiet : forall l,
    occurrences (unknown_name k) l = 0%nat ->
    occurrences (unknown_name k) (logging w ++ l) =
    occurrences (unknown_name k) (logging w)).
  { intros l Hl. rewrite occurrences_app, Hl. apply Nat.add_0_r. }
  destruct (str_in (lower (py_str value)) off_words) eqn:H0;
    [| destruct (str_in (lower (py_str value)) on_words) eqn:H1;
       [| destruct (str_in (lower (py_str value)) default_words) eqn:H2 ] ].
  - erewrite on_entry_forced
      by (try eassumption; try (left; repeat split; eassumption);
          apply write_bit_ok; lia).
    cbn [snd logging]. apply Hquiet. unfold occurrences. cbn [filter].
    rewrite occurrences_info, !occurrences_debug by reflexivity. reflexivity.
  - erewrite on_entry_forced
      by (try eassumption; try (right; repeat split; eassumption);
          apply write_bit_ok; lia).
    cbn [snd logging]. apply Hquiet. unfold occurrences. cbn [filter].
    rewrite occurrences_info, !occurrences_debug by reflexivity. reflexivity.
  - erewrite on_entry_released by (try eassumption; apply write_bit_ok; lia).
    cbn [snd logging]. apply Hquiet. unfold occurrences. cbn [filter].
    rewrite occurrences_info, !occurrences_debug by reflexivity. reflexivity.
  - erewrite on_entry_invalid by eassumption.
    cbn [snd logging]. apply Hquiet. unfold occurrences. cbn [filter].
    rewrite unknown_is_not_invalid. reflexivity.
Qed.

Lemma unknown_name_eqb (k key : string) :
  log_eqb (unknown_name k) (unknown_name key) = String.eqb k key.
Proof. unfold log_eqb, unknown_name. cbn. reflexivity. Qed.

Lemma on_entry_other_log (w : World) (kv : string * pyobj) (k : string) :
  well_formed w -> fst kv <> k ->
  occurrences (unknown_name k) (logging (exec (on_entry kv) w)) =
  occurrences (unknown_name k) (logging w).
Proof.
  intros Hw Hne. destruct kv as [key value]. cbn [fst] in Hne.
  destruct (dict_mem key (pcapins w)) eqn:Hmem.
  - apply on_entry_known_log; assumption.
  - unfold exec. rewrite on_entry_unknown by assumption.
    cbn [snd logging]. rewrite occurrences_app.
    unfold occurrences at 2. cbn [filter]. rewrite unknown_name_eqb.
    destruct (String.eqb_spec k key); [congruence |]. apply Nat.add_0_r.
Qed.

Lemma for_each_other_log (kvs : list (string * pyobj)) (w : World) (k : string) :
  well_formed w -> ~ In k (keys kvs) ->
  occurrences (unknown_name k) (logging (exec (for_each kvs on_entry) w)) =
  occurrences (unknown_name k) (logging w).
Proof.
  revert w. induction kvs as [| kv kvs IH]; intros w Hw Hnot; [reflexivity |].
  destruct (on_entry_well_formed w kv Hw) as [Hev Hwf].
  unfold eval, exec in *. cbn [for_each].
  destruct (on_entry kv w) as [r w1] eqn:E. cbn [fst snd] in Hev, Hwf. subst r.
  erewrite bind_ok by exact E.
  rewrite IH; [| exact Hwf | intros Hin; apply Hnot; right; exact Hin].
  replace w1 with (snd (on_entry kv w)) by (rewrite E; reflexivity).
  apply (on_entry_other_log w kv k Hw).
  intros Heq. apply Hnot. left. exact Heq.
Qed.

Lemma for_each_app {A} (l1 l2 : list A) (body : A -> M unit) (w : World) :
  for_each (l1 ++ l2) body w =
  bind (for_each l1 body) (fun _ => for_each l2 body) w.
Proof.
  revert w. induction l1 as [| a l1 IH]; intros w; cbn [for_each app].
  - reflexivity.
  - unfold bind. destruct (body a w) as [[[] | e] w1].
    + rewrite IH. reflexivity.
    + reflexivity.
Qed.

Lemma relog_nil (w : World) :
  relog (logging w) (mkWorld (pcapins w) (pca w) (i2c w) []) = w.
Proof. destruct w. unfold relog. cbn. rewrite app_nil_r. reflexivity. Qed.

(** An entry whose key is not a pin name, anywhere in a command, costs
    one report and nothing else: the table, the shadows and the bytes
    sent are those of the command without it. *)
Lemma unknown_entry_dropped
        (w : World) (before after : list (string * pyobj))
        (key : string) (value : pyobj) :
  reachable w ->
  dict_mem key (pcapins w) = false ->
  ~ In key (keys before) -> ~ In key (keys after) ->
  let full := exec (dispatch (PyDict (before ++ (key, value) :: after))) w in
  let rest := exec (dispatch (PyDict (before ++ after))) w in
  eval (dispatch (PyDict (before ++ (key, value) :: after))) w = Ok tt
  /\ occurrences (unknown_name key) (logging full) =
     S (occurrences (unknown_name key) (logging w))
  /\ pcapins full = pcapins rest
  /\ pca full = pca rest
  /\ i2c full = i2c rest.
Proof.
  intros Hr Hmem Hbefore Hafter full rest. subst full rest.
  pose proof (reachable_well_formed w Hr) as Hw.
  unfold eval, exec, dispatch.
  erewrite !bind_ok by reflexivity.
  rewrite !for_each_app.
  destruct (for_each_well_formed before w Hw) as [Hev1 Hw1].
  pose proof (for_each_other_log before w key Hw Hbefore) as Hlog1.
  unfold eval, exec in Hev1, Hw1, Hlog1.
  destruct (for_each before on_entry w) as [r1 w1] eqn:E1.
  cbn [fst snd] in Hev1, Hw1, Hlog1. subst r1.
  erewrite !bind_ok by exact E1.
  cbn [for_each].
  assert (Hmem1 : dict_mem key (pcapins w1) = false).
  { rewrite <- Hmem. apply dict_mem_keys.
    destruct Hw as [-> _]. destruct Hw1 as [-> _]. reflexivity. }
  erewrite bind_ok by (apply on_entry_unknown; exact Hmem1).
  set (w0 := mkWorld (pcapins w1) (pca w1) (i2c w1) []).
  assert (Hw0 : well_formed w0) by exact Hw1.
  destruct (for_each_well_formed after w0 Hw0) as [Hev2 _].
  pose proof (for_each_other_log after w0 key Hw0 Hafter) as Hlog2.
  pose proof (blind_for_each after on_entry blind_on_entry) as Hblind.
  assert (Hrest : for_each after on_entry w1 =
                  (fst (for_each after on_entry w0),
                   relog (logging w1) (snd (for_each after on_entry w0)))).
  { rewrite <- (Hblind w0 (logging w1)). unfold w0. rewrite relog_nil.
    reflexivity. }
  assert (Hfull : for_each after on_entry
                    (mkWorld (pcapins w1) (pca w1) (i2c w1)
                             (logging w1 ++ [unknown_name key])%list) =
                  (fst (for_each after on_entry w0),
                   relog (logging w1 ++ [unknown_name key])
                         (snd (for_each after on_entry w0)))).
  { rewrite <- (Hblind w0 (logging w1 ++ [unknown_name key])%list).
    unfold relog, w0. cbn. rewrite app_nil_r. reflexivity. }
  rewrite Hrest, Hfull. unfold eval, exec in Hev2, Hlog2.
  cbn [fst snd relog pcapins pca i2c logging].
  split; [exact Hev2 |].
  split; [| repeat split].
  rewrite !occurrences_app, Hlog2, Hlog1.
  unfold occurrences at 2 3. cbn [filter logging w0].
  rewrite log_eqb_refl. cbn. lia.
Qed.

(** C8: on a reachable state, processing the entry of a recognized pin
    name whose value, lowercased, is in none of the three sets of words
    returns normally and changes nothing but the log, which grows by
    exactly one record, the report "Invalid command received" for that
    key and value: the pin table, the driver's shadows and the bytes
    written to the chip are what they were.  The same holds of the
    command made of that entry alone. *)
Theorem invalid_value_ignored (w : World) (key : string) (value : pyobj) :
  reachable w ->
  dict_mem key (pcapins w) = true ->
  str_in (lower (py_str value)) off_words = false ->
  str_in (lower (py_str value)) on_words = false ->
  str_in (lower (py_str value)) default_words = false ->
  let w' := mkWorld (pcapins w) (pca w) (i2c w)
                    (logging w ++ [invalid_value key (py_str value)])%list in
  on_entry (key, value) w = (Ok tt, w')
  /\ dispatch (PyDict [(key, value)]) w = (Ok tt, w').
Proof.
  intros Hr Hmem H0 H1 H2 w'. subst w'.
  destruct (reachable_well_formed w Hr) as (_ & Hall & p & Hp & _).
  destruct (proj1 (dict_mem_get key (pcapins w)) Hmem) as [e Hget].
  destruct (Forall_dict_get entry_ok key e (pcapins w) Hall Hget)
    as (pin & v & d & s & -> & _).
  rewrite dispatch_one.
  erewrite on_entry_invalid by eassumption.
  split; reflexivity.
Qed.

Lemma invalid_value_ignored_witness :
  let w' := mkWorld (pcapins (boot 0)) (pca (boot 0)) (i2c (boot 0))
                    (logging (boot 0) ++ [invalid_value "IO1" "bogus"])%list in
  on_entry ("IO1", PyStr "bogus") (boot 0) = (Ok tt, w')
  /\ dispatch (PyDict [("IO1", PyStr "bogus")]) (boot 0) = (Ok tt, w').
Proof.
  apply (invalid_value_ignored (boot 0) "IO1" (PyStr "bogus")).
  - apply reach_boot.
  - reflexivity.
  - reflexivity.
  - reflexivity.
  - reflexivity.
Defined.

(** ** Payloads that are not commands *)

(** A payload that is text but that [json.loads] rejects is logged and
    dropped: the handler returns and only the log has changed. *)
Lemma rejected_text_is_dropped (w : World) (msg : MQTTMessage) (text : string) :
  bytes_decode (payload msg) = Ok text ->
  mqtt_on_message msg (Raise JSONDecodeError) w =
  (Ok tt,
   mkWorld (pcapins w) (pca w) (i2c w)
     (logging w ++
        [ mkLog "root" INFO
            ("MQTT message received on " ++ topic msg ++ ": " ++ text);
          mkLog "root" ERROR
            ("Command does not contain valid JSON: " ++ repr_bytes (payload msg))
        ])%list).
Proof.
  intros Hdec. unfold mqtt_on_message. rewrite Hdec.
  erewrite bind_ok by reflexivity.
  erewrite bind_ok by apply emit_eq.
  unfold error. rewrite emit_eq. cbn [pcapins pca i2c logging].
  rewrite <- app_assoc. reflexivity.
Qed.

(** C6, at the payload made of the single byte 0xFF, which is not JSON:
    whatever [json.loads] would do, the handler raises
    [UnicodeDecodeError] from the [decode()] of its first line and logs
    nothing. *)
Theorem binary_payload_escapes (w : World) (t : string) (loads : result pyobj) :
  mqtt_on_message (mkMsg t [xff]) loads w = (Raise UnicodeDecodeError, w).
Proof. reflexivity. Qed.

(** C10: when the payload is text and [json.loads] returns anything but a
    dictionary (a list, a number, a string, [True], [False] or [None]),
    the handler raises [AttributeError], having logged only the receipt
    of the message. *)
Theorem non_object_command_escapes
        (w : World) (msg : MQTTMessage) (text : string) (command : pyobj) :
  bytes_decode (payload msg) = Ok text ->
  (forall kvs, command <> PyDict kvs) ->
  mqtt_on_message msg (Ok command) w =
  (Raise AttributeError,
   mkWorld (pcapins w) (pca w) (i2c w)
     (logging w ++
        [ mkLog "root" INFO
            ("MQTT message received on " ++ topic msg ++ ": " ++ text) ])%list).
Proof.
  intros Hdec Hnot. unfold mqtt_on_message. rewrite Hdec.
  erewrite bind_ok by reflexivity.
  erewrite bind_ok by apply emit_eq.
  unfold dispatch.
  destruct command; try reflexivity.
  exfalso. eapply Hnot. reflexivity.
Qed.

Lemma non_object_command_escapes_witness :
  mqtt_on_message (mkMsg "bw/host/command" [x5b; x31; x2c; x20; x32; x5d])
                  (Ok (PyList [PyInt 1; PyInt 2])) (boot 0) =
  (Raise AttributeError,
   mkWorld (pcapins (boot 0)) (pca (boot 0)) (i2c (boot 0))
     (logging (boot 0) ++
        [ mkLog "root" INFO "MQTT message received on bw/host/command: [1, 2]" ])%list).
Proof.
  apply (non_object_command_escapes
           (boot 0) (mkMsg "bw/host/command" [x5b; x31; x2c; x20; x32; x5d])
           "[1, 2]" (PyList [PyInt 1; PyInt 2])).
  - reflexivity.
  - intros kvs H. discriminate H.
Defined.

(** ** Sensor readings *)

Lemma round_half_even_le (x : Q) (n : Z) :
  (x <= inject_Z n)%Q -> round_half_even x <= n.
Proof.
  intros Hx. unfold round_half_even.
  assert (Hf : Qfloor x <= n).
  { rewrite <- (Qfloor_Z n). apply Qfloor_resp_le. exact Hx. }
  assert (Hup : (~ (x - inject_Z (Qfloor x) < 1 # 2))%Q -> Qfloor x + 1 <= n).
  { intros Hnot.
    assert (Hlt : (inject_Z (Qfloor x) < inject_Z n)%Q).
    { apply Qlt_le_trans with x; [| exact Hx].
      apply Qnot_le_lt. intros Hle. apply Hnot.
      apply Qle_lt_trans with 0%Q; [| reflexivity].
      apply (Qplus_le_l _ _ (inject_Z (Qfloor x))). ring_simplify. exact Hle. }
    rewrite <- Zlt_Qlt in Hlt. lia. }
  destruct (Qcompare (x - inject_Z (Qfloor x)) (1 # 2)) eqn:C.
  - apply Qeq_alt in C.
    assert (Qfloor x + 1 <= n)
      by (apply Hup; rewrite C; apply Qlt_irrefl).
    destruct (Z.even (Qfloor x)); lia.
  - exact Hf.
  - apply Qgt_alt in C. apply Hup. apply Qle_not_lt. apply Qlt_le_weak. exact C.
Qed.

Lemma round_at_most_one (x : Q) :
  (x <= 1)%Q -> (round x 2 <= 1)%Q.
Proof.
  intros Hx. unfold round.
  change (inject_Z (10 ^ Z.of_nat 2)) with (inject_Z 100).
  apply Qle_shift_div_r; [reflexivity |].
  rewrite Qmult_1_l. rewrite <- Zle_Qle.
  apply round_half_even_le.
  rewrite <- (Qmult_1_l (inject_Z 100)) at 2.
  apply Qmult_le_compat_r; [exact Hx | discriminate].
Qed.

Lemma reading_of_low_voltage (inaobj : INA219) :
  (voltage_test inaobj <= 1)%Q -> reading inaobj = zero_reading.
Proof.
  intros H. unfold reading, gt.
  assert (E : Qle_bool (round (voltage_test inaobj) 2) 1 = true)
    by (apply Qle_bool_iff, round_at_most_one, H).
  rewrite E. reflexivity.
Qed.

(** The voltage that is published is read again after the test: a
    device that answers 1.2 and then 0.3 is published with 0.3. *)
Example reading_reads_voltage_twice :
  dict_get "voltage" (reading (mkINA (12 # 10) (3 # 10) 250 75 (25 # 10))) =
  Some (NFloat (round (3 # 10) 2)).
Proof. reflexivity. Qed.

Lemma read_inas_step_other (l : dict INA219) (acc : dict (dict number))
      (name : string) :
  ~ In name (keys l) ->
  dict_get name
    (fold_left (fun results item => dict_set (fst item) (reading (snd item)) results)
               l acc) =
  dict_get name acc.
Proof.
  revert acc. induction l as [| [k x] l IH]; intros acc Hnot; [reflexivity |].
  cbn [fold_left fst snd]. rewrite IH.
  - apply dict_get_set_other. intros ->. apply Hnot. left. reflexivity.
  - intros Hin. apply Hnot. right. exact Hin.
Qed.

Lemma read_inas_get (l : dict INA219) (name : string) (inaobj : INA219) :
  NoDup (keys l) -> dict_get name l = Some inaobj ->
  dict_get name (read_inas l) = Some (reading inaobj).
Proof.
  unfold read_inas. generalize (@nil (string * dict number)).
  induction l as [| [k x] l IH]; intros acc Hnd Hget; [discriminate |].
  cbn [keys map fst] in Hnd. inversion Hnd as [| ? ? Hk Hl]; subst.
  cbn [dict_get] in Hget. cbn [fold_left fst snd].
  destruct (String.eqb_spec name k) as [-> | Hne].
  - injection Hget as ->.
    rewrite read_inas_step_other by exact Hk. apply dict_get_set_same.
  - apply IH; assumption.
Qed.

Lemma append_same_prefix (s a b : string) : s ++ a = s ++ b -> a = b.
Proof.
  induction s as [| c s IH]; cbn; [trivial |].
  intros [= H]. apply IH. exact H.
Qed.

(** X24: what the test of line 143 decides.  In any iteration of the
    loop, for a device whose [voltage()] read of line 142 is at most
    1.0, [read_inas] gives the all-zero reading, and every message
    published on the powerstats topic carries it for the device.  This
    is about the voltage that is tested, not about the one that is
    published, which is read again at line 145. *)
Theorem low_voltage_reads_zero
        (cfg : Config) (lastchecktime : Q) (env : Tick) (w : World)
        (name : string) (inaobj : INA219) :
  NoDup (keys (inas env)) ->
  dict_get name (inas env) = Some inaobj ->
  (voltage_test inaobj <= 1)%Q ->
  dict_get name (read_inas (inas env)) = Some zero_reading
  /\ forall body,
       In (Publish (mqtt_topic cfg ++ "powerstats") body)
          (snd (poll cfg lastchecktime env w)) ->
       exists stats, body = Powerstats stats
                     /\ dict_get name stats = Some zero_reading.
Proof.
  intros Hnd Hget Hlow.
  assert (Hzero : dict_get name (read_inas (inas env)) = Some zero_reading).
  { rewrite (read_inas_get _ name inaobj Hnd Hget).
    rewrite reading_of_low_voltage by exact Hlow. reflexivity. }
  split; [exact Hzero |].
  intros body Hin. unfold poll in Hin.
  destruct (gt (time_test env) (lastchecktime + inainterval cfg));
    cbn [snd] in Hin; [| destruct Hin].
  apply in_app_or in Hin. destruct Hin as [Hin | Hin].
  - destruct (is_connected env); [| destruct Hin].
    destruct Hin as [Heq | [Heq | []]].
    + injection Heq as <-. eexists. split; [reflexivity | exact Hzero].
    + injection Heq as Htopic _.
      apply append_same_prefix in Htopic. discriminate Htopic.
  - destruct (isdir env); [| destruct Hin].
    destruct Hin as [Heq | []]. discriminate Heq.
Qed.

Lemma low_voltage_reads_zero_witness :
  let env :=
    mkTick 100 100 true true
      [ ("Raspi", mkINA (508 # 100) (508 # 100) (4123 # 10) 2095 (4123 # 1000));
        ("USB1", mkINA (3 # 10) (3 # 10) (7 # 10) 2 (1 # 100)) ] in
  dict_get "USB1" (read_inas (inas env)) = Some zero_reading
  /\ forall body,
       In (Publish ("bw/host/" ++ "powerstats") body)
          (snd (poll (mkConfig "bw/host/" 5 "/run/bw") 0 env (boot 0))) ->
       exists stats, body = Powerstats stats
                     /\ dict_get "USB1" stats = Some zero_reading.
Proof.
  apply (low_voltage_reads_zero
           (mkConfig "bw/host/" 5 "/run/bw") 0
           (mkTick 100 100 true true
              [ ("Raspi", mkINA (508 # 100) (508 # 100) (4123 # 10) 2095 (4123 # 1000));
                ("USB1", mkINA (3 # 10) (3 # 10) (7 # 10) 2 (1 # 100)) ])
           (boot 0) "USB1" (mkINA (3 # 10) (3 # 10) (7 # 10) 2 (1 # 100))).
  - repeat constructor; cbn; intuition discriminate.
  - reflexivity.
  - cbn. unfold Qle. cbn. lia.
Defined.

(** C4: the code breaks the claim.  A device that answers 1.2 V to the
    [voltage()] call of the test (line 142) and 0.3 V to the call that
    fills the reading (line 145) is published on the powerstats topic
    with the voltage 0.3, which is at most 1.0, beside its raw current,
    power and shunt voltage, and not with the all-zero reading: the
    tested value is stored in [voltage], but the device is read again
    for the value that is published. *)
Theorem low_voltage_published_raw :
  let device := mkINA (12 # 10) (3 # 10) 250 75 (25 # 10) in
  let env :=
    mkTick 100 100 true false
      [ ("Raspi", mkINA (508 # 100) (508 # 100) (4123 # 10) 2095 (4123 # 1000));
        ("USB1", device) ] in
  let stats := read_inas (inas env) in
  poll (mkConfig "bw/host/" 5 "/run/bw") 0 env (boot 0) =
    (100%Q,
     [ Publish "bw/host/powerstats" (Powerstats stats);
       Publish "bw/host/pinstates" (Pinstates (pcapins (boot 0))) ])
  /\ (exists v c p s,
        dict_get "USB1" stats =
          Some [ ("voltage", NFloat v); ("current", NFloat c);
                 ("power", NFloat p); ("shunt_voltage", NFloat s) ]
        /\ (v == 3 # 10)%Q /\ (v <= 1)%Q
        /\ (c == 250)%Q /\ (p == 75 # 1000)%Q /\ (s == 25 # 10)%Q)
  /\ dict_get "USB1" stats <> Some zero_reading.
Proof.
  cbv zeta. split; [reflexivity |]. split.
  - eexists _, _, _, _. split; [reflexivity |].
    repeat split; vm_compute; congruence.
  - vm_compute. discriminate.
Qed.

(** ** The pinstates message *)

Lemma pinstates_published
      (cfg : Config) (lastchecktime : Q) (env : Tick) (w : World)
      (body : Document) :
  In (Publish (mqtt_topic cfg ++ "pinstates") body)
     (snd (poll cfg lastchecktime env w)) ->
  body = Pinstates (pcapins w).
Proof.
  intros Hin. unfold poll in Hin.
  destruct (gt (time_test env) (lastchecktime + inainterval cfg));
    cbn [snd] in Hin; [| destruct Hin].
  apply in_app_or in Hin. destruct Hin as [Hin | Hin].
  - destruct (is_connected env); [| destruct Hin].
    destruct Hin as [Heq | [Heq | []]].
    + injection Heq as Htopic _.
      apply append_same_prefix in Htopic. discriminate Htopic.
    + injection Heq as <-. reflexivity.
  - destruct (isdir env); [| destruct Hin].
    destruct Hin as [Heq | []]. discriminate Heq.
Qed.

(** C5, as stated, fails on the first message after startup: the object
    published for LED also has the field "pin". *)
Lemma pinstates_three_fields_fails :
  ~ (forall cfg lastchecktime env w body,
       reachable w ->
       In (Publish (mqtt_topic cfg ++ "pinstates") body)
          (snd (poll cfg lastchecktime env w)) ->
       pinstates_document ["value"; "direction"; "state"] body).
Proof.
  intros H.
  destruct (H (mkConfig "bw/host/" 5 "/run/bw") 0%Q
              (mkTick 100 100 true false []) (boot 0)
              (Pinstates (pcapins (boot 0))) (reach_boot 0))
    as (table & Heq & _ & Hall).
  - right. left. reflexivity.
  - assert (Et : pcapins (boot 0) = table).
    { exact (f_equal (fun doc => match doc with
                                 | Pinstates t => t
                                 | Powerstats _ => pcapins (boot 0)
                                 end) Heq). }
    rewrite <- Et in Hall. rewrite Forall_forall in Hall.
    destruct (Hall ("LED", entry 0 PyNone PyNone (PyStr "default")))
      as [_ Hfields]; [vm_compute; left; reflexivity |].
    destruct (proj1 (Hfields "pin")) as [E | [E | [E | []]]];
      [left; reflexivity | discriminate E ..].
Qed.

(** C5, amended: in every reachable state, every message that the loop
    publishes on the pinstates topic is the table itself: one object per
    configured pin, under the pin's name, each with exactly the fields
    pin, value, direction and state. *)
Theorem pinstates_four_fields
        (cfg : Config) (lastchecktime : Q) (env : Tick) (w : World)
        (body : Document) :
  reachable w ->
  In (Publish (mqtt_topic cfg ++ "pinstates") body)
     (snd (poll cfg lastchecktime env w)) ->
  pinstates_document ["pin"; "value"; "direction"; "state"] body.
Proof.
  intros Hr Hin. apply pinstates_published in Hin. subst body.
  destruct (reachable_well_formed w Hr) as (Hkeys & Hall & _).
  exists (pcapins w). split; [reflexivity |]. split; [exact Hkeys |].
  eapply Forall_impl; [| exact Hall].
  intros [name e] (pin & v & d & s & He & _). cbn [snd] in *. subst e.
  split.
  - cbn. repeat constructor; cbn; intuition discriminate.
  - intros f. reflexivity.
Qed.

Lemma pinstates_four_fields_witness :
  pinstates_document ["pin"; "value"; "direction"; "state"]
                     (Pinstates (pcapins (boot 0))).
Proof.
  apply (pinstates_four_fields
           (mkConfig "bw/host/" 5 "/run/bw") 0%Q
           (mkTick 100 100 true false []) (boot 0)).
  - apply reach_boot.
  - right. left. reflexivity.
Defined.

(* ================================================================== *)
(** * Further properties of the driver *)

(** ** Bits written one after the other *)

Lemma write_bit_fails (b k v : Z) : k < 0 -> write_bit b k v = Raise ValueError.
Proof.
  intros Hk. unfold write_bit. destruct (Z.ltb_spec k 0); [reflexivity | lia].
Qed.

Lemma write_bit_again (b k v1 v2 r : Z) :
  write_bit b k v1 = Ok r -> write_bit r k v2 = write_bit b k v2.
Proof.
  intros E.
  destruct (Z_lt_le_dec k 0) as [Hneg | Hk];
    [rewrite write_bit_fails in E by assumption; discriminate |].
  destruct (write_bit r k v2) as [r2 | e] eqn:E2;
    [| rewrite write_bit_ok in E2 by assumption; discriminate].
  destruct (write_bit b k v2) as [r3 | e] eqn:E3;
    [| rewrite write_bit_ok in E3 by assumption; discriminate].
  f_equal. apply Z.bits_inj'; intros j Hj.
  rewrite (write_bit_testbit r k v2 r2 j Hk Hj E2).
  rewrite (write_bit_testbit b k v2 r3 j Hk Hj E3).
  rewrite (write_bit_testbit b k v1 r j Hk Hj E).
  destruct (j =? k); reflexivity.
Qed.

(** X1: writing the same bit twice keeps only the second value, so
    writing a bit again with the same value changes nothing. *)
Theorem write_bit_last_wins (b k v1 v2 r : Z) :
  write_bit b k v1 = Ok r -> write_bit r k v2 = write_bit b k v2.
Proof. intros E. exact (write_bit_again b k v1 v2 r E). Qed.

Lemma write_bit_last_wins_witness :
  write_bit 167 1 0 = write_bit 165 1 0.
Proof. apply (write_bit_last_wins 165 1 1 0 167). reflexivity. Defined.

(** X2: writes to two different bits can be done in either order. *)
Theorem write_bit_commutes (b k1 v1 k2 v2 r1 r2 : Z) :
  k1 <> k2 ->
  write_bit b k1 v1 = Ok r1 -> write_bit b k2 v2 = Ok r2 ->
  write_bit r1 k2 v2 = write_bit r2 k1 v1.
Proof.
  intros Hne E1 E2.
  destruct (Z_lt_le_dec k1 0) as [Hneg | Hk1];
    [rewrite write_bit_fails in E1 by assumption; discriminate |].
  destruct (Z_lt_le_dec k2 0) as [Hneg | Hk2];
    [rewrite write_bit_fails in E2 by assumption; discriminate |].
  destruct (write_bit r1 k2 v2) as [r12 | e] eqn:E12;
    [| rewrite write_bit_ok in E12 by assumption; discriminate].
  destruct (write_bit r2 k1 v1) as [r21 | e] eqn:E21;
    [| rewrite write_bit_ok in E21 by assumption; discriminate].
  f_equal. apply Z.bits_inj'; intros j Hj.
  rewrite (write_bit_testbit r1 k2 v2 r12 j Hk2 Hj E12).
  rewrite (write_bit_testbit r2 k1 v1 r21 j Hk1 Hj E21).
  rewrite (write_bit_testbit b k1 v1 r1 j Hk1 Hj E1).
  rewrite (write_bit_testbit b k2 v2 r2 j Hk2 Hj E2).
  destruct (Z.eqb_spec j k1), (Z.eqb_spec j k2); congruence.
Qed.

Lemma write_bit_commutes_witness :
  write_bit 167 6 1 = write_bit 229 1 1.
Proof.
  apply (write_bit_commutes 165 1 1 6 1 167 229).
  - discriminate.
  - reflexivity.
  - reflexivity.
Defined.

(** ** Pins that do not exist *)

(** X3: with a negative pin, each of [value], [direction] and [invert]
    raises [ValueError]; no byte goes to the chip and no shadow
    changes. *)
Theorem negative_pin_is_rejected (w : World) (p : PCA9557) (pin x : Z) :
  pca w = Some p -> pin < 0 ->
  (eval (Pca9557.value pin (Some x)) w = Raise ValueError
   /\ pca (exec (Pca9557.value pin (Some x)) w) = Some p
   /\ i2c (exec (Pca9557.value pin (Some x)) w) = i2c w)
  /\ (eval (Pca9557.direction pin x) w = Raise ValueError
      /\ pca (exec (Pca9557.direction pin x) w) = Some p
      /\ i2c (exec (Pca9557.direction pin x) w) = i2c w)
  /\ (eval (Pca9557.invert pin x) w = Raise ValueError
      /\ pca (exec (Pca9557.invert pin x) w) = Some p
      /\ i2c (exec (Pca9557.invert pin x) w) = i2c w).
Proof.
  intros Hp Hpin. destruct w as [tbl q bus log]. cbn in Hp. subst q.
  unfold eval, exec, Pca9557.value, Pca9557.direction, Pca9557.invert,
    Pca9557.debug, Pca9557.self, emit, lift, bind.
  cbn. rewrite !write_bit_fails by assumption. cbn. repeat split.
Qed.

Lemma negative_pin_is_rejected_witness :
  eval (Pca9557.direction (-1) 0) (boot 0) = Raise ValueError.
Proof.
  refine (proj1 (proj1 (proj2
    (negative_pin_is_rejected (boot 0) (mkPCA "pca9557(0x1F)" 31 255 0 0)
                              (-1) 0 _ _)))).
  - reflexivity.
  - lia.
Defined.

(** ** Reading a pin *)

Lemma shifted_bit (x pin : Z) :
  0 <= pin -> (Z.shiftr x pin) mod 2 = Z.b2z (Z.testbit x pin).
Proof.
  intros Hpin. rewrite <- Z.bit0_mod, Z.shiftr_spec by lia.
  rewrite Z.add_0_l. reflexivity.
Qed.

(** X4: [value(pin)] without a value returns the bit [pin] of the input
    port as the bus reads it, 0 or 1, whatever the output shadow holds;
    it writes nothing to the chip and changes no shadow. *)
Theorem value_reads_input_port (w : World) (p : PCA9557) (pin : Z) :
  pca w = Some p -> 0 <= pin ->
  Pca9557.value pin None w =
  (Ok (Z.b2z (Z.testbit (input_port (i2c w)) pin)),
   mkWorld (pcapins w) (pca w) (i2c w)
     (logging w ++
        [ mkLog (logger p) DEBUG ("Reading value from Pin " ++ str_int pin);
          mkLog (logger p) DEBUG
            ("Read Input port Register: " ++ fmt_08b (input_port (i2c w))) ])%list).
Proof.
  intros Hp Hpin. destruct w as [tbl q bus log]. cbn in Hp. subst q.
  unfold Pca9557.value, Pca9557.read_pin, Pca9557.read, Pca9557.debug,
    Pca9557.self, read_byte_data, emit, bind, ret, raise.
  cbn. destruct (Z.ltb_spec pin 0); [lia |].
  rewrite shifted_bit by assumption. rewrite <- app_assoc. reflexivity.
Qed.

Lemma value_reads_input_port_witness :
  eval (Pca9557.value 3 None) (boot 8) = Ok 1.
Proof.
  unfold eval.
  rewrite (value_reads_input_port (boot 8) (mkPCA "pca9557(0x1F)" 31 255 0 0) 3).
  - reflexivity.
  - reflexivity.
  - lia.
Defined.

(** ** Polarity *)

(** X5: [invert(pin, inverted)] on an existing pin returns [inverted],
    gives bit [pin] of the polarity shadow the truth value of [inverted]
    and keeps its other bits, sends the whole new byte to the polarity
    register, once, and leaves the direction and output shadows alone. *)
Theorem invert_sets_polarity (w : World) (p : PCA9557) (pin inverted : Z) :
  pca w = Some p -> 0 <= pin ->
  exists r,
    eval (Pca9557.invert pin inverted) w = Ok inverted
    /\ pca (exec (Pca9557.invert pin inverted) w) =
       Some (mkPCA (logger p) (address p) (conf p) (out p) r)
    /\ written (i2c (exec (Pca9557.invert pin inverted) w)) =
       (written (i2c w) ++ [mkTransfer (address p) REG_INV r])%list
    /\ Z.testbit r pin = truthy inverted
    /\ (forall j, j <> pin -> Z.testbit r j = Z.testbit (inv p) j).
Proof.
  intros Hp Hpin.
  destruct (write_bit (inv p) pin inverted) as [r | e] eqn:E;
    [| rewrite write_bit_ok in E by assumption; discriminate].
  exists r.
  destruct w as [tbl q bus log]. cbn in Hp. subst q.
  unfold eval, exec, Pca9557.invert, Pca9557.write_inv, Pca9557.set_inv,
    Pca9557.debug, Pca9557.self, Pca9557.assign, emit, write_byte_data,
    lift, bind, ret.
  cbn. rewrite E. cbn. repeat split.
  - rewrite (write_bit_testbit _ _ _ _ pin Hpin Hpin E), Z.eqb_refl. reflexivity.
  - intros j Hne. destruct (Z_lt_le_dec j 0).
    + rewrite !Z.testbit_neg_r by assumption. reflexivity.
    + rewrite (write_bit_testbit _ _ _ _ j Hpin ltac:(assumption) E).
      destruct (Z.eqb_spec j pin); [contradiction | reflexivity].
Qed.

Lemma invert_sets_polarity_witness :
  exists r,
    eval (Pca9557.invert 2 1) (boot 0) = Ok 1
    /\ pca (exec (Pca9557.invert 2 1) (boot 0)) =
       Some (mkPCA "pca9557(0x1F)" 31 255 0 r)
    /\ written (i2c (exec (Pca9557.invert 2 1) (boot 0))) =
       (written (i2c (boot 0)) ++ [mkTransfer 31 REG_INV r])%list
    /\ Z.testbit r 2 = truthy 1
    /\ (forall j, j <> 2 -> Z.testbit r j = Z.testbit 0 j).
Proof.
  apply (invert_sets_polarity (boot 0) (mkPCA "pca9557(0x1F)" 31 255 0 0) 2 1).
  - reflexivity.
  - lia.
Defined.

(** ** The shadows and the chip *)

Lemma last_written_app (a reg : Z) (trace : list Transfer) (t : Transfer) :
  last_written a reg (trace ++ [t]) =
  if (tr_address t =? a) && (tr_register t =? reg)
  then Some (tr_value t) else last_written a reg trace.
Proof. unfold last_written. rewrite fold_left_app. reflexivity. Qed.

Ltac run_driver :=
  unfold eval, exec, call, Pca9557.init, Pca9557.value, Pca9557.direction,
    Pca9557.invert, Pca9557.read_pin, Pca9557.read, Pca9557.write_inv,
    Pca9557.write_direction, Pca9557.write_output, Pca9557.set_conf,
    Pca9557.set_out, Pca9557.set_inv, Pca9557.debug, Pca9557.self,
    Pca9557.assign, emit, write_byte_data, read_byte_data, lift, bind, ret,
    raise;
  cbn -[last_written].

Ltac mirrored :=
  unfold tracks; cbn -[last_written];
  eexists; split; [reflexivity |]; cbn -[last_written]; split; [reflexivity |];
  rewrite ?last_written_app; cbn -[last_written];
  rewrite ?Z.eqb_refl; cbn -[last_written];
  repeat split; try assumption; try reflexivity.

Lemma call_tracks (a : Z) (c : Call) (w : World) :
  tracks a w -> tracks a (exec (call c) w).
Proof.
  intros (p & Hp & Ha & Hd & Hi & Ho).
  destruct w as [tbl q [tr inp] log]. cbn -[last_written] in Hp, Hd, Hi, Ho.
  subst q a.
  destruct p as [name a c0 o0 i0]. cbn -[last_written] in Hd, Hi, Ho.
  destruct c as [pin [v |] | pin d | pin i | pin | [v |] | [v |] | [v |] | ];
    run_driver;
    try (destruct (write_bit _ pin _) as [r | e]; cbn -[last_written]);
    try (destruct (pin <? 0); cbn -[last_written]);
    mirrored.
Qed.

Lemma init_tracks (a : Z) (w : World) :
  last_written a REG_OUT (written (i2c w)) = None ->
  tracks a (exec (Pca9557.init a) w).
Proof.
  intros Hout. destruct w as [tbl q [tr inp] log]. cbn -[last_written] in Hout.
  run_driver. unfold tracks. cbn -[last_written].
  eexists. split; [reflexivity |]. cbn -[last_written]. split; [reflexivity |].
  rewrite !last_written_app. cbn -[last_written]. rewrite !Z.eqb_refl.
  cbn -[last_written]. rewrite Hout. repeat split.
Qed.

Lemma for_each_call_tracks (a : Z) (calls : list Call) (w : World) :
  tracks a w -> tracks a (exec (for_each calls call) w).
Proof.
  revert w. induction calls as [| c calls IH]; intros w Hw; [exact Hw |].
  pose proof (call_tracks a c w Hw) as Hstep.
  unfold exec in *. cbn [for_each]. unfold bind.
  destruct (call c w) as [[[] | e] w1]; cbn [snd] in *.
  - apply IH. exact Hstep.
  - exact Hstep.
Qed.

Lemma tracks_mirrors (a : Z) (w : World) : tracks a w -> mirrors a w.
Proof.
  intros (p & Hp & Ha & Hd & Hi & Ho). exists p.
  unfold chip_register. rewrite Hd, Hi.
  repeat (split; [assumption || reflexivity |]).
  destruct (last_written a REG_OUT (written (i2c w))); cbn; congruence.
Qed.

Lemma mirrors_of_bytes (a : Z) (w : World) :
  mirrors a w -> byte_shadows w -> mirrors_exactly a w.
Proof.
  intros (p & Hp & Ha & Hd & Hi & Ho) (p' & Hp' & Hc & Hout & Hinv).
  rewrite Hp in Hp'. injection Hp' as <-.
  rewrite Z.mod_small in Hd, Hi, Ho by assumption.
  exists p. auto.
Qed.

Ltac bytes :=
  eexists; split; [reflexivity |]; cbn; repeat split;
  first [lia | eapply write_bit_byte; [| | eassumption]; lia].

Lemma call_bytes (c : Call) (w : World) :
  proper_call c -> byte_shadows w -> byte_shadows (exec (call c) w).
Proof.
  intros Hc (p & Hp & Hconf & Hout & Hinv).
  destruct w as [tbl q [tr inp] log]. cbn in Hp. subst q.
  destruct p as [name a c0 o0 i0]. cbn in Hconf, Hout, Hinv.
  destruct c as [pin [v |] | pin d | pin i | pin | [v |] | [v |] | [v |] | ];
    cbn in Hc; run_driver;
    try (destruct (write_bit _ pin _) as [r | e] eqn:E; cbn);
    try (destruct (pin <? 0); cbn);
    bytes.
Qed.

Lemma init_bytes (a : Z) (w : World) : byte_shadows (exec (Pca9557.init a) w).
Proof.
  destruct w as [tbl q [tr inp] log]. run_driver. bytes.
Qed.

Lemma for_each_call_bytes (calls : list Call) (w : World) :
  Forall proper_call calls -> byte_shadows w ->
  byte_shadows (exec (for_each calls call) w).
Proof.
  intros Hall. revert w.
  induction Hall as [| c calls Hc _ IH]; intros w Hw; [exact Hw |].
  pose proof (call_bytes c w Hc Hw) as Hstep.
  unfold exec in *. cbn [for_each]. unfold bind.
  destruct (call c w) as [[[] | e] w1]; cbn [snd] in *.
  - apply IH. exact Hstep.
  - exact Hstep.
Qed.

(** X6: the bus answering every transfer.  On a chip whose output
    register has not been written since its reset, after the driver is
    constructed and after any calls of its methods, with any arguments,
    run to the end or to the first one that raises ValueError for a
    negative pin, each register of the chip holds the low eight bits of
    its shadow: direction, polarity and output (0 while nothing was
    written to it).  The two may differ above these bits, since a pin
    beyond 7 or a value beyond 255 makes a shadow wider than the byte
    that is sent.  When every call has its pin within 0..7 and writes a
    byte where it writes a register whole, each shadow is the very byte
    the chip holds.  What a refused transfer leaves is stated on its
    own, at the end. *)
Theorem shadows_mirror_chip (a : Z) (calls : list Call) (w : World) :
  last_written a REG_OUT (written (i2c w)) = None ->
  let w' := exec (for_each calls call) (exec (Pca9557.init a) w) in
  mirrors a w' /\ (Forall proper_call calls -> mirrors_exactly a w').
Proof.
  intros Hout w'.
  assert (Hm : mirrors a w').
  { apply tracks_mirrors, for_each_call_tracks, init_tracks. exact Hout. }
  split; [exact Hm |]. intros Hall.
  apply mirrors_of_bytes; [exact Hm |].
  apply for_each_call_bytes; [exact Hall | apply init_bytes].
Qed.

Lemma shadows_mirror_chip_witness :
  mirrors 31
    (exec (for_each [CallValue 8 (Some 1); CallWriteInv (Some 300);
                     CallInvert (-2) 1; CallDirection 7 0] call)
          (exec (Pca9557.init 31) (blank 0)))
  /\ mirrors_exactly 31
       (exec (for_each [CallValue 1 (Some 1); CallDirection 1 0;
                        CallWriteOutput (Some 129); CallRead;
                        CallDirection 7 0] call)
             (exec (Pca9557.init 31) (blank 0))).
Proof.
  split.
  - apply (shadows_mirror_chip 31 _ (blank 0)). reflexivity.
  - apply (shadows_mirror_chip 31 _ (blank 0)); [reflexivity |].
    repeat constructor; cbn; lia.
Defined.


(* ================================================================== *)
(** * Further properties of the handler *)

(** ** What one entry of a command does *)

(** The four ways the loop body can go on a world of the right shape,
    leaving the log aside. *)
Lemma on_entry_cases (w : World) (key : string) (value : pyobj) :
  well_formed w ->
  exists w', on_entry (key, value) w = (Ok tt, w')
    /\ input_port (i2c w') = input_port (i2c w)
    /\ ((dict_mem key (pcapins w) = false
         /\ pcapins w' = pcapins w /\ pca w' = pca w
         /\ written (i2c w') = written (i2c w))
        \/ exists p pin v d s,
             pca w = Some p
             /\ dict_get key (pcapins w) = Some (entry pin v d s)
             /\ 0 <= pin < 8 /\ 0 <= conf p < 256 /\ 0 <= out p < 256
             /\ ((exists bit word o c,
                    ((bit = 0 /\ word = "off"
                      /\ str_in (lower (py_str value)) off_words = true)
                     \/ (bit = 1 /\ word = "on"
                         /\ str_in (lower (py_str value)) on_words = true))
                    /\ write_bit (out p) pin bit = Ok o
                    /\ write_bit (conf p) pin DIR_OUT = Ok c
                    /\ pcapins w' =
                       dict_set key (entry pin (PyInt bit) (PyInt DIR_OUT) (PyStr word))
                                (pcapins w)
                    /\ pca w' = Some (mkPCA (logger p) (address p) c o (inv p))
                    /\ written (i2c w') =
                       (written (i2c w) ++ [ mkTransfer (address p) REG_OUT o;
                                             mkTransfer (address p) REG_DIR c ])%list)
                 \/ (str_in (lower (py_str value)) default_words = true
                     /\ exists c,
                          write_bit (conf p) pin DIR_IN = Ok c
                          /\ pcapins w' =
                             dict_set key (entry pin v (PyInt DIR_IN) (PyStr "default"))
                                      (pcapins w)
                          /\ pca w' = Some (mkPCA (logger p) (address p) c (out p) (inv p))
                          /\ written (i2c w') =
                             (written (i2c w) ++ [mkTransfer (address p) REG_DIR c])%list)
                 \/ (str_in (lower (py_str value)) off_words = false
                     /\ str_in (lower (py_str value)) on_words = false
                     /\ str_in (lower (py_str value)) default_words = false
                     /\ pcapins w' = pcapins w /\ pca w' = pca w
                     /\ written (i2c w') = written (i2c w)))).
Proof.
  intros (Hkeys & Hall & p & Hp & Hconf & Hout & Hinv).
  destruct (dict_mem key (pcapins w)) eqn:Hmem.
  - destruct (proj1 (dict_mem_get key (pcapins w)) Hmem) as [e Hget].
    destruct (Forall_dict_get entry_ok key e (pcapins w) Hall Hget)
      as (pin & v & d & s & -> & Hpin & _).
    destruct (str_in (lower (py_str value)) off_words) eqn:H0;
      [| destruct (str_in (lower (py_str value)) on_words) eqn:H1;
         [| destruct (str_in (lower (py_str value)) default_words) eqn:H2 ] ].
    + eexists. split.
      { eapply on_entry_forced;
          [exact Hp | exact Hget | left; repeat split; first [exact H0 | reflexivity] | |];
          apply write_bit_ok; lia. }
      cbn [pcapins pca i2c written input_port]. split; [reflexivity |].
      right. exists p, pin, v, d, s. repeat (split; [assumption || lia |]).
      left. eexists 0, "off", _, _. split; [left; repeat split; first [exact H0 | reflexivity] |].
      split; [apply write_bit_ok; lia |]. split; [apply write_bit_ok; lia |].
      repeat split.
    + eexists. split.
      { eapply on_entry_forced;
          [exact Hp | exact Hget | right; repeat split; first [exact H1 | reflexivity] | |];
          apply write_bit_ok; lia. }
      cbn [pcapins pca i2c written input_port]. split; [reflexivity |].
      right. exists p, pin, v, d, s. repeat (split; [assumption || lia |]).
      left. eexists 1, "on", _, _. split; [right; repeat split; first [exact H1 | reflexivity] |].
      split; [apply write_bit_ok; lia |]. split; [apply write_bit_ok; lia |].
      repeat split.
    + eexists. split.
      { eapply on_entry_released; [exact Hp | exact Hget | first [exact H2 | reflexivity] |].
        apply write_bit_ok; lia. }
      cbn [pcapins pca i2c written input_port]. split; [reflexivity |].
      right. exists p, pin, v, d, s. repeat (split; [assumption || lia |]).
      right. left. split; [first [exact H2 | reflexivity] |]. eexists.
      split; [apply write_bit_ok; lia |]. repeat split.
    + eexists. split.
      { eapply on_entry_invalid; eassumption. }
      cbn [pcapins pca i2c written input_port]. split; [reflexivity |].
      right. exists p, pin, v, d, s. repeat (split; [assumption || lia |]).
      right. right. repeat split; first [assumption | reflexivity].
  - eexists. split; [apply on_entry_unknown; exact Hmem |].
    cbn [pcapins pca i2c written input_port]. split; [reflexivity |].
    left. repeat split.
Qed.

(** ** Names and pins *)

Lemma configured_pins_get (t : dict (dict pyobj)) (name : string) (e : dict pyobj) :
  dict_get name t = Some e ->
  dict_get name (configured_pins t) = Some (dict_get "pin" e).
Proof.
  unfold configured_pins.
  induction t as [| [k x] t IH]; cbn; [discriminate |].
  destruct (String.eqb name k); [intros [= ->]; reflexivity | exact IH].
Qed.

Lemma configured_pins_set (t : dict (dict pyobj)) (key : string) (e e' : dict pyobj) :
  dict_get key t = Some e -> dict_get "pin" e' = dict_get "pin" e ->
  configured_pins (dict_set key e' t) = configured_pins t.
Proof.
  intros Hget Hpin. unfold configured_pins.
  induction t as [| [k x] t IH]; cbn in *; [discriminate |].
  destruct (String.eqb key k) eqn:E; cbn.
  - injection Hget as ->. rewrite Hpin. reflexivity.
  - rewrite IH by assumption. reflexivity.
Qed.

(** No two names of the literal share a pin. *)
Lemma literal_pins_differ (n n' : string) (pin : option pyobj) :
  dict_get n (configured_pins pcapins_literal) = Some pin ->
  dict_get n' (configured_pins pcapins_literal) = Some pin ->
  n = n'.
Proof.
  cbn.
  repeat match goal with
         | |- context [String.eqb ?a ?b] => destruct (String.eqb_spec a b)
         end;
    intros H1 H2; try congruence; try discriminate.
Qed.

Lemma pins_differ (t : dict (dict pyobj)) (n n' : string)
      (pin : Z) (v d s v' d' s' : pyobj) :
  configured_pins t = configured_pins pcapins_literal ->
  dict_get n t = Some (entry pin v d s) ->
  dict_get n' t = Some (entry pin v' d' s') ->
  n = n'.
Proof.
  intros Hcfg H1 H2.
  apply configured_pins_get in H1, H2. rewrite Hcfg in H1, H2.
  exact (literal_pins_differ n n' _ H1 H2).
Qed.

(** ** The table and the shadows stay in step *)

Lemma entry_in_step_other (p p' : PCA9557) (e : dict pyobj) :
  (forall pin v d s, e = entry pin v d s ->
     Z.testbit (conf p') pin = Z.testbit (conf p) pin
     /\ Z.testbit (out p') pin = Z.testbit (out p) pin) ->
  entry_in_step p e -> entry_in_step p' e.
Proof.
  intros Hsame (pin & v & d & s & He & Hs & Hd & Hv).
  destruct (Hsame pin v d s He) as [Ec Eo].
  exists pin, v, d, s. rewrite Ec, Eo. repeat split; assumption.
Qed.

Lemma entry_injective (pin pin' : Z) (v d s v' d' s' : pyobj) :
  entry pin v d s = entry pin' v' d' s' ->
  pin = pin' /\ v = v' /\ d = d' /\ s = s'.
Proof. unfold entry. intros [= -> -> -> ->]. repeat split. Qed.

Lemma on_entry_in_step (w : World) (kv : string * pyobj) :
  well_formed w -> in_step w -> in_step (exec (on_entry kv) w).
Proof.
  intros Hw (Hcfg & p0 & Hp0 & Haddr & Hinv0 & Hstep).
  destruct kv as [key value].
  destruct (on_entry_cases w key value Hw)
    as (w' & Erun & _ & [(_ & Et & Ep & _) |
        (p & pin & v & d & s & Hp & Hget & Hpin & Hconf & Hout & Hcase)]).
  - unfold exec. rewrite Erun. cbn [snd]. unfold in_step.
    rewrite Et, Ep. split; [exact Hcfg |]. exists p0. auto.
  - unfold exec. rewrite Erun. cbn [snd].
    rewrite Hp in Hp0. injection Hp0 as <-.
    destruct (Hstep key _ Hget) as (pin0 & v0 & d0 & s0 & He & Hs & Hd & Hv).
    apply entry_injective in He. destruct He as (<- & <- & <- & <-).
    assert (Hothers : forall c o name e,
      (forall j, 0 <= j -> j <> pin -> Z.testbit c j = Z.testbit (conf p) j) ->
      (forall j, 0 <= j -> j <> pin -> Z.testbit o j = Z.testbit (out p) j) ->
      name <> key -> dict_get name (pcapins w) = Some e ->
      entry_in_step (mkPCA (logger p) (address p) c o (inv p)) e).
    { intros c o name e Hc Ho Hne Hname.
      apply (entry_in_step_other p); [| exact (Hstep name e Hname)].
      intros pin' v' d' s' ->. cbn [conf out].
      assert (pin' <> pin).
      { intros ->. apply Hne. exact (pins_differ _ _ _ _ _ _ _ _ _ _ Hcfg Hname Hget). }
      destruct (Forall_dict_get entry_ok name _ (pcapins w)
                  (proj1 (proj2 Hw)) Hname)
        as (pin1 & v1 & d1 & s1 & He1 & Hpin1 & _).
      apply entry_injective in He1. destruct He1 as (-> & _).
      split; [apply Hc | apply Ho]; lia. }
    assert (Hbits : forall b x r, write_bit b pin x = Ok r ->
      Z.testbit r pin = truthy x
      /\ forall j, 0 <= j -> j <> pin -> Z.testbit r j = Z.testbit b j).
    { intros b x r E. split.
      - rewrite (write_bit_testbit b pin x r pin) by (lia || exact E).
        rewrite Z.eqb_refl. reflexivity.
      - intros j Hj Hne.
        rewrite (write_bit_testbit b pin x r j) by (lia || exact E).
        destruct (Z.eqb_spec j pin); [contradiction | reflexivity]. }
    destruct Hcase as [(bit & word & o & c & Hword & Eo & Ec & Et & Ep & _) |
                       [(_ & c & Ec & Et & Ep & _) | (_ & _ & _ & Et & Ep & _)]].
    + destruct (Hbits _ _ _ Eo) as [Ho1 Ho2].
      destruct (Hbits _ _ _ Ec) as [Hc1 Hc2].
      unfold in_step. rewrite Et, Ep. split.
      * rewrite (configured_pins_set _ key _ _ Hget) by reflexivity. exact Hcfg.
      * eexists. split; [reflexivity |]. cbn [address inv].
        split; [exact Haddr |]. split; [exact Hinv0 |].
        intros name e Hname.
        destruct (String.eqb_spec name key) as [-> | Hne].
        -- rewrite dict_get_set_same in Hname. injection Hname as <-.
           exists pin, (PyInt bit), (PyInt DIR_OUT), (PyStr word).
           cbn [conf out direction_bit level_bit]. rewrite Ho1, Hc1.
           split; [reflexivity |]. split; [| split; reflexivity].
           destruct Hword as [(_ & -> & _) | (_ & -> & _)]; cbn; auto.
        -- rewrite dict_get_set_other in Hname by exact Hne.
           apply (Hothers c o name e Hc2 Ho2 Hne Hname).
    + destruct (Hbits _ _ _ Ec) as [Hc1 Hc2].
      unfold in_step. rewrite Et, Ep. split.
      * rewrite (configured_pins_set _ key _ _ Hget) by reflexivity. exact Hcfg.
      * eexists. split; [reflexivity |]. cbn [address inv].
        split; [exact Haddr |]. split; [exact Hinv0 |].
        intros name e Hname.
        destruct (String.eqb_spec name key) as [-> | Hne].
        -- rewrite dict_get_set_same in Hname. injection Hname as <-.
           exists pin, v, (PyInt DIR_IN), (PyStr "default").
           cbn [conf out direction_bit]. rewrite Hc1.
           split; [reflexivity |]. split; [cbn; auto |].
           split; [reflexivity | exact Hv].
        -- rewrite dict_get_set_other in Hname by exact Hne.
           apply (Hothers c (out p) name e Hc2 ltac:(reflexivity) Hne Hname).
    + unfold in_step. rewrite Et, Ep. split; [exact Hcfg |].
      exists p. auto.
Qed.

Lemma for_each_in_step (kvs : list (string * pyobj)) (w : World) :
  well_formed w -> in_step w -> in_step (exec (for_each kvs on_entry) w).
Proof.
  revert w. induction kvs as [| kv kvs IH]; intros w Hw Hs; [exact Hs |].
  destruct (on_entry_well_formed w kv Hw) as [Hev Hwf].
  pose proof (on_entry_in_step w kv Hw Hs) as Hs1.
  unfold eval, exec in *. cbn [for_each].
  destruct (on_entry kv w) as [r w1] eqn:E. cbn [fst snd] in *. subst r.
  erewrite bind_ok by exact E. apply IH; assumption.
Qed.

Lemma mqtt_on_message_in_step (w : World) (msg : MQTTMessage)
      (loads : result pyobj) :
  well_formed w -> in_step w -> in_step (exec (mqtt_on_message msg loads) w).
Proof.
  intros Hw Hs. unfold exec, mqtt_on_message.
  destruct (bytes_decode (payload msg)) as [text | e] eqn:Hdec.
  - erewrite bind_ok by reflexivity.
    erewrite bind_ok by apply emit_eq.
    destruct loads as [command | []]; try exact Hs.
    unfold dispatch. destruct command; try exact Hs.
    erewrite bind_ok by reflexivity.
    apply for_each_in_step; [exact Hw | exact Hs].
  - erewrite bind_raise by reflexivity. exact Hs.
Qed.

Lemma boot_in_step (inputs : Z) : in_step (boot inputs).
Proof.
  split; [reflexivity |].
  eexists. split; [reflexivity |]. cbn [address inv].
  split; [reflexivity |]. split; [reflexivity |].
  intros name e. cbn.
  repeat match goal with
         | |- context [String.eqb ?a ?b] => destruct (String.eqb a b)
         end;
    intros [= <-];
    eexists _, _, _, _; (split; [reflexivity |]); cbn; auto.
Qed.

Lemma reachable_in_step (w : World) : reachable w -> in_step w.
Proof.
  induction 1 as [inputs | w msg loads Hr IH].
  - apply boot_in_step.
  - apply mqtt_on_message_in_step; [apply reachable_well_formed |]; assumption.
Qed.

(** X7: in every reachable state the table still has the eight names of
    the literal, in its order, each with the pin index the literal gives
    it: no command renames, adds, removes or remaps a pin. *)
Theorem pins_stay_configured (w : World) :
  reachable w ->
  configured_pins (pcapins w) =
  [ ("LED", Some (PyInt 0)); ("IO1", Some (PyInt 1)); ("IO2", Some (PyInt 2));
    ("IO3", Some (PyInt 3)); ("IO4", Some (PyInt 4)); ("USB2", Some (PyInt 5));
    ("USB1", Some (PyInt 6)); ("EXT", Some (PyInt 7)) ].
Proof.
  intros Hr. destruct (reachable_in_step w Hr) as [Hcfg _]. exact Hcfg.
Qed.

Lemma pins_stay_configured_witness :
  configured_pins
    (pcapins (exec (mqtt_on_message (mkMsg "bw/host/command" [x7b; x7d])
                      (Ok (PyDict [("USB1", PyStr "off"); ("pin", PyInt 9)])))
                   (boot 0))) =
  [ ("LED", Some (PyInt 0)); ("IO1", Some (PyInt 1)); ("IO2", Some (PyInt 2));
    ("IO3", Some (PyInt 3)); ("IO4", Some (PyInt 4)); ("USB2", Some (PyInt 5));
    ("USB1", Some (PyInt 6)); ("EXT", Some (PyInt 7)) ].
Proof.
  apply pins_stay_configured. apply reach_message. apply reach_boot.
Defined.

(** X8: in every state that startup and the handling of messages lead
    to, the bus having answered every transfer on the way, the mode of
    each pin is "on", "off" or "default", and the shadows of the driver
    hold what the mode says: for "on" the pin's direction bit is 0
    (output) and its output bit 1, for "off" both bits are 0, for
    "default" the direction bit is 1 (input); the polarity shadow is
    0.  What a refused transfer does to this agreement is stated on
    its own, at the end. *)
Theorem modes_are_in_the_shadows
        (w : World) (name : string) (pin : Z) (v d s : pyobj) (p : PCA9557) :
  reachable w ->
  dict_get name (pcapins w) = Some (entry pin v d s) ->
  pca w = Some p ->
  In s [PyStr "on"; PyStr "off"; PyStr "default"]
  /\ (s = PyStr "on" ->
        Z.testbit (conf p) pin = false /\ Z.testbit (out p) pin = true)
  /\ (s = PyStr "off" ->
        Z.testbit (conf p) pin = false /\ Z.testbit (out p) pin = false)
  /\ (s = PyStr "default" -> Z.testbit (conf p) pin = true)
  /\ inv p = 0.
Proof.
  intros Hr Hget Hp.
  destruct (reachable_in_step w Hr) as (_ & p0 & Hp0 & _ & Hinv & Hstep).
  rewrite Hp in Hp0. injection Hp0 as <-.
  destruct (Hstep name _ Hget) as (pin0 & v0 & d0 & s0 & He & Hs & Hd & Hv).
  apply entry_injective in He. destruct He as (<- & <- & <- & <-).
  destruct (reachable_entry w name _ Hr Hget)
    as (pin1 & v1 & d1 & s1 & _ & _ & Hdef & Hon & Hoff).
  cbn in Hdef, Hon, Hoff.
  split; [exact Hs |]. split; [| split; [| split]].
  - intros ->. destruct (Hon eq_refl) as [[= ->] [= ->]].
    cbn in Hd, Hv. injection Hd as <-. injection Hv as <-. split; reflexivity.
  - intros ->. destruct (Hoff eq_refl) as [[= ->] [= ->]].
    cbn in Hd, Hv. injection Hd as <-. injection Hv as <-. split; reflexivity.
  - intros ->. destruct (Hdef eq_refl) as [[= ->] | [= ->]];
      cbn in Hd; injection Hd as <-; reflexivity.
  - exact Hinv.
Qed.

Lemma modes_are_in_the_shadows_witness :
  In (PyStr "on") [PyStr "on"; PyStr "off"; PyStr "default"]
  /\ (PyStr "on" = PyStr "on" ->
        Z.testbit 253 1 = false /\ Z.testbit 2 1 = true)
  /\ (PyStr "on" = PyStr "off" ->
        Z.testbit 253 1 = false /\ Z.testbit 2 1 = false)
  /\ (PyStr "on" = PyStr "default" -> Z.testbit 253 1 = true)
  /\ 0 = 0.
Proof.
  apply (modes_are_in_the_shadows
           (exec (mqtt_on_message (mkMsg "bw/host/command" [x7b; x7d])
                    (Ok (PyDict [("IO1", PyStr "on")])))
                 (boot 0))
           "IO1" 1 (PyInt 1) (PyInt 0) (PyStr "on")
           (mkPCA "pca9557(0x1F)" 31 253 2 0)).
  - apply reach_message. apply reach_boot.
  - vm_compute. reflexivity.
  - vm_compute. reflexivity.
Defined.

(** ** When the handler returns *)

(** X9: what a message does to the handler, on a reachable state.  A
    payload that is not UTF-8 text raises the decoding error at line
    169, before anything is logged or done.  When the payload is text
    and [json.loads] raises another exception than [JSONDecodeError],
    that exception leaves the handler, and when [json.loads] returns a
    value that is not a dictionary, [AttributeError] does; in both
    cases nothing is sent to the chip and neither the table nor the
    shadows change.  On every other message, that is when the payload
    is text and [json.loads] raises [JSONDecodeError] or returns a
    dictionary, whatever its keys and values, the handler returns
    normally, the bus answering every transfer it makes; the case of a
    refused transfer is stated on its own, at the end. *)
Theorem handler_outcome
        (w : World) (msg : MQTTMessage) (loads : result pyobj) :
  reachable w ->
  let w' := exec (mqtt_on_message msg loads) w in
  let same := pcapins w' = pcapins w /\ pca w' = pca w /\ i2c w' = i2c w in
  (forall e, bytes_decode (payload msg) = Raise e ->
     mqtt_on_message msg loads w = (Raise e, w))
  /\ (forall text e,
        bytes_decode (payload msg) = Ok text ->
        loads = Raise e -> e <> JSONDecodeError ->
        eval (mqtt_on_message msg loads) w = Raise e /\ same)
  /\ (forall text command,
        bytes_decode (payload msg) = Ok text ->
        loads = Ok command -> (forall kvs, command <> PyDict kvs) ->
        eval (mqtt_on_message msg loads) w = Raise AttributeError /\ same)
  /\ (forall text,
        bytes_decode (payload msg) = Ok text ->
        loads = Raise JSONDecodeError \/ (exists kvs, loads = Ok (PyDict kvs)) ->
        eval (mqtt_on_message msg loads) w = Ok tt).
Proof.
  intros Hr w' same. subst same w'.
  pose proof (reachable_well_formed w Hr) as Hw.
  unfold eval, exec, mqtt_on_message.
  split; [| split; [| split]].
  - intros e Hdec. rewrite Hdec. reflexivity.
  - intros text e Hdec -> Hne. rewrite Hdec.
    erewrite bind_ok by reflexivity.
    erewrite bind_ok by apply emit_eq.
    destruct e; try solve [cbn; repeat split].
    exfalso. apply Hne. reflexivity.
  - intros text command Hdec -> Hnot. rewrite Hdec.
    erewrite bind_ok by reflexivity.
    erewrite bind_ok by apply emit_eq.
    unfold dispatch.
    destruct command as [| b | n | t | s | l | kvs];
      try solve [cbn; repeat split].
    exfalso. apply (Hnot kvs). reflexivity.
  - intros text Hdec Hloads. rewrite Hdec.
    erewrite bind_ok by reflexivity.
    erewrite bind_ok by apply emit_eq.
    destruct Hloads as [-> | [kvs ->]]; [reflexivity |].
    unfold dispatch. erewrite bind_ok by reflexivity.
    apply (for_each_well_formed kvs _). exact Hw.
Qed.

Lemma handler_outcome_witness :
  eval (mqtt_on_message
          (mkMsg "bw/host/command"
                 [x7b; x22; x49; x4f; x31; x22; x3a; x20;
                  x22; x6f; x66; x66; x22; x7d])
          (Ok (PyDict [("IO1", PyStr "off")])))
       (boot 0) = Ok tt
  /\ eval (mqtt_on_message (mkMsg "bw/host/command" [x34; x32]) (Ok (PyInt 42)))
          (boot 0) = Raise AttributeError.
Proof.
  split.
  - eapply (handler_outcome (boot 0)
              (mkMsg "bw/host/command"
                     [x7b; x22; x49; x4f; x31; x22; x3a; x20;
                      x22; x6f; x66; x66; x22; x7d])
              (Ok (PyDict [("IO1", PyStr "off")])) (reach_boot 0)).
    + reflexivity.
    + right. eexists. reflexivity.
  - eapply (handler_outcome (boot 0) (mkMsg "bw/host/command" [x34; x32])
              (Ok (PyInt 42)) (reach_boot 0)).
    + reflexivity.
    + reflexivity.
    + intros kvs H. discriminate H.
Defined.

(** ** The other commands *)

(** X10: on a reachable state, the command that pairs a recognized pin
    name with a value whose lowercased text is "0", "off" or "false"
    returns normally; it leaves that pin's entry with the level 0, the
    direction OUT and the mode "off", writes exactly two bytes to the
    chip, the output register with the pin's bit cleared and then the
    direction register with the pin's bit cleared, and leaves the entry
    of every other pin as it was. *)
Theorem off_command_forces_pin (w : World) (key : string) (value : pyobj) :
  reachable w ->
  dict_mem key (pcapins w) = true ->
  str_in (lower (py_str value)) off_words = true ->
  let w' := exec (dispatch (PyDict [(key, value)])) w in
  eval (dispatch (PyDict [(key, value)])) w = Ok tt
  /\ (exists pin p p',
        item key "pin" w = (Ok (PyInt pin), w)
        /\ dict_get key (pcapins w') =
           Some (entry pin (PyInt 0) (PyInt DIR_OUT) (PyStr "off"))
        /\ pca w = Some p /\ pca w' = Some p'
        /\ write_bit (out p) pin 0 = Ok (out p')
        /\ write_bit (conf p) pin DIR_OUT = Ok (conf p')
        /\ inv p' = inv p
        /\ written (i2c w') =
           (written (i2c w) ++ [ mkTransfer (address p) REG_OUT (out p');
                                 mkTransfer (address p) REG_DIR (conf p') ])%list)
  /\ (forall other, other <> key ->
        dict_get other (pcapins w') = dict_get other (pcapins w)).
Proof.
  intros Hr Hmem Hoff w'. subst w'. unfold eval, exec.
  rewrite dispatch_one. cbn [fst snd].
  destruct (reachable_well_formed w Hr) as (_ & Hall & p & Hp & _).
  destruct (proj1 (dict_mem_get key (pcapins w)) Hmem) as [e Hget].
  destruct (Forall_dict_get entry_ok key e (pcapins w) Hall Hget)
    as (pin & v & d & s & -> & Hpin & _).
  erewrite on_entry_forced
    by (try eassumption; try (left; repeat split; eassumption);
        apply write_bit_ok; lia).
  cbn [fst snd pcapins pca i2c written].
  split; [reflexivity |]. split.
  - eexists pin, p, _.
    split; [apply (item_entry w key "pin" _ _ Hget); reflexivity |].
    split; [apply dict_get_set_same |].
    split; [exact Hp |]. split; [reflexivity |]. cbn [out conf inv].
    split; [apply write_bit_ok; lia |].
    split; [apply write_bit_ok; lia |].
    split; reflexivity.
  - intros other Hne. apply dict_get_set_other. exact Hne.
Qed.

Lemma off_command_forces_pin_witness :
  let w := boot 0 in
  let w' := exec (dispatch (PyDict [("EXT", PyBool false)])) w in
  eval (dispatch (PyDict [("EXT", PyBool false)])) w = Ok tt
  /\ (exists pin p p',
        item "EXT" "pin" w = (Ok (PyInt pin), w)
        /\ dict_get "EXT" (pcapins w') =
           Some (entry pin (PyInt 0) (PyInt DIR_OUT) (PyStr "off"))
        /\ pca w = Some p /\ pca w' = Some p'
        /\ write_bit (out p) pin 0 = Ok (out p')
        /\ write_bit (conf p) pin DIR_OUT = Ok (conf p')
        /\ inv p' = inv p
        /\ written (i2c w') =
           (written (i2c w) ++ [ mkTransfer (address p) REG_OUT (out p');
                                 mkTransfer (address p) REG_DIR (conf p') ])%list)
  /\ (forall other, other <> "EXT" ->
        dict_get other (pcapins w') = dict_get other (pcapins w)).
Proof.
  apply (off_command_forces_pin (boot 0) "EXT" (PyBool false)).
  - apply reach_boot.
  - reflexivity.
  - reflexivity.
Defined.

(** X11: on a reachable state, the command that pairs a recognized pin
    name with a value whose lowercased text is "-1", "release" or
    "default" returns normally; it leaves that pin's entry with the
    direction IN and the mode "default" and with the level it had,
    writes exactly one byte to the chip, the direction register with the
    pin's bit set, keeps the output shadow, and leaves the entry of
    every other pin as it was. *)
Theorem release_command_frees_pin (w : World) (key : string) (value : pyobj) :
  reachable w ->
  dict_mem key (pcapins w) = true ->
  str_in (lower (py_str value)) default_words = true ->
  let w' := exec (dispatch (PyDict [(key, value)])) w in
  eval (dispatch (PyDict [(key, value)])) w = Ok tt
  /\ (exists pin v d s p p',
        dict_get key (pcapins w) = Some (entry pin v d s)
        /\ dict_get key (pcapins w') =
           Some (entry pin v (PyInt DIR_IN) (PyStr "default"))
        /\ pca w = Some p /\ pca w' = Some p'
        /\ write_bit (conf p) pin DIR_IN = Ok (conf p')
        /\ out p' = out p /\ inv p' = inv p
        /\ written (i2c w') =
           (written (i2c w) ++ [mkTransfer (address p) REG_DIR (conf p')])%list)
  /\ (forall other, other <> key ->
        dict_get other (pcapins w') = dict_get other (pcapins w)).
Proof.
  intros Hr Hmem Hdef w'. subst w'. unfold eval, exec.
  rewrite dispatch_one. cbn [fst snd].
  destruct (reachable_well_formed w Hr) as (_ & Hall & p & Hp & _).
  destruct (proj1 (dict_mem_get key (pcapins w)) Hmem) as [e Hget].
  destruct (Forall_dict_get entry_ok key e (pcapins w) Hall Hget)
    as (pin & v & d & s & -> & Hpin & _).
  erewrite on_entry_released by (try eassumption; apply write_bit_ok; lia).
  cbn [fst snd pcapins pca i2c written].
  split; [reflexivity |]. split.
  - eexists pin, v, d, s, p, _.
    split; [exact Hget |].
    split; [apply dict_get_set_same |].
    split; [exact Hp |]. split; [reflexivity |]. cbn [out conf inv].
    split; [apply write_bit_ok; lia |]. repeat split.
  - intros other Hne. apply dict_get_set_other. exact Hne.
Qed.

Lemma release_command_frees_pin_witness :
  let w := exec (mqtt_on_message (mkMsg "bw/host/command" [x7b; x7d])
                                 (Ok (PyDict [("IO2", PyStr "on")])))
                (boot 0) in
  let w' := exec (dispatch (PyDict [("IO2", PyStr "RELEASE")])) w in
  eval (dispatch (PyDict [("IO2", PyStr "RELEASE")])) w = Ok tt
  /\ (exists pin v d s p p',
        dict_get "IO2" (pcapins w) = Some (entry pin v d s)
        /\ dict_get "IO2" (pcapins w') =
           Some (entry pin v (PyInt DIR_IN) (PyStr "default"))
        /\ pca w = Some p /\ pca w' = Some p'
        /\ write_bit (conf p) pin DIR_IN = Ok (conf p')
        /\ out p' = out p /\ inv p' = inv p
        /\ written (i2c w') =
           (written (i2c w) ++ [mkTransfer (address p) REG_DIR (conf p')])%list)
  /\ (forall other, other <> "IO2" ->
        dict_get other (pcapins w') = dict_get other (pcapins w)).
Proof.
  apply (release_command_frees_pin
           (exec (mqtt_on_message (mkMsg "bw/host/command" [x7b; x7d])
                                  (Ok (PyDict [("IO2", PyStr "on")])))
                 (boot 0))
           "IO2" (PyStr "RELEASE")).
  - apply reach_message. apply reach_boot.
  - vm_compute. reflexivity.
  - reflexivity.
Defined.

(** ** What the handler sends to the chip *)

Lemma handler_transfer_intro (a reg x : Z) :
  a = PCA9557_ADDRESS -> reg = REG_OUT \/ reg = REG_DIR -> 0 <= x < 256 ->
  handler_transfer (mkTransfer a reg x).
Proof. intros Ha Hreg Hx. split; [exact Ha |]. split; [exact Hreg | exact Hx]. Qed.

Lemma on_entry_transfers (w : World) (kv : string * pyobj) :
  well_formed w -> in_step w ->
  exists sent,
    written (i2c (exec (on_entry kv) w)) = (written (i2c w) ++ sent)%list
    /\ Forall handler_transfer sent
    /\ input_port (i2c (exec (on_entry kv) w)) = input_port (i2c w).
Proof.
  intros Hw (_ & p0 & Hp0 & Haddr & _). destruct kv as [key value].
  destruct (on_entry_cases w key value Hw)
    as (w' & Erun & Hin & [(_ & _ & _ & Etr) |
        (p & pin & v & d & s & Hp & Hget & Hpin & Hconf & Hout & Hcase)]);
    unfold exec; rewrite Erun; cbn [snd].
  - exists []. rewrite app_nil_r. auto.
  - rewrite Hp in Hp0. injection Hp0 as <-.
    destruct Hcase as [(bit & word & o & c & _ & Eo & Ec & _ & _ & Etr) |
                       [(_ & c & Ec & _ & _ & Etr) | (_ & _ & _ & _ & _ & Etr)]].
    + eexists. split; [exact Etr |]. split; [| exact Hin].
      constructor; [| constructor; [| constructor]].
      * apply handler_transfer_intro; [exact Haddr | left; reflexivity |].
        eapply write_bit_byte; [exact Hout | exact Hpin | exact Eo].
      * apply handler_transfer_intro; [exact Haddr | right; reflexivity |].
        eapply write_bit_byte; [exact Hconf | exact Hpin | exact Ec].
    + eexists. split; [exact Etr |]. split; [| exact Hin].
      constructor; [| constructor].
      apply handler_transfer_intro; [exact Haddr | right; reflexivity |].
      eapply write_bit_byte; [exact Hconf | exact Hpin | exact Ec].
    + exists []. rewrite app_nil_r. auto.
Qed.

Lemma for_each_transfers (kvs : list (string * pyobj)) (w : World) :
  well_formed w -> in_step w ->
  exists sent,
    written (i2c (exec (for_each kvs on_entry) w)) = (written (i2c w) ++ sent)%list
    /\ Forall handler_transfer sent
    /\ input_port (i2c (exec (for_each kvs on_entry) w)) = input_port (i2c w).
Proof.
  revert w. induction kvs as [| kv kvs IH]; intros w Hw Hs.
  - exists []. cbn. rewrite app_nil_r. auto.
  - destruct (on_entry_well_formed w kv Hw) as [Hev Hwf].
    pose proof (on_entry_in_step w kv Hw Hs) as Hs1.
    destruct (on_entry_transfers w kv Hw Hs) as (sent1 & E1 & F1 & I1).
    unfold eval, exec in *. cbn [for_each].
    destruct (on_entry kv w) as [r w1] eqn:E. cbn [fst snd] in *. subst r.
    erewrite bind_ok by exact E.
    destruct (IH w1 Hwf Hs1) as (sent2 & E2 & F2 & I2).
    exists (sent1 ++ sent2)%list.
    rewrite E2, E1, I2, I1, app_assoc.
    split; [reflexivity |]. split; [| reflexivity].
    apply Forall_app. split; assumption.
Qed.

(** X12: on a reachable state, whatever the message and whatever
    [json.loads] does on it, the handler only adds to what was sent on
    the bus, and every byte it sends goes to the expander at 0x1F, to
    its output or its direction register, and is in 0..255: the handler
    never writes the polarity register. *)
Theorem handler_sends_output_and_direction
        (w : World) (msg : MQTTMessage) (loads : result pyobj) :
  reachable w ->
  exists sent,
    written (i2c (exec (mqtt_on_message msg loads) w)) =
    (written (i2c w) ++ sent)%list
    /\ Forall handler_transfer sent.
Proof.
  intros Hr.
  pose proof (reachable_well_formed w Hr) as Hw.
  pose proof (reachable_in_step w Hr) as Hs.
  assert (Hnone : exists sent,
             written (i2c w) = (written (i2c w) ++ sent)%list
             /\ Forall handler_transfer sent)
    by (exists []; rewrite app_nil_r; auto).
  unfold exec, mqtt_on_message.
  destruct (bytes_decode (payload msg)) as [text | e] eqn:Hdec.
  - erewrite bind_ok by reflexivity.
    erewrite bind_ok by apply emit_eq.
    destruct loads as [command | []]; try exact Hnone.
    unfold dispatch.
    destruct command as [| b | n | t | s | l | kvs]; try exact Hnone.
    erewrite bind_ok by reflexivity.
    destruct (for_each_transfers kvs
                (mkWorld (pcapins w) (pca w) (i2c w)
                   (logging w ++
                      [mkLog "root" INFO
                         ("MQTT message received on " ++ topic msg ++ ": " ++ text)]))
                Hw Hs) as (sent & E & F & _).
    exists sent. split; [exact E | exact F].
  - erewrite bind_raise by reflexivity. exact Hnone.
Qed.

Lemma handler_sends_output_and_direction_witness :
  exists sent,
    written (i2c (exec (mqtt_on_message (mkMsg "bw/host/command" [x7b; x7d])
                          (Ok (PyDict [("LED", PyInt 1); ("IO4", PyInt (-1))])))
                       (boot 0))) =
    (written (i2c (boot 0)) ++ sent)%list
    /\ Forall handler_transfer sent.
Proof.
  apply handler_sends_output_and_direction. apply reach_boot.
Defined.

(** ** One command after another *)

(** X13: on a reachable state, a command that forces a recognized pin on
    or off overrides whatever an earlier command for the same pin did:
    the table and the shadows are those that the forcing command alone
    would have left. *)
Theorem forcing_command_overrides
        (w : World) (key : string) (earlier value : pyobj) :
  reachable w ->
  dict_mem key (pcapins w) = true ->
  str_in (lower (py_str value)) on_words = true
  \/ str_in (lower (py_str value)) off_words = true ->
  let both := exec (dispatch (PyDict [(key, value)]))
                   (exec (dispatch (PyDict [(key, earlier)])) w) in
  let alone := exec (dispatch (PyDict [(key, value)])) w in
  pcapins both = pcapins alone /\ pca both = pca alone.
Proof.
  intros Hr Hmem Hword both alone. subst both alone. unfold exec.
  rewrite !dispatch_one. cbn [snd].
  pose proof (reachable_well_formed w Hr) as Hw.
  assert (Hforced : exists bit word,
    (bit = 0 /\ word = "off" /\ str_in (lower (py_str value)) off_words = true)
    \/ (bit = 1 /\ word = "on" /\ str_in (lower (py_str value)) on_words = true)).
  { destruct Hword as [H | H];
      [exists 1, "on"; right | exists 0, "off"; left]; auto. }
  destruct Hforced as (bit & word & Hforced).
  destruct (on_entry_cases w key earlier Hw)
    as (w1 & E1 & _ & [(Hno & _) |
        (p & pin & v & d & s & Hp & Hget & Hpin & Hconf & Hout & Hcase)]);
    [congruence |].
  rewrite E1. cbn [snd].
  assert (Halone : on_entry (key, value) w =
    (Ok tt,
     mkWorld
       (dict_set key (entry pin (PyInt bit) (PyInt DIR_OUT) (PyStr word)) (pcapins w))
       (Some (mkPCA (logger p) (address p)
                (Z.land (conf p) (Z.lnot (Z.shiftl 1 pin)))
                (if truthy bit then Z.lor (out p) (Z.shiftl 1 pin)
                 else Z.land (out p) (Z.lnot (Z.shiftl 1 pin)))
                (inv p)))
       (mkBus (written (i2c w) ++
                 [ mkTransfer (address p) REG_OUT
                     (if truthy bit then Z.lor (out p) (Z.shiftl 1 pin)
                      else Z.land (out p) (Z.lnot (Z.shiftl 1 pin)));
                   mkTransfer (address p) REG_DIR
                     (Z.land (conf p) (Z.lnot (Z.shiftl 1 pin))) ])%list
              (input_port (i2c w)))
       (logging w ++
          [ mkLog "root" INFO ("Forcing " ++ key ++ " to " ++ word);
            mkLog (logger p) DEBUG
              ("Setting Pin " ++ str_int pin ++ " to "
               ++ (if truthy bit then "high" else "low"));
            mkLog (logger p) DEBUG
              ("Setting Output port Register to 0b"
               ++ fmt_08b (if truthy bit then Z.lor (out p) (Z.shiftl 1 pin)
                           else Z.land (out p) (Z.lnot (Z.shiftl 1 pin))));
            mkLog (logger p) DEBUG ("Setting Pin " ++ str_int pin ++ " to output");
            mkLog (logger p) DEBUG
              ("Setting Configuration Register to 0b"
               ++ fmt_08b (Z.land (conf p) (Z.lnot (Z.shiftl 1 pin))))
          ])%list)).
  { apply (on_entry_forced w p key value pin v d s Hp Hget bit word);
      [exact Hforced | |]; apply write_bit_ok; lia. }
  rewrite Halone. cbn [snd pcapins pca].
  assert (Hsecond : forall t1 p1 v1 d1 s1 bus1 log1,
    dict_get key t1 = Some (entry pin v1 d1 s1) ->
    write_bit (out p1) pin bit = write_bit (out p) pin bit ->
    write_bit (conf p1) pin DIR_OUT = write_bit (conf p) pin DIR_OUT ->
    logger p1 = logger p -> address p1 = address p -> inv p1 = inv p ->
    dict_set key (entry pin (PyInt bit) (PyInt DIR_OUT) (PyStr word)) t1 =
    dict_set key (entry pin (PyInt bit) (PyInt DIR_OUT) (PyStr word)) (pcapins w) ->
    let w2 := snd (on_entry (key, value) (mkWorld t1 (Some p1) bus1 log1)) in
    pcapins w2 =
    dict_set key (entry pin (PyInt bit) (PyInt DIR_OUT) (PyStr word)) (pcapins w)
    /\ pca w2 =
       Some (mkPCA (logger p) (address p)
               (Z.land (conf p) (Z.lnot (Z.shiftl 1 pin)))
               (if truthy bit then Z.lor (out p) (Z.shiftl 1 pin)
                else Z.land (out p) (Z.lnot (Z.shiftl 1 pin)))
               (inv p))).
  { intros t1 p1 v1 d1 s1 bus1 log1 Hget1 Eo Ec El Ea Ei Et w2. subst w2.
    erewrite on_entry_forced;
      [ | reflexivity | exact Hget1 | exact Hforced
        | rewrite Eo; apply write_bit_ok; lia
        | rewrite Ec; apply write_bit_ok; lia ].
    cbn [snd pcapins pca]. rewrite Et, El, Ea, Ei. split; reflexivity. }
  destruct w1 as [t1 q1 bus1 log1].
  destruct Hcase as [(bit1 & word1 & o & c & _ & Eo & Ec & Et & Ep & _) |
                     [(_ & c & Ec & Et & Ep & _) | (_ & _ & _ & Et & Ep & _)]];
    cbn [pcapins pca] in Et, Ep; subst t1 q1.
  - eapply Hsecond; try reflexivity.
    + apply dict_get_set_same.
    + cbn [out]. exact (write_bit_again _ _ _ _ _ Eo).
    + cbn [conf]. exact (write_bit_again _ _ _ _ _ Ec).
    + apply dict_set_set.
  - eapply Hsecond; try reflexivity.
    + apply dict_get_set_same.
    + cbn [conf]. exact (write_bit_again _ _ _ _ _ Ec).
    + apply dict_set_set.
  - rewrite Hp. eapply Hsecond; try reflexivity. exact Hget.
Qed.

Lemma forcing_command_overrides_witness :
  let w := boot 0 in
  let both := exec (dispatch (PyDict [("IO3", PyStr "off")]))
                   (exec (dispatch (PyDict [("IO3", PyStr "release")])) w) in
  let alone := exec (dispatch (PyDict [("IO3", PyStr "off")])) w in
  pcapins both = pcapins alone /\ pca both = pca alone.
Proof.
  apply (forcing_command_overrides (boot 0) "IO3" (PyStr "release") (PyStr "off")).
  - apply reach_boot.
  - reflexivity.
  - right. reflexivity.
Defined.

(** X23: on a reachable state, a command with several entries does what
    the commands made of its entries, sent one after the other, do: the
    first entry is applied as a command of its own and the rest follows
    from the state it leaves. *)
Theorem command_entries_apply_in_turn
        (w : World) (kv : string * pyobj) (kvs : list (string * pyobj)) :
  reachable w ->
  dispatch (PyDict (kv :: kvs)) w =
  dispatch (PyDict kvs) (exec (dispatch (PyDict [kv])) w).
Proof.
  intros Hr. destruct kv as [key value].
  destruct (on_entry_well_formed w (key, value) (reachable_well_formed w Hr))
    as [Hev _].
  unfold exec. rewrite dispatch_one. cbn [snd].
  unfold dispatch. erewrite !bind_ok by reflexivity. cbn [for_each].
  unfold eval in Hev.
  destruct (on_entry (key, value) w) as [r w1] eqn:E. cbn [fst snd] in *.
  subst r. erewrite bind_ok by exact E. reflexivity.
Qed.

Lemma command_entries_apply_in_turn_witness :
  dispatch (PyDict [("IO1", PyStr "on"); ("IO2", PyStr "off")]) (boot 0) =
  dispatch (PyDict [("IO2", PyStr "off")])
           (exec (dispatch (PyDict [("IO1", PyStr "on")])) (boot 0)).
Proof.
  apply (command_entries_apply_in_turn (boot 0) ("IO1", PyStr "on")
                                       [("IO2", PyStr "off")]).
  apply reach_boot.
Defined.

(** ** The entries beside an unknown name *)

Lemma exec_for_each_cons (kv : string * pyobj) (kvs : list (string * pyobj))
      (w : World) :
  well_formed w ->
  exec (for_each (kv :: kvs) on_entry) w =
  exec (for_each kvs on_entry) (exec (on_entry kv) w).
Proof.
  intros Hw. destruct (on_entry_well_formed w kv Hw) as [Hev _].
  unfold eval, exec in *. cbn [for_each].
  destruct (on_entry kv w) as [r w1] eqn:E. cbn [fst snd] in *. subst r.
  erewrite bind_ok by exact E. reflexivity.
Qed.

Lemma exec_for_each_app (l1 l2 : list (string * pyobj)) (w : World) :
  well_formed w ->
  exec (for_each (l1 ++ l2)%list on_entry) w =
  exec (for_each l2 on_entry) (exec (for_each l1 on_entry) w).
Proof.
  revert w. induction l1 as [| kv l1 IH]; intros w Hw; [reflexivity |].
  cbn [app]. rewrite !exec_for_each_cons by exact Hw.
  apply IH. apply on_entry_well_formed. exact Hw.
Qed.

Lemma on_entry_keeps_entry (w : World) (key name : string) (value : pyobj) :
  well_formed w -> name <> key ->
  dict_get name (pcapins (exec (on_entry (key, value)) w)) =
  dict_get name (pcapins w).
Proof.
  intros Hw Hne.
  destruct (on_entry_cases w key value Hw)
    as (w' & Erun & _ & [(_ & Et & _) |
        (p & pin & v & d & s & _ & _ & _ & _ & _ & Hcase)]);
    unfold exec; rewrite Erun; cbn [snd].
  - rewrite Et. reflexivity.
  - destruct Hcase as [(bit & word & o & c & _ & _ & _ & Et & _) |
                       [(_ & c & _ & Et & _) | (_ & _ & _ & Et & _)]];
      rewrite Et; try reflexivity; apply dict_get_set_other; exact Hne.
Qed.

Lemma for_each_keeps_entry (kvs : list (string * pyobj)) (w : World)
      (name : string) :
  well_formed w -> ~ In name (keys kvs) ->
  dict_get name (pcapins (exec (for_each kvs on_entry) w)) =
  dict_get name (pcapins w).
Proof.
  revert w. induction kvs as [| [key value] kvs IH]; intros w Hw Hnot;
    [reflexivity |].
  rewrite exec_for_each_cons by exact Hw.
  rewrite IH.
  - apply on_entry_keeps_entry; [exact Hw |].
    intros ->. apply Hnot. left. reflexivity.
  - apply on_entry_well_formed. exact Hw.
  - intros Hin. apply Hnot. right. exact Hin.
Qed.

(** The bits that the table of a state in step stands for. *)
Lemma in_step_bits (w : World) (name : string) (pin : Z) (v d s : pyobj) :
  in_step w -> dict_get name (pcapins w) = Some (entry pin v d s) ->
  exists p, pca w = Some p
    /\ direction_bit d = Some (Z.testbit (conf p) pin)
    /\ level_bit v = Some (Z.testbit (out p) pin).
Proof.
  intros (_ & p & Hp & _ & _ & Hstep) Hget.
  destruct (Hstep name _ Hget) as (pin0 & v0 & d0 & s0 & He & _ & Hd & Hv).
  apply entry_injective in He. destruct He as (<- & <- & <- & <-).
  exists p. auto.
Qed.

(** Every entry of a command with distinct keys is applied, wherever it
    stands in the command. *)
Lemma entries_applied (kvs : list (string * pyobj)) (w : World)
      (name : string) (value : pyobj) (pin : Z) (v d s : pyobj) :
  well_formed w -> in_step w ->
  NoDup (keys kvs) -> In (name, value) kvs ->
  dict_get name (pcapins w) = Some (entry pin v d s) ->
  command_applied w (exec (for_each kvs on_entry) w) name value pin v d s.
Proof.
  intros Hw Hs Hnd Hin Hget.
  destruct (in_split _ _ Hin) as (l1 & l2 & ->).
  assert (Hkeys : ~ In name (keys l1) /\ ~ In name (keys l2)).
  { unfold keys in *. rewrite map_app in Hnd. cbn [map fst] in Hnd.
    pose proof (NoDup_remove_2 _ _ _ Hnd) as Hnot.
    split; intros H; apply Hnot; apply in_or_app; [left | right]; exact H. }
  destruct Hkeys as [Hk1 Hk2].
  rewrite exec_for_each_app by exact Hw.
  rewrite exec_for_each_cons by (apply for_each_well_formed; exact Hw).
  set (w1 := exec (for_each l1 on_entry) w).
  assert (Hw1 : well_formed w1) by (apply for_each_well_formed; exact Hw).
  assert (Hs1 : in_step w1) by (apply for_each_in_step; assumption).
  assert (Hget1 : dict_get name (pcapins w1) = Some (entry pin v d s)).
  { unfold w1. rewrite for_each_keeps_entry by assumption. exact Hget. }
  destruct (for_each_transfers l1 w Hw Hs) as (pre & Epre & _ & _).
  fold w1 in Epre.
  set (w2 := exec (on_entry (name, value)) w1).
  assert (Hw2 : well_formed w2) by (apply on_entry_well_formed; exact Hw1).
  assert (Hs2 : in_step w2) by (apply on_entry_in_step; assumption).
  set (w3 := exec (for_each l2 on_entry) w2).
  assert (Hs3 : in_step w3) by (apply for_each_in_step; assumption).
  assert (Hget3 : dict_get name (pcapins w3) = dict_get name (pcapins w2)).
  { unfold w3. apply for_each_keeps_entry; assumption. }
  destruct (for_each_transfers l2 w2 Hw2 Hs2) as (post & Epost & _ & _).
  fold w3 in Epost.
  destruct Hs1 as (_ & p1 & Hp1 & Haddr & _).
  destruct (on_entry_cases w1 name value Hw1)
    as (w' & Erun & _ & [(Hmem & _) |
        (p & pin0 & v0 & d0 & s0 & Hp & Hget0 & Hpin & _ & _ & Hcase)]).
  { rewrite (known_key _ _ _ Hget1) in Hmem. discriminate Hmem. }
  rewrite Hget1 in Hget0. injection Hget0 as <- <- <- <-.
  rewrite Hp in Hp1. injection Hp1 as <-.
  assert (E2 : w2 = w') by (unfold w2, exec; rewrite Erun; reflexivity).
  rewrite <- E2 in Hcase. clear w' Erun E2.
  unfold command_applied. cbv zeta.
  assert (Hbit : forall b x r, write_bit b pin x = Ok r ->
                               Z.testbit r pin = truthy x).
  { intros b x r E.
    rewrite (write_bit_testbit b pin x r pin) by (lia || exact E).
    rewrite Z.eqb_refl. reflexivity. }
  destruct Hcase as [(bit & word & o & c & Hword & Eo & Ec & Et & _ & Etr) |
                     [(Hdef & c & Ec & Et & _ & Etr) | (H0 & H1 & H2 & Et & _)]].
  - assert (Hdriven : driven w w3 name pin bit word).
    { unfold driven. rewrite Hget3, Et, dict_get_set_same.
      split; [reflexivity |]. split.
      - destruct (in_step_bits w3 name pin (PyInt bit) (PyInt DIR_OUT) (PyStr word) Hs3)
          as (p3 & Hp3 & Hd3 & Hv3).
        { rewrite Hget3, Et. apply dict_get_set_same. }
        exists p3. cbn in Hd3, Hv3. injection Hd3 as Hd3. injection Hv3 as Hv3.
        split; [exact Hp3 |]. split; congruence.
      - exists pre, o, c, post. rewrite Epost, Etr, Epre, Haddr.
        rewrite <- !app_assoc. split; [reflexivity |].
        split; [exact (Hbit _ _ _ Eo) | exact (Hbit _ _ _ Ec)]. }
    destruct Hword as [(-> & -> & Hoff) | (-> & -> & Hon)].
    + rewrite Hoff. exact Hdriven.
    + rewrite (on_not_off _ Hon), Hon. exact Hdriven.
  - destruct (default_not_forced _ Hdef) as [-> ->]. rewrite Hdef.
    unfold released. rewrite Hget3, Et, dict_get_set_same.
    split; [reflexivity |]. split.
    + destruct (in_step_bits w3 name pin v (PyInt DIR_IN) (PyStr "default") Hs3)
        as (p3 & Hp3 & Hd3 & _).
      { rewrite Hget3, Et. apply dict_get_set_same. }
      exists p3. cbn in Hd3. injection Hd3 as Hd3.
      split; [exact Hp3 | congruence].
    + exists pre, c, post. rewrite Epost, Etr, Epre, Haddr.
      rewrite <- !app_assoc. split; [reflexivity |].
      exact (Hbit _ _ _ Ec).
  - rewrite H0, H1, H2, Hget3, Et. exact Hget1.
Qed.

(** C7: on a reachable state, a command that holds a key that is not a
    pin name, anywhere among its entries, returns normally; the report
    "Invalid name received" for that key is logged exactly once more
    than it had been; the pin table, the driver's shadows and the bytes
    written to the chip end up exactly as if the command had been sent
    without that entry; and every other entry of the command (whose
    keys are distinct) that names a pin is applied: for a word of the
    off or on set the pin's entry is value 0 or 1, direction OUT and
    state "off" or "on", the shadows hold these bits and the output and
    direction registers were sent with them; for a word of the release
    set the entry keeps its value with direction IN and state
    "default", and the direction register was sent with the pin's bit
    set; for any other value the entry is what it was. *)
Theorem unknown_name_skipped
        (w : World) (before after : list (string * pyobj))
        (key : string) (value : pyobj) :
  reachable w ->
  dict_mem key (pcapins w) = false ->
  ~ In key (keys before) -> ~ In key (keys after) ->
  let full := exec (dispatch (PyDict (before ++ (key, value) :: after))) w in
  let rest := exec (dispatch (PyDict (before ++ after))) w in
  eval (dispatch (PyDict (before ++ (key, value) :: after))) w = Ok tt
  /\ occurrences (unknown_name key) (logging full) =
     S (occurrences (unknown_name key) (logging w))
  /\ pcapins full = pcapins rest
  /\ pca full = pca rest
  /\ i2c full = i2c rest
  /\ (NoDup (keys (before ++ after)%list) ->
      forall (name : string) (value' : pyobj) (pin : Z) (v d s : pyobj),
        In (name, value') (before ++ after)%list ->
        dict_get name (pcapins w) = Some (entry pin v d s) ->
        command_applied w full name value' pin v d s).
Proof.
  intros Hr Hmem Hbefore Hafter full rest.
  destruct (unknown_entry_dropped w before after key value Hr Hmem Hbefore Hafter)
    as (Hev & Hlog & Et & Ep & Eb).
  fold full rest in Hlog, Et, Ep, Eb.
  repeat (split; [assumption |]).
  intros Hnd name value' pin v d s Hin Hget.
  assert (Happ : command_applied w rest name value' pin v d s).
  { unfold rest, exec, dispatch. erewrite bind_ok by reflexivity.
    apply (entries_applied (before ++ after)%list w name value' pin v d s);
      [apply reachable_well_formed | apply reachable_in_step | | |]; assumption. }
  unfold command_applied, driven, released in *.
  rewrite Et, Ep, Eb. exact Happ.
Qed.

Lemma unknown_name_skipped_witness :
  let w := boot 0 in
  let before := [("IO1", PyStr "on")] in
  let after := [("LED", PyInt 0)] in
  let full :=
    exec (dispatch (PyDict (before ++ ("NOTAPIN", PyStr "on") :: after))) w in
  let rest := exec (dispatch (PyDict (before ++ after))) w in
  eval (dispatch (PyDict (before ++ ("NOTAPIN", PyStr "on") :: after))) w = Ok tt
  /\ occurrences (unknown_name "NOTAPIN") (logging full) =
     S (occurrences (unknown_name "NOTAPIN") (logging w))
  /\ pcapins full = pcapins rest
  /\ pca full = pca rest
  /\ i2c full = i2c rest
  /\ driven w full "IO1" 1 1 "on"
  /\ driven w full "LED" 0 0 "off".
Proof.
  destruct (unknown_name_skipped (boot 0) [("IO1", PyStr "on")] [("LED", PyInt 0)]
                                 "NOTAPIN" (PyStr "on"))
    as (Hev & Hlog & Et & Ep & Eb & Happ).
  - apply reach_boot.
  - reflexivity.
  - cbn. intros [H | []]. discriminate H.
  - cbn. intros [H | []]. discriminate H.
  - repeat (split; [assumption |]).
    assert (Hnd : NoDup (keys ([("IO1", PyStr "on")] ++ [("LED", PyInt 0)])%list)).
    { cbn. repeat constructor; cbn; intuition discriminate. }
    split.
    + apply (Happ Hnd "IO1" (PyStr "on") 1 PyNone PyNone (PyStr "default"));
        [left; reflexivity | reflexivity].
    + apply (Happ Hnd "LED" (PyInt 0) 0 PyNone PyNone (PyStr "default"));
        [right; left; reflexivity | reflexivity].
Defined.

(* ================================================================== *)
(** * Further properties of the sensors and of the loop *)

(** ** Rounding to the nearest, ties to even *)

Lemma floor_below (x : Q) (n : Z) : (x < inject_Z n + 1)%Q -> Qfloor x <= n.
Proof.
  intros H. pose proof (Qfloor_le x) as Hf.
  assert (Hlt : (inject_Z (Qfloor x) < inject_Z (n + 1))%Q)
    by (rewrite inject_Z_plus; change (inject_Z 1) with 1%Q; lra).
  rewrite <- Zlt_Qlt in Hlt. lia.
Qed.

Lemma floor_above (x : Q) (n : Z) : (inject_Z n <= x)%Q -> n <= Qfloor x.
Proof.
  intros H. rewrite <- (Qfloor_Z n). apply Qfloor_resp_le. exact H.
Qed.

Lemma round_half_even_low (x : Q) (n : Z) :
  Z.even n = true -> (x <= inject_Z n + (1 # 2))%Q -> round_half_even x <= n.
Proof.
  intros Heven Hx. unfold round_half_even.
  assert (Hf : Qfloor x <= n) by (apply floor_below; lra).
  destruct (Z.eq_dec (Qfloor x) n) as [E | Hne].
  - rewrite E.
    destruct (Qcompare (x - inject_Z n) (1 # 2)) eqn:C.
    + rewrite Heven. lia.
    + lia.
    + apply Qgt_alt in C. lra.
  - destruct (Qcompare (x - inject_Z (Qfloor x)) (1 # 2));
      [destruct (Z.even (Qfloor x)) | |]; lia.
Qed.

Lemma round_half_even_high (x : Q) (n : Z) :
  (inject_Z n + (1 # 2) < x)%Q -> n + 1 <= round_half_even x.
Proof.
  intros Hx. unfold round_half_even.
  assert (Hf : n <= Qfloor x) by (apply floor_above; lra).
  destruct (Z.eq_dec (Qfloor x) n) as [E | Hne].
  - rewrite E.
    destruct (Qcompare (x - inject_Z n) (1 # 2)) eqn:C.
    + apply Qeq_alt in C. lra.
    + apply Qlt_alt in C. lra.
    + lia.
  - destruct (Qcompare (x - inject_Z (Qfloor x)) (1 # 2));
      [destruct (Z.even (Qfloor x)) | |]; lia.
Qed.

Lemma threshold (x : Q) : gt (round x 2) 1 = true <-> (201 # 200 < x)%Q.
Proof.
  unfold gt, round.
  change (inject_Z (10 ^ Z.of_nat 2)) with (inject_Z 100).
  rewrite negb_true_iff. split.
  - intros H. apply Qnot_le_lt. intros Hle.
    assert (Hr : round_half_even (x * inject_Z 100) <= 100).
    { apply round_half_even_low; [reflexivity |].
      change (inject_Z 100) with 100%Q. lra. }
    assert (Htrue : Qle_bool (inject_Z (round_half_even (x * inject_Z 100))
                              / inject_Z 100) 1 = true).
    { apply Qle_bool_iff. apply Qle_shift_div_r; [reflexivity |].
      rewrite Qmult_1_l. rewrite <- Zle_Qle. exact Hr. }
    congruence.
  - intros Hx.
    assert (Hr : 101 <= round_half_even (x * inject_Z 100)).
    { apply (round_half_even_high _ 100).
      change (inject_Z 100) with 100%Q. lra. }
    destruct (Qle_bool (inject_Z (round_half_even (x * inject_Z 100))
                        / inject_Z 100) 1) eqn:E; [| reflexivity].
    apply Qle_bool_iff in E.
    assert (Hle : (inject_Z (round_half_even (x * inject_Z 100)) <= inject_Z 100)%Q).
    { apply (Qmult_le_r _ _ (/ inject_Z 100)); [reflexivity |].
      unfold Qdiv in E. rewrite Qmult_inv_r by discriminate. exact E. }
    rewrite <- Zle_Qle in Hle. lia.
Qed.

(** X14: the test is on the voltage rounded to two decimals, so the
    threshold on the voltage read at line 142 is 1.005 and not 1.0.  A
    device that answers at most 1.005 there gets the all-zero reading,
    also for an answer in (1.0, 1.005]; a device that answers more gets
    the reading made of the four reads that follow, each rounded:
    voltage to 2 decimals, current to 1, power to 0 and divided by
    1000, shunt voltage to 3. *)
Theorem reading_by_threshold (inaobj : INA219) :
  ((voltage_test inaobj <= 201 # 200)%Q -> reading inaobj = zero_reading)
  /\ ((201 # 200 < voltage_test inaobj)%Q ->
      reading inaobj =
        [ ("voltage", NFloat (round (voltage inaobj) 2));
          ("current", NFloat (round (current inaobj) 1));
          ("power", NFloat (round (power inaobj) 0 / 1000)%Q);
          ("shunt_voltage", NFloat (round (shunt_voltage inaobj) 3)) ]).
Proof.
  unfold reading.
  destruct (gt (round (voltage_test inaobj) 2) 1) eqn:E.
  - apply threshold in E. split; [intros H; lra | reflexivity].
  - split; [reflexivity | intros H].
    apply threshold in H. congruence.
Qed.

Lemma reading_by_threshold_witness :
  reading (mkINA (1004 # 1000) (1004 # 1000) 250 75 (25 # 10)) = zero_reading
  /\ reading (mkINA (1006 # 1000) (508 # 100) (4123 # 10) 2095 (4123 # 1000)) =
       [ ("voltage", NFloat (round (508 # 100) 2));
         ("current", NFloat (round (4123 # 10) 1));
         ("power", NFloat (round 2095 0 / 1000)%Q);
         ("shunt_voltage", NFloat (round (4123 # 1000) 3)) ].
Proof.
  split.
  - apply (reading_by_threshold (mkINA (1004 # 1000) (1004 # 1000) 250 75 (25 # 10))).
    cbn. unfold Qle. cbn. lia.
  - apply (reading_by_threshold
             (mkINA (1006 # 1000) (508 # 100) (4123 # 10) 2095 (4123 # 1000))).
    cbn. unfold Qlt. cbn. lia.
Defined.

(** ** One reading per device *)

Lemma keys_dict_set_new {V} (k : string) (v : V) (d : dict V) :
  ~ In k (keys d) -> keys (dict_set k v d) = (keys d ++ [k])%list.
Proof.
  unfold keys. induction d as [| [k' v'] d IH]; cbn; [reflexivity |].
  intros Hnot. destruct (String.eqb_spec k k') as [-> | Hne].
  - exfalso. apply Hnot. left. reflexivity.
  - cbn. rewrite IH; [reflexivity |]. intros Hin. apply Hnot. right. exact Hin.
Qed.

Lemma read_inas_keys_from (l : dict INA219) (acc : dict (dict number)) :
  NoDup (keys acc ++ keys l) ->
  keys (fold_left (fun results item => dict_set (fst item) (reading (snd item)) results)
                  l acc) =
  (keys acc ++ keys l)%list.
Proof.
  revert acc. induction l as [| [k x] l IH]; intros acc Hnd; cbn [fold_left fst snd].
  - cbn. rewrite app_nil_r. reflexivity.
  - cbn [keys map fst] in *. fold (keys l) in *.
    assert (Hk : ~ In k (keys acc)).
    { intros Hin. apply NoDup_remove_2 in Hnd. apply Hnd.
      apply in_or_app. left. exact Hin. }
    rewrite IH; rewrite keys_dict_set_new by exact Hk.
    + rewrite <- app_assoc. reflexivity.
    + rewrite <- app_assoc. exact Hnd.
Qed.

Lemma read_inas_values_from (l : dict INA219) (acc : dict (dict number))
      (P : dict number -> Prop) :
  (forall inaobj, P (reading inaobj)) ->
  Forall (fun kv => P (snd kv)) acc ->
  Forall (fun kv => P (snd kv))
    (fold_left (fun results item => dict_set (fst item) (reading (snd item)) results)
               l acc).
Proof.
  intros HP. revert acc. induction l as [| [k x] l IH]; intros acc Hacc; [exact Hacc |].
  cbn [fold_left fst snd]. apply IH. apply Forall_dict_set; [exact Hacc | apply HP].
Qed.

(** X15: for devices with distinct names, [read_inas] returns one reading
    per device, under the device's name and in the order of the devices,
    and every reading has the four fields voltage, current, power and
    shunt_voltage, in this order, whether the device is present or
    not. *)
Theorem read_inas_covers_devices (devices : dict INA219) :
  NoDup (keys devices) ->
  keys (read_inas devices) = keys devices
  /\ Forall (fun kv => keys (snd kv) =
                       ["voltage"; "current"; "power"; "shunt_voltage"])
            (read_inas devices).
Proof.
  intros Hnd. split.
  - unfold read_inas. rewrite read_inas_keys_from; [reflexivity | exact Hnd].
  - unfold read_inas.
    apply (read_inas_values_from devices []
             (fun r => keys r = ["voltage"; "current"; "power"; "shunt_voltage"]));
      [| constructor].
    intros inaobj. unfold reading.
    destruct (gt (round (voltage_test inaobj) 2) 1); reflexivity.
Qed.

Lemma read_inas_covers_devices_witness :
  keys (read_inas [ ("Raspi", mkINA 5 5 400 2000 4);
                    ("Input", mkINA (1 # 2) 12 1 1 1) ]) = ["Raspi"; "Input"].
Proof.
  refine (proj1 (read_inas_covers_devices
                   [ ("Raspi", mkINA 5 5 400 2000 4);
                     ("Input", mkINA (1 # 2) 12 1 1 1) ] _)).
  repeat constructor; cbn; intuition discriminate.
Defined.

(** ** The pace of the loop *)

Lemma gt_false (a b : Q) : gt a b = false <-> (a <= b)%Q.
Proof. unfold gt. rewrite negb_false_iff. apply Qle_bool_iff. Qed.

(** X16: once an iteration has sampled, an iteration whose clock reads
    at most the time taken by that sample plus the interval, measured
    from the second clock reading of the sampling iteration, does
    nothing: nothing is published, no file is written and the time of
    the last sample is kept. *)
Theorem no_sample_within_interval
        (cfg : Config) (lastchecktime : Q) (first second : Tick) (w w' : World) :
  gt (time_test first) (lastchecktime + inainterval cfg) = true ->
  (time_test second <= time_taken first + inainterval cfg)%Q ->
  poll cfg (fst (poll cfg lastchecktime first w)) second w' =
  (time_taken first, []).
Proof.
  intros Hfirst Hsecond. unfold poll at 2. rewrite Hfirst. cbn [fst].
  unfold poll. rewrite (proj2 (gt_false _ _) Hsecond). reflexivity.
Qed.

Lemma no_sample_within_interval_witness :
  poll (mkConfig "bw/host/" 5 "/run/bw")
       (fst (poll (mkConfig "bw/host/" 5 "/run/bw") 0
                  (mkTick 100 (1001 # 10) true true []) (boot 0)))
       (mkTick 105 105 true true []) (boot 0) =
  (1001 # 10, []).
Proof.
  apply (no_sample_within_interval (mkConfig "bw/host/" 5 "/run/bw") 0
           (mkTick 100 (1001 # 10) true true []) (mkTick 105 105 true true [])).
  - reflexivity.
  - cbn. unfold Qle. cbn. lia.
Defined.


(* ================================================================== *)
(** * Properties of discovery and of the connection *)

(** ** The calls that are made *)

Lemma discover_pins_runs (cfg : Config) (h : Host) (pins : list string)
      (first : bool) (w : World) :
  exists l,
    discover_pins cfg h first pins w =
    (Ok (match pins with
         | [] => []
         | p :: rest => pin_call cfg h first p :: map (pin_call cfg h false) rest
         end),
     mkWorld (pcapins w) (pca w) (i2c w) (logging w ++ l)%list).
Proof.
  revert first w. induction pins as [| p rest IH]; intros first w.
  - exists []. cbn. rewrite app_nil_r. destruct w; reflexivity.
  - cbn [discover_pins]. unfold debug.
    erewrite bind_ok by apply emit_eq.
    destruct (IH false (mkWorld (pcapins w) (pca w) (i2c w)
                          (logging w ++
                             [mkLog "root" DEBUG
                                ("Sending HASS Discovery for Pin " ++ p)])%list))
      as [l E].
    erewrite bind_ok by exact E.
    eexists. unfold ret. cbn [pcapins pca i2c logging].
    rewrite <- app_assoc. unfold pin_call.
    destruct rest; reflexivity.
Qed.

Lemma discover_sensors_runs (cfg : Config) (h : Host) (names : list string)
      (w : World) :
  exists l,
    discover_sensors cfg h names w =
    (Ok (flat_map (sensor_calls cfg h) names),
     mkWorld (pcapins w) (pca w) (i2c w) (logging w ++ l)%list).
Proof.
  revert w. induction names as [| name rest IH]; intros w.
  - exists []. cbn. rewrite app_nil_r. destruct w; reflexivity.
  - cbn [discover_sensors]. unfold debug.
    do 4 (erewrite bind_ok by apply emit_eq; cbn [pcapins pca i2c logging]).
    match goal with
    | |- context [bind (discover_sensors cfg h rest) _ ?w1] =>
        destruct (IH w1) as [l E]
    end.
    erewrite bind_ok by exact E.
    eexists. unfold ret. cbn [pcapins pca i2c logging flat_map sensor_calls app].
    rewrite <- !app_assoc. reflexivity.
Qed.

Lemma hass_discovery_runs (cfg : Config) (h : Host) (names : list string)
      (w : World) :
  exists l,
    hass_discovery cfg h names w =
    (Ok (discovery_calls cfg h (keys (pcapins w)) names),
     mkWorld (pcapins w) (pca w) (i2c w) (logging w ++ l)%list).
Proof.
  unfold hass_discovery, info.
  erewrite bind_ok by apply emit_eq. cbn [pcapins].
  match goal with
  | |- context [bind (discover_pins cfg h true ?ps) _ ?w1] =>
      destruct (discover_pins_runs cfg h ps true w1) as [l1 E1]
  end.
  erewrite bind_ok by exact E1. cbn [pcapins pca i2c logging] in *.
  match goal with
  | |- context [bind (discover_sensors cfg h names) _ ?w2] =>
      destruct (discover_sensors_runs cfg h names w2) as [l2 E2]
  end.
  erewrite bind_ok by exact E2. cbn [pcapins pca i2c logging].
  eexists. unfold ret, discovery_calls. rewrite <- !app_assoc. reflexivity.
Qed.

Lemma mqtt_on_connect_runs (cfg : Config) (h : Host) (names : list string)
      (w : World) :
  exists l,
    mqtt_on_connect cfg h names w =
    (Ok (Subscribe (mqtt_topic cfg ++ "command")
         :: PublishTo (mqtt_topic cfg ++ "status") (Text "online") true
         :: discovery_calls cfg h (keys (pcapins w)) names),
     mkWorld (pcapins w) (pca w) (i2c w) (logging w ++ l)%list).
Proof.
  unfold mqtt_on_connect, info.
  erewrite bind_ok by apply emit_eq.
  match goal with
  | |- context [bind (hass_discovery cfg h names) _ ?w1] =>
      destruct (hass_discovery_runs cfg h names w1) as [l E]
  end.
  erewrite bind_ok by exact E. cbn [pcapins pca i2c logging].
  eexists. unfold ret. rewrite <- !app_assoc. reflexivity.
Qed.

Lemma discovery_calls_length (cfg : Config) (h : Host) (pins names : list string) :
  List.length (discovery_calls cfg h pins names) =
  (List.length pins + 4 * List.length names)%nat.
Proof.
  unfold discovery_calls. rewrite length_app. f_equal.
  - destruct pins; cbn; [reflexivity |]. rewrite length_map. reflexivity.
  - induction names as [| n names IH]; cbn; [reflexivity |].
    rewrite IH. lia.
Qed.

Lemma discovery_calls_retained (cfg : Config) (h : Host) (pins names : list string) :
  Forall retained (discovery_calls cfg h pins names).
Proof.
  unfold discovery_calls. apply Forall_app. split.
  - destruct pins as [| p rest]; constructor; [reflexivity |].
    induction rest as [| q rest IH]; cbn [map]; constructor;
      [reflexivity | exact IH].
  - induction names as [| n names IH]; cbn; [constructor |].
    repeat (constructor; [reflexivity |]). exact IH.
Qed.

(** X17: whenever the client connects, [mqtt_on_connect] returns
    normally and leaves the pin table, the driver and the bus as they
    were; it subscribes first, then publishes, with the retain flag
    throughout: the status, one configuration per pin and four per
    sensor. *)
Theorem connection_keeps_state
        (cfg : Config) (h : Host) (names : list string) (w : World) :
  exists calls rest,
    eval (mqtt_on_connect cfg h names) w = Ok calls
    /\ pcapins (exec (mqtt_on_connect cfg h names) w) = pcapins w
    /\ pca (exec (mqtt_on_connect cfg h names) w) = pca w
    /\ i2c (exec (mqtt_on_connect cfg h names) w) = i2c w
    /\ calls = Subscribe (mqtt_topic cfg ++ "command")
               :: PublishTo (mqtt_topic cfg ++ "status") (Text "online") true
               :: rest
    /\ List.length rest =
       (List.length (pcapins w) + 4 * List.length names)%nat
    /\ Forall retained calls.
Proof.
  destruct (mqtt_on_connect_runs cfg h names w) as [l E].
  unfold eval, exec. rewrite E. cbn [fst snd pcapins pca i2c].
  eexists _, _. split; [reflexivity |]. repeat (split; [reflexivity |]).
  split.
  - rewrite discovery_calls_length. unfold keys. rewrite length_map. reflexivity.
  - constructor; [exact I |]. constructor; [reflexivity |].
    apply discovery_calls_retained.
Qed.

(** ** The device and the topics in the configurations *)

Lemma keys_reachable (w : World) :
  reachable w -> keys (pcapins w) = keys pcapins_literal.
Proof. intros Hr. exact (proj1 (reachable_well_formed w Hr)). Qed.

Lemma sensor_calls_short (cfg : Config) (h : Host) (names : list string) :
  Forall (fun c => call_field "dev" c = Some (deviceconfig_short h))
         (flat_map (sensor_calls cfg h) names).
Proof.
  induction names as [| n names IH]; cbn; [constructor |].
  repeat (constructor; [reflexivity |]). exact IH.
Qed.

(** X18: in a reachable state, the first message of discovery, the
    configuration of the first pin, carries the full description of the
    device, and every later one, for a pin or for a sensor, carries only
    its identifiers. *)
Theorem device_described_once
        (cfg : Config) (h : Host) (names : list string) (w : World) :
  reachable w ->
  exists c rest,
    eval (hass_discovery cfg h names) w = Ok (c :: rest)
    /\ call_field "dev" c = Some (deviceconfig h)
    /\ Forall (fun c' => call_field "dev" c' = Some (deviceconfig_short h)) rest.
Proof.
  intros Hr. destruct (hass_discovery_runs cfg h names w) as [l E].
  unfold eval. rewrite E. cbn [fst].
  rewrite (keys_reachable w Hr). cbn [keys map fst pcapins_literal].
  unfold discovery_calls. cbn [app].
  eexists _, _. split; [reflexivity |]. split; [reflexivity |].
  apply Forall_app. split.
  - repeat (constructor; [reflexivity |]). constructor.
  - apply sensor_calls_short.
Qed.

Lemma device_described_once_witness :
  exists c rest,
    eval (hass_discovery (mkConfig "bw/host/" 5 "/run/bw")
                         (mkHost "host" "homeassistant/") ["Raspi"])
         (boot 0) = Ok (c :: rest)
    /\ call_field "dev" c = Some (deviceconfig (mkHost "host" "homeassistant/"))
    /\ Forall (fun c' => call_field "dev" c' =
                         Some (deviceconfig_short (mkHost "host" "homeassistant/")))
              rest.
Proof. apply device_described_once. apply reach_boot. Defined.

(** X19: the configurations sent on connection name the topics that the
    program uses.  After the subscription to the command topic and the
    publication of "online" on the status topic come one configuration
    per pin of the table, in its order, each on the topic of its pin,
    and then four per sensor, in the order voltage, current, power and
    shunt voltage, each on its own topic.  Every configuration of a pin
    names the status topic for availability, the topic of the pin
    states for its state, and the command topic, the one subscribed,
    for commands.  Every configuration of a sensor names the status
    topic for availability and the topic of the power readings for its
    state, and has no command topic.  The loop publishes the pin table
    and the readings on exactly these two state topics. *)
Theorem discovery_names_the_topics
        (cfg : Config) (h : Host) (names : list string) (w : World) :
  exists pins sensors,
    eval (mqtt_on_connect cfg h names) w =
    Ok (Subscribe (mqtt_topic cfg ++ "command")
        :: PublishTo (mqtt_topic cfg ++ "status") (Text "online") true
        :: (pins ++ sensors)%list)
    /\ map call_topic pins = map (select_topic h) (keys (pcapins w))
    /\ map (call_field "name") pins =
       map (fun pinname => Some (PyStr pinname)) (keys (pcapins w))
    /\ Forall (fun c =>
                 call_field "avty_t" c = Some (PyStr (mqtt_topic cfg ++ "status"))
                 /\ call_field "stat_t" c =
                      Some (PyStr (mqtt_topic cfg ++ "pinstates"))
                 /\ call_field "cmd_t" c =
                      Some (PyStr (mqtt_topic cfg ++ "command")))
              pins
    /\ map call_topic sensors =
       flat_map (fun name =>
                   map (sensor_topic h name)
                       ["_voltage"; "_current"; "_power"; "_shunt_voltage"])
                names
    /\ Forall (fun c =>
                 call_field "avty_t" c = Some (PyStr (mqtt_topic cfg ++ "status"))
                 /\ call_field "stat_t" c =
                      Some (PyStr (mqtt_topic cfg ++ "powerstats"))
                 /\ call_field "cmd_t" c = None)
              sensors
    /\ forall lastchecktime env w' t body,
         In (Publish t body) (snd (poll cfg lastchecktime env w')) ->
         (t = mqtt_topic cfg ++ "pinstates" /\ body = Pinstates (pcapins w'))
         \/ (t = mqtt_topic cfg ++ "powerstats"
             /\ body = Powerstats (read_inas (inas env))).
Proof.
  destruct (mqtt_on_connect_runs cfg h names w) as [l E].
  unfold eval. rewrite E. cbn [fst]. unfold discovery_calls. clear E.
  eexists _, _. split; [reflexivity |].
  split; [| split; [| split; [| split; [| split]]]].
  - destruct (keys (pcapins w)) as [| p rest]; [reflexivity |].
    cbn [map]. f_equal. rewrite map_map. apply map_ext. reflexivity.
  - destruct (keys (pcapins w)) as [| p rest]; [reflexivity |].
    cbn [map]. f_equal. rewrite map_map. apply map_ext. reflexivity.
  - destruct (keys (pcapins w)) as [| p rest]; constructor.
    + repeat split.
    + apply Forall_map. apply Forall_forall. intros q _. repeat split.
  - induction names as [| n names IH]; [reflexivity |].
    cbn [flat_map]. rewrite map_app, IH. reflexivity.
  - induction names as [| n names IH]; cbn [flat_map]; [constructor |].
    apply Forall_app. split; [| exact IH].
    repeat (constructor; [repeat split |]). constructor.
  - intros lastchecktime env w' t body Hin. unfold poll in Hin.
    destruct (gt (time_test env) (lastchecktime + inainterval cfg));
      cbn [snd] in Hin; [| destruct Hin].
    apply in_app_or in Hin. destruct Hin as [Hin | Hin].
    + destruct (is_connected env); [| destruct Hin].
      destruct Hin as [Heq | [Heq | []]]; injection Heq as <- <-; auto.
    + destruct (isdir env); [| destruct Hin].
      destruct Hin as [Heq | []]. discriminate Heq.
Qed.

(** ** The options of a pin *)

(** X20: in a reachable state, each option that discovery announces for
    a pin is a command the handler applies: sending the option for that
    pin returns normally and leaves the pin with the option as its
    mode. *)
Theorem announced_options_are_accepted
        (cfg : Config) (h : Host) (names : list string) (w : World)
        (calls : list ClientCall) (c : ClientCall)
        (name option : string) (options : list pyobj) :
  reachable w ->
  eval (hass_discovery cfg h names) w = Ok calls ->
  In c calls ->
  call_field "name" c = Some (PyStr name) ->
  call_field "ops" c = Some (PyList options) ->
  In (PyStr option) options ->
  eval (dispatch (PyDict [(name, PyStr option)])) w = Ok tt
  /\ exists pin v d,
       dict_get name (pcapins (exec (dispatch (PyDict [(name, PyStr option)])) w)) =
       Some (entry pin v d (PyStr option)).
Proof.
  intros Hr Hcalls Hin Hname Hops Hopt.
  destruct (hass_discovery_runs cfg h names w) as [l E].
  unfold eval in Hcalls. rewrite E in Hcalls. cbn [fst] in Hcalls.
  injection Hcalls as <-.
  unfold discovery_calls in Hin. apply in_app_or in Hin.
  assert (Hpins : exists first, c = pin_call cfg h first name
                                /\ In name (keys (pcapins w))).
  { destruct Hin as [Hin | Hin].
    - destruct (keys (pcapins w)) as [| p rest]; [destruct Hin |].
      destruct Hin as [<- | Hin].
      + cbn in Hname. injection Hname as ->. exists true. split; [reflexivity |].
        left. reflexivity.
      + apply in_map_iff in Hin. destruct Hin as (q & <- & Hq).
        cbn in Hname. injection Hname as ->. exists false. split; [reflexivity |].
        right. exact Hq.
    - exfalso. apply in_flat_map in Hin. destruct Hin as (n & _ & Hn).
      cbn in Hn.
      destruct Hn as [<- | [<- | [<- | [<- | []]]]]; discriminate Hops. }
  destruct Hpins as (first & -> & Hkey).
  cbn in Hops. injection Hops as <-.
  assert (Hmem : dict_mem name (pcapins w) = true).
  { unfold dict_mem. apply existsb_exists. exists name.
    split; [exact Hkey | apply String.eqb_refl]. }
  unfold eval, exec. rewrite dispatch_one. cbn [fst snd].
  destruct (reachable_well_formed w Hr) as (_ & Hall & p & Hp & _).
  destruct (proj1 (dict_mem_get name (pcapins w)) Hmem) as [e Hget].
  destruct (Forall_dict_get entry_ok name e (pcapins w) Hall Hget)
    as (pin & v & d & s & -> & Hpin & _).
  destruct Hopt as [[= <-] | [[= <-] | [[= <-] | []]]].
  - erewrite on_entry_forced
      by (try eassumption; try (right; repeat split; reflexivity);
          apply write_bit_ok; lia).
    cbn [fst snd pcapins]. split; [reflexivity |].
    eexists _, _, _. apply dict_get_set_same.
  - erewrite on_entry_forced
      by (try eassumption; try (left; repeat split; reflexivity);
          apply write_bit_ok; lia).
    cbn [fst snd pcapins]. split; [reflexivity |].
    eexists _, _, _. apply dict_get_set_same.
  - erewrite on_entry_released
      by (try eassumption; try reflexivity; apply write_bit_ok; lia).
    cbn [fst snd pcapins]. split; [reflexivity |].
    eexists _, _, _. apply dict_get_set_same.
Qed.

Lemma announced_options_are_accepted_witness :
  eval (dispatch (PyDict [("USB2", PyStr "default")])) (boot 0) = Ok tt
  /\ exists pin v d,
       dict_get "USB2"
         (pcapins (exec (dispatch (PyDict [("USB2", PyStr "default")])) (boot 0))) =
       Some (entry pin v d (PyStr "default")).
Proof.
  apply (announced_options_are_accepted
           (mkConfig "bw/host/" 5 "/run/bw") (mkHost "host" "homeassistant/") []
           (boot 0)
           (discovery_calls (mkConfig "bw/host/" 5 "/run/bw")
                            (mkHost "host" "homeassistant/")
                            (keys (pcapins (boot 0))) [])
           (pin_call (mkConfig "bw/host/" 5 "/run/bw")
                     (mkHost "host" "homeassistant/") false "USB2")
           "USB2" "default" [PyStr "on"; PyStr "off"; PyStr "default"]).
  - apply reach_boot.
  - reflexivity.
  - vm_compute. do 5 right. left. reflexivity.
  - reflexivity.
  - reflexivity.
  - right. right. left. reflexivity.
Defined.

(** ** Topics and identifiers of the configurations *)

Lemma NoDup_map_injective {A B} (f : A -> B) (l : list A) :
  (forall x y, f x = f y -> x = y) -> NoDup l -> NoDup (map f l).
Proof.
  intros Hinj Hl. apply NoDup_map_NoDup_ForallPairs; [| exact Hl].
  intros x y _ _. apply Hinj.
Qed.

Lemma NoDup_by_computation (l : list string) :
  nodup string_dec l = l -> NoDup l.
Proof. intros <-. apply NoDup_nodup. Qed.

(** X21: with the pins of the table and the sensors of [inaconfig],
    whatever the host name and the discovery prefix, the messages of
    discovery go to pairwise different topics and carry pairwise
    different unique identifiers, so that no retained configuration
    replaces another, although three pins and three sensors share their
    names. *)
Theorem discovery_never_collides (cfg : Config) (h : Host) (w : World) :
  reachable w ->
  exists calls,
    eval (hass_discovery cfg h (keys inaconfig)) w = Ok calls
    /\ NoDup (map call_topic calls)
    /\ NoDup (map (call_field "uniq_id") calls).
Proof.
  intros Hr. destruct (hass_discovery_runs cfg h (keys inaconfig) w) as [l E].
  unfold eval. rewrite E. cbn [fst]. rewrite (keys_reachable w Hr).
  eexists. split; [reflexivity |]. split.
  - change (map call_topic
              (discovery_calls cfg h (keys pcapins_literal) (keys inaconfig)))
      with (List.app
              (map (fun s => hass_discovery_prefix h
                             ++ "select/bratwurst_power_" ++ hostname h ++ s)
                   (map (fun p => "/" ++ p ++ "/config") (keys pcapins_literal)))
              (map (fun s => hass_discovery_prefix h
                             ++ "sensor/bratwurst_power_" ++ hostname h ++ s)
                   (flat_map (fun n => [ "/" ++ n ++ "_voltage/config";
                                         "/" ++ n ++ "_current/config";
                                         "/" ++ n ++ "_power/config";
                                         "/" ++ n ++ "_shunt_voltage/config" ])
                             (keys inaconfig)))).
    apply NoDup_app.
    + apply NoDup_map_injective.
      * intros x y H. apply append_same_prefix in H.
        apply (append_same_prefix "select/bratwurst_power_") in H.
        apply append_same_prefix in H. exact H.
      * apply NoDup_by_computation. vm_compute. reflexivity.
    + apply NoDup_map_injective.
      * intros x y H. apply append_same_prefix in H.
        apply (append_same_prefix "sensor/bratwurst_power_") in H.
        apply append_same_prefix in H. exact H.
      * apply NoDup_by_computation. vm_compute. reflexivity.
    + intros a Ha Hb.
      apply in_map_iff in Ha. destruct Ha as (x & <- & _).
      apply in_map_iff in Hb. destruct Hb as (y & Heq & _).
      apply append_same_prefix in Heq. discriminate Heq.
  - change (map (call_field "uniq_id")
              (discovery_calls cfg h (keys pcapins_literal) (keys inaconfig)))
      with (map (fun s => Some (PyStr ("bwpow_" ++ hostname h ++ s)))
                (List.app
                   (map (fun p => "_" ++ p) (keys pcapins_literal))
                   (flat_map (fun n => [ "_" ++ n ++ "_voltage";
                                         "_" ++ n ++ "_current";
                                         "_" ++ n ++ "_power";
                                         "_" ++ n ++ "_shunt_voltage" ])
                             (keys inaconfig)))).
    apply NoDup_map_injective.
    + intros x y [= H]. apply append_same_prefix in H. exact H.
    + apply NoDup_by_computation. vm_compute. reflexivity.
Qed.

Lemma discovery_never_collides_witness :
  exists calls,
    eval (hass_discovery (mkConfig "bw/host/" 5 "/run/bw")
                         (mkHost "host" "homeassistant/") (keys inaconfig))
         (boot 0) = Ok calls
    /\ NoDup (map call_topic calls)
    /\ NoDup (map (call_field "uniq_id") calls).
Proof. apply discovery_never_collides. apply reach_boot. Defined.

(** ** The templates and the published documents *)

(** X22: the value templates of the four configurations of a sensor
    read, under the sensor's name, the four fields of the reading that
    [read_inas] publishes for it, in the same order; a device with that
    name always has such a reading. *)
Theorem sensor_templates_read_the_reading
        (cfg : Config) (h : Host) (devices : dict INA219) (name : string) :
  NoDup (keys devices) ->
  In name (keys devices) ->
  exists r,
    dict_get name (read_inas devices) = Some r
    /\ map (call_field "val_tpl") (sensor_calls cfg h name) =
       map (fun field =>
              Some (PyStr ("{{ value_json." ++ name ++ "." ++ field ++ " | float}}")))
           (keys r).
Proof.
  intros Hnd Hin.
  assert (Hget : exists inaobj, dict_get name devices = Some inaobj).
  { apply dict_mem_get. unfold dict_mem. apply existsb_exists.
    exists name. split; [exact Hin | apply String.eqb_refl]. }
  destruct Hget as [inaobj Hget].
  exists (reading inaobj). split; [apply read_inas_get; assumption |].
  unfold reading. destruct (gt (round (voltage_test inaobj) 2) 1); reflexivity.
Qed.

Lemma sensor_templates_read_the_reading_witness :
  exists r,
    dict_get "EXT" (read_inas [("EXT", mkINA 5 5 100 500 1)]) = Some r
    /\ map (call_field "val_tpl")
           (sensor_calls (mkConfig "bw/host/" 5 "/run/bw")
                         (mkHost "host" "homeassistant/") "EXT") =
       map (fun field =>
              Some (PyStr ("{{ value_json." ++ "EXT" ++ "." ++ field ++ " | float}}")))
           (keys r).
Proof.
  apply (sensor_templates_read_the_reading
           (mkConfig "bw/host/" 5 "/run/bw") (mkHost "host" "homeassistant/")
           [("EXT", mkINA 5 5 100 500 1)] "EXT").
  - repeat constructor. intros [].
  - left. reflexivity.
Defined.



(* ================================================================== *)
(** * A transfer that the bus refuses *)

(** On the bus that answers, the code with the bus as a parameter is the
    code above. *)
Lemma on_bus_answering :
  OnBus.write_inv write_byte_data = Pca9557.write_inv
  /\ OnBus.write_direction write_byte_data = Pca9557.write_direction
  /\ OnBus.write_output write_byte_data = Pca9557.write_output
  /\ OnBus.value write_byte_data = Pca9557.value
  /\ OnBus.direction write_byte_data = Pca9557.direction
  /\ OnBus.invert write_byte_data = Pca9557.invert
  /\ OnBus.on_entry write_byte_data = on_entry
  /\ OnBus.dispatch write_byte_data = dispatch
  /\ OnBus.mqtt_on_message write_byte_data = mqtt_on_message.
Proof. repeat split. Qed.

(** ** In the driver *)

Lemma value_refused (w : World) (p : PCA9557) (pin v o : Z) :
  pca w = Some p ->
  write_bit (out p) pin v = Ok o ->
  OnBus.value refused pin (Some v) w =
  (Raise OSError,
   mkWorld (pcapins w)
     (Some (mkPCA (logger p) (address p) (conf p) o (inv p)))
     (i2c w)
     (logging w ++
        [ mkLog (logger p) DEBUG
            ("Setting Pin " ++ str_int pin ++ " to "
             ++ (if truthy v then "high" else "low"));
          mkLog (logger p) DEBUG
            ("Setting Output port Register to 0b" ++ fmt_08b o) ])%list).
Proof.
  intros Hp Ho. destruct w as [tbl q bus log]. cbn in Hp. subst q.
  unfold OnBus.value, OnBus.write_output, Pca9557.debug, Pca9557.self,
    Pca9557.set_out, Pca9557.assign, emit, refused, lift, bind, ret, raise.
  cbn. rewrite Ho. cbn. rewrite <- app_assoc. reflexivity.
Qed.



Lemma write_bit_sets (b k v r : Z) :
  write_bit b k v = Ok r ->
  0 <= k /\ Z.testbit r k = truthy v
  /\ forall j, 0 <= j -> j <> k -> Z.testbit r j = Z.testbit b j.
Proof.
  intros E.
  assert (Hk : 0 <= k).
  { unfold write_bit in E. destruct (k <? 0) eqn:L; [discriminate | lia]. }
  split; [exact Hk |]. split.
  - rewrite (write_bit_testbit b k v r k) by (lia || exact E).
    rewrite Z.eqb_refl. reflexivity.
  - intros j Hj Hne.
    rewrite (write_bit_testbit b k v r j) by (lia || exact E).
    destruct (Z.eqb_spec j k); [contradiction | reflexivity].
Qed.



(** ** In the handler *)

Lemma on_entry_refused
      (w : World) (p : PCA9557) (key : string) (value : pyobj)
      (pin : Z) (v d s : pyobj) (bit : Z) (word : string) (o : Z) :
  pca w = Some p ->
  dict_get key (pcapins w) = Some (entry pin v d s) ->
  (bit = 0 /\ word = "off" /\ str_in (lower (py_str value)) off_words = true)
  \/ (bit = 1 /\ word = "on" /\ str_in (lower (py_str value)) on_words = true) ->
  write_bit (out p) pin bit = Ok o ->
  OnBus.on_entry refused (key, value) w =
  (Raise OSError,
   mkWorld (pcapins w)
     (Some (mkPCA (logger p) (address p) (conf p) o (inv p)))
     (i2c w)
     (logging w ++
        [ mkLog "root" INFO ("Forcing " ++ key ++ " to " ++ word);
          mkLog (logger p) DEBUG
            ("Setting Pin " ++ str_int pin ++ " to "
             ++ (if truthy bit then "high" else "low"));
          mkLog (logger p) DEBUG ("Setting Output port Register to 0b" ++ fmt_08b o)
        ])%list).
Proof.
  intros Hp Hget Hword Ho.
  unfold OnBus.on_entry. cbn [fst snd]. rewrite (known_key _ _ _ Hget).
  read_fields Hget.
  destruct Hword as [(-> & -> & Hw) | (-> & -> & Hw)].
  - fold off_words. rewrite Hw.
    erewrite bind_raise; [reflexivity |].
    erewrite bind_ok by apply emit_eq.
    erewrite bind_ok by reflexivity.
    erewrite bind_raise; [reflexivity |].
    erewrite value_refused; [| exact Hp | exact Ho].
    cbn [pcapins pca i2c logging]. rewrite <- app_assoc. reflexivity.
  - fold off_words on_words. rewrite (on_not_off _ Hw), Hw.
    erewrite bind_raise; [reflexivity |].
    erewrite bind_ok by apply emit_eq.
    erewrite bind_ok by reflexivity.
    erewrite bind_raise; [reflexivity |].
    erewrite value_refused; [| exact Hp | exact Ho].
    cbn [pcapins pca i2c logging]. rewrite <- app_assoc. reflexivity.
Qed.

(** X26: a transfer that the bus refuses, in the handler.  On a
    reachable state, a command whose first entry forces a pin on or off
    while the bus does not answer ends the handler with [OSError]: no
    byte has reached the chip, the table is what it was, for that pin
    and for the entries that follow, which are not processed, and yet
    the output shadow already holds the bit that was ordered.  Where
    that bit differs from the one the pin had, the table and the
    shadows no longer agree, and the next command that the bus answers
    and that forces another pin sends an output register that carries
    the refused bit to the chip. *)
Theorem refused_command_is_kept
        (w : World) (msg : MQTTMessage) (text : string)
        (key : string) (value : pyobj) (rest : list (string * pyobj))
        (pin : Z) (v d s : pyobj) (p : PCA9557) (bit : Z) :
  reachable w ->
  bytes_decode (payload msg) = Ok text ->
  pca w = Some p ->
  dict_get key (pcapins w) = Some (entry pin v d s) ->
  (bit = 0 /\ str_in (lower (py_str value)) off_words = true)
  \/ (bit = 1 /\ str_in (lower (py_str value)) on_words = true) ->
  let run :=
    OnBus.mqtt_on_message refused msg (Ok (PyDict ((key, value) :: rest))) in
  let w' := exec run w in
  eval run w = Raise OSError
  /\ pcapins w' = pcapins w
  /\ i2c w' = i2c w
  /\ (exists p', pca w' = Some p'
        /\ Z.testbit (out p') pin = truthy bit
        /\ (forall j, 0 <= j -> j <> pin ->
              Z.testbit (out p') j = Z.testbit (out p) j)
        /\ conf p' = conf p /\ inv p' = inv p)
  /\ (Z.testbit (out p) pin <> truthy bit -> ~ in_step w')
  /\ forall (key' : string) (value' : pyobj) (pin' : Z) (v' d' s' : pyobj),
       dict_get key' (pcapins w) = Some (entry pin' v' d' s') ->
       key' <> key ->
       str_in (lower (py_str value')) on_words = true
       \/ str_in (lower (py_str value')) off_words = true ->
       exists o c,
         written (i2c (exec (dispatch (PyDict [(key', value')])) w')) =
         (written (i2c w) ++ [ mkTransfer PCA9557_ADDRESS REG_OUT o;
                               mkTransfer PCA9557_ADDRESS REG_DIR c ])%list
         /\ Z.testbit o pin = truthy bit.
Proof.
  intros Hr Hdec Hp Hget Hword run w'. subst w' run.
  pose proof (reachable_well_formed w Hr) as Hw.
  pose proof (reachable_in_step w Hr) as Hs.
  destruct Hw as (Hkeys & Hall & p0 & Hp0 & Hconf & Hout & Hinv).
  rewrite Hp in Hp0. injection Hp0 as <-.
  destruct (Forall_dict_get entry_ok key _ (pcapins w) Hall Hget)
    as (pin0 & v0 & d0 & s0 & He & Hpin & _).
  apply entry_injective in He. destruct He as (<- & <- & <- & <-).
  assert (Hpin0 : 0 <= pin) by lia.
  pose proof (write_bit_ok (out p) pin bit Hpin0) as Eo.
  destruct (write_bit_sets _ _ _ _ Eo) as (_ & Ho1 & Ho2).
  set (o := if truthy bit then Z.lor (out p) (Z.shiftl 1 pin)
            else Z.land (out p) (Z.lnot (Z.shiftl 1 pin))) in *.
  assert (Hrun : exists l,
    OnBus.mqtt_on_message refused msg (Ok (PyDict ((key, value) :: rest))) w =
    (Raise OSError,
     mkWorld (pcapins w)
       (Some (mkPCA (logger p) (address p) (conf p) o (inv p)))
       (i2c w) (logging w ++ l)%list)).
  { unfold OnBus.mqtt_on_message. rewrite Hdec.
    erewrite bind_ok by reflexivity.
    erewrite bind_ok by apply emit_eq.
    unfold OnBus.dispatch. erewrite bind_ok by reflexivity.
    cbn [for_each].
    destruct Hword as [(-> & Hwd) | (-> & Hwd)].
    - eexists. erewrite bind_raise; [reflexivity |].
      erewrite (on_entry_refused _ p key value pin v d s 0 "off" o);
        [| exact Hp | exact Hget | left; auto | exact Eo].
      cbn [pcapins pca i2c logging]. rewrite <- app_assoc. reflexivity.
    - eexists. erewrite bind_raise; [reflexivity |].
      erewrite (on_entry_refused _ p key value pin v d s 1 "on" o);
        [| exact Hp | exact Hget | right; auto | exact Eo].
      cbn [pcapins pca i2c logging]. rewrite <- app_assoc. reflexivity. }
  destruct Hrun as [l Hrun]. unfold eval, exec. rewrite Hrun.
  cbn [fst snd pcapins pca i2c].
  split; [reflexivity |]. split; [reflexivity |]. split; [reflexivity |].
  split.
  { eexists. split; [reflexivity |]. cbn [out conf inv]. auto. }
  split.
  { intros Hdiff (_ & p' & Hp' & _ & _ & Hstep').
    cbn [pca pcapins] in Hp', Hstep'. injection Hp' as <-.
    destruct (Hstep' key _ Hget) as (pin1 & v1 & d1 & s1 & He & _ & _ & Hv1).
    apply entry_injective in He. destruct He as (<- & <- & <- & <-).
    cbn [out] in Hv1.
    destruct (in_step_bits w key pin v d s Hs Hget) as (p1 & Hp1 & _ & Hv).
    rewrite Hp in Hp1. injection Hp1 as <-.
    rewrite Hv in Hv1. injection Hv1 as Hv1.
    apply Hdiff. rewrite Hv1. exact Ho1. }
  intros key' value' pin' v' d' s' Hget' Hne' Hword'.
  destruct (Forall_dict_get entry_ok key' _ (pcapins w) Hall Hget')
    as (pin1 & v1 & d1 & s1 & He & Hpin' & _).
  apply entry_injective in He. destruct He as (<- & <- & <- & <-).
  assert (Hpins : pin' <> pin).
  { intros ->. apply Hne'.
    exact (pins_differ _ _ _ _ _ _ _ _ _ _ (proj1 Hs) Hget' Hget). }
  destruct Hs as (_ & ps & Hps & Haddr & _).
  rewrite Hp in Hps. injection Hps as <-.
  rewrite dispatch_one. cbn [snd].
  assert (Hbit' : exists bit' word',
    (bit' = 0 /\ word' = "off"
     /\ str_in (lower (py_str value')) off_words = true)
    \/ (bit' = 1 /\ word' = "on"
        /\ str_in (lower (py_str value')) on_words = true)).
  { destruct Hword' as [H | H]; [exists 1, "on" | exists 0, "off"]; auto. }
  destruct Hbit' as (bit' & word' & Hbw).
  assert (Hpin1 : 0 <= pin') by lia.
  pose proof (write_bit_ok o pin' bit' Hpin1) as Eo'.
  pose proof (write_bit_ok (conf p) pin' DIR_OUT Hpin1) as Ec'.
  match goal with
  | |- context [on_entry (key', value') ?w1] =>
      rewrite (on_entry_forced
                 w1 (mkPCA (logger p) (address p) (conf p) o (inv p))
                 key' value' pin' v' d' s' eq_refl Hget'
                 bit' word' _ _ Hbw Eo' Ec')
  end.
  cbn [snd i2c written address]. rewrite Haddr.
  eexists _, _. split; [reflexivity |].
  destruct (write_bit_sets _ _ _ _ Eo') as (_ & _ & Hother).
  rewrite Hother by (lia || congruence). exact Ho1.
Qed.

Lemma refused_command_is_kept_witness :
  let msg :=
    mkMsg "bw/host/command"
          [x7b; x22; x49; x4f; x31; x22; x3a; x20; x22; x6f; x6e; x22; x7d] in
  let run := OnBus.mqtt_on_message refused msg (Ok (PyDict [("IO1", PyStr "on")])) in
  let w' := exec run (boot 0) in
  eval run (boot 0) = Raise OSError
  /\ pcapins w' = pcapins (boot 0)
  /\ i2c w' = i2c (boot 0)
  /\ ~ in_step w'
  /\ exists o c,
       written (i2c (exec (dispatch (PyDict [("IO2", PyStr "on")])) w')) =
       (written (i2c (boot 0)) ++ [ mkTransfer PCA9557_ADDRESS REG_OUT o;
                                    mkTransfer PCA9557_ADDRESS REG_DIR c ])%list
       /\ Z.testbit o 1 = true.
Proof.
  cbv zeta.
  destruct (refused_command_is_kept
              (boot 0)
              (mkMsg "bw/host/command"
                     [x7b; x22; x49; x4f; x31; x22; x3a; x20;
                      x22; x6f; x6e; x22; x7d])
              (String "{" (String (Ascii.ascii_of_N 34)
                 ("IO1" ++ String (Ascii.ascii_of_N 34)
                    (": " ++ String (Ascii.ascii_of_N 34)
                       ("on" ++ String (Ascii.ascii_of_N 34) "}")))))
              "IO1" (PyStr "on") [] 1 PyNone PyNone (PyStr "default")
              (mkPCA ("pca9557" ++ "(0x" ++ fmt_02X 31 ++ ")") 31 255 0 0) 1)
    as (Hev & Ht & Hb & _ & Hstep & Hnext).
  - apply reach_boot.
  - vm_compute. reflexivity.
  - reflexivity.
  - reflexivity.
  - right. split; reflexivity.
  - split; [exact Hev |]. split; [exact Ht |]. split; [exact Hb |].
    split; [apply Hstep; vm_compute; discriminate |].
    apply (Hnext "IO2" (PyStr "on") 2 PyNone PyNone (PyStr "default"));
      [reflexivity | discriminate | left; reflexivity].
Defined.
